(** * guided-diffusion: configuration glue and the DECA data supplier

    A shallow embedding of [guided_diffusion/script_util.py] and
    [guided_diffusion/dataloader/deca_datasets.py], and the properties of
    them that the specification states.

    Conventions.
    - A Python call either returns a value or raises: [result A].
    - numpy's float64 arithmetic is modelled by exact rationals ([Q]);
      equality of computed values is [Qeq].  A division by zero, which
      numpy answers with inf or nan and a warning, is [Qdiv]'s 0; no
      property below states the value of such a quotient.  What the exact
      reading shows of the shape of an array, of the minimum and maximum
      of numbers of the input and of what is raised holds of the rounded
      computation too.  What it shows of the value of a computed number is
      said of exact arithmetic only (the round trip of [normalize] and
      [denormalize]); [normalize] is given a second time, over binary64
      ([Float64]), to run the rounded computation on concrete arrays.
    - The attributes of the configuration objects are record fields, with
      a prefix where two objects share an attribute name.
    - Code of the repository that is not part of these two files
      ([gaussian_diffusion], [respace], [img_util], the model classes),
      the checks of the library's [DataLoader] constructor, and the Python
      builtins whose behaviour is not at stake ([int], the [random] module,
      file access) are parameters of the sections that use them. *)

From Stdlib Require Import ZArith QArith Qminmax List String Ascii Bool Lia Lqa.
From Stdlib Require Import Permutation Sorted.
From Stdlib Require Import Init.Byte.
From Stdlib Require Strings.Byte.
From Stdlib Require Floats.
Import ListNotations.

Local Open Scope string_scope.
Local Open Scope list_scope.
Local Open Scope Z_scope.

(** ** Python results and exceptions *)

Module Py.

(** The exception classes the two files can raise.  [ConfigurationError] is
    the class the specification names for construction failures; no [raise]
    in the sources mentions it. *)
Inductive exn : Type :=
| ValueError
| NotImplementedError
| TypeError
| KeyError
| IndexError
| ZeroDivisionError
| UnboundLocalError
| OSError
| ConfigurationError.

Inductive result (A : Type) : Type :=
| Ok (a : A)
| Raise (e : exn).

Arguments Ok {A} a.
Arguments Raise {A} e.

Definition bind {A B : Type} (r : result A) (k : A -> result B) : result B :=
  match r with
  | Ok a => k a
  | Raise e => Raise e
  end.

(** What [raise X] does with its operand: an exception class is raised, and
    the constant [NotImplemented], which is no exception, makes the [raise]
    statement itself fail with [TypeError]. *)
Inductive raise_operand : Type :=
| ExceptionClass (e : exn)
| NotImplementedConstant.

Definition raise_stmt {A : Type} (x : raise_operand) : result A :=
  match x with
  | ExceptionClass e => Raise e
  | NotImplementedConstant => Raise TypeError
  end.

(** Reading a local variable: a name that no executed assignment has bound
    raises [UnboundLocalError]. *)
Definition load_local {A : Type} (v : option A) : result A :=
  match v with
  | Some a => Ok a
  | None => Raise UnboundLocalError
  end.

(** [xs[i]] on a list, negative indices counting from the end. *)
Definition list_index {A : Type} (xs : list A) (i : Z) : result A :=
  let n := Z.of_nat (List.length xs) in
  let j := if i <? 0 then i + n else i in
  if (0 <=? j) && (j <? n)
  then match nth_error xs (Z.to_nat j) with
       | Some a => Ok a
       | None => Raise IndexError
       end
  else Raise IndexError.

(** [for x in xs: ...] collecting results, stopping at the first exception. *)
Fixpoint mapM {A B : Type} (f : A -> result B) (xs : list A) : result (list B) :=
  match xs with
  | [] => Ok []
  | x :: xs' =>
      match f x with
      | Raise e => Raise e
      | Ok y =>
          match mapM f xs' with
          | Raise e => Raise e
          | Ok ys => Ok (y :: ys)
          end
      end
  end.

(** [not s] for a string: true exactly for the empty string. *)
Definition not_str (s : string) : bool :=
  match s with
  | EmptyString => true
  | String _ _ => false
  end.

(** [s.split(sep)] for a one-character separator; [cur] is the piece being
    read. *)
Fixpoint split_aux (sep : ascii) (s : string) (cur : string) : list string :=
  match s with
  | EmptyString => [cur]
  | String c s' =>
      if Ascii.eqb c sep
      then cur :: split_aux sep s' EmptyString
      else split_aux sep s' (cur ++ String c EmptyString)%string
  end.

Definition str_split (sep : ascii) (s : string) : list string :=
  split_aux sep s EmptyString.

(** [xs[-1]] for the list a [split] returns, which is never empty. *)
Definition last_piece (xs : list string) : string := last xs EmptyString.

(** [s.replace(old, new)] for a non-empty [old]: occurrences are replaced
    from the left and do not overlap; [skip] counts the characters of a
    matched occurrence still to be dropped. *)
Fixpoint replace_aux (old new : string) (skip : nat) (s : string) : string :=
  match s with
  | EmptyString => EmptyString
  | String c s' =>
      match skip with
      | S k => replace_aux old new k s'
      | O =>
          if String.prefix old s
          then (new ++ replace_aux old new (String.length old - 1) s')%string
          else String c (replace_aux old new 0 s')
      end
  end.

Definition str_replace (old new s : string) : string := replace_aux old new 0 s.

(** [c in s] for a character. *)
Fixpoint str_contains (c : ascii) (s : string) : bool :=
  match s with
  | EmptyString => false
  | String c' s' => Ascii.eqb c' c || str_contains c s'
  end.

(** [s in words] for a list of strings. *)
Definition str_in (s : string) (words : list string) : bool :=
  existsb (String.eqb s) words.

(** [s.lower()] on the letters A-Z.  A string is its UTF-8 bytes; the
    bytes of a character outside ASCII are left as they are, and Python
    lowers no such character to an ASCII-only string, so a comparison of
    the lowered string with ASCII words is answered as Python answers it. *)
Definition lower_char (c : ascii) : ascii :=
  let n := nat_of_ascii c in
  if Nat.leb 65 n && Nat.leb n 90 then ascii_of_nat (n + 32) else c.

Fixpoint str_lower (s : string) : string :=
  match s with
  | EmptyString => EmptyString
  | String c s' => String (lower_char c) (str_lower s')
  end.

(** [sorted(names)] with what hangs on each name: insertion by
    [String.leb], the order of the code points. *)
Fixpoint insert_by_name {X : Type} (e : string * X) (l : list (string * X))
  : list (string * X) :=
  match l with
  | [] => [e]
  | h :: t =>
      if String.leb (fst e) (fst h) then e :: l else h :: insert_by_name e t
  end.

Definition sorted_by_name {X : Type} (l : list (string * X)) : list (string * X) :=
  fold_right insert_by_name [] l.

End Py.

Import Py.

Declare Scope py_scope.
Delimit Scope py_scope with py.
Notation "x <- c ;; k" := (Py.bind c (fun x => k))
  (at level 61, c at next level, right associativity) : py_scope.
Notation "' pat <- c ;; k" := (Py.bind c (fun x => match x with pat => k end))
  (at level 61, pat pattern, c at next level, right associativity) : py_scope.
Local Open Scope py_scope.

(** ** script_util.py *)

Module ScriptUtil.

(** [gd.ModelMeanType] and [gd.ModelVarType], with the members that
    [create_gaussian_diffusion] names (the classes are defined in
    [gaussian_diffusion], which is not among the sources). *)
Inductive ModelMeanType : Type := EPSILON | START_X.
Inductive ModelVarType : Type := FIXED_LARGE | FIXED_SMALL | LEARNED_RANGE.

(** Modelled from the spec: [gd.LossType] is defined in
    [gaussian_diffusion], which is not among the sources.  Its members are
    the four that the data model of the specification lists; the code names
    [MSE], [RESCALED_MSE] and [RESCALED_KL]. *)
Inductive LossType : Type := MSE | RESCALED_MSE | KL | RESCALED_KL.

(** [cfg.diffusion]: the attributes [create_gaussian_diffusion] reads. *)
Record DiffusionCfg : Type := {
  noise_schedule : string;
  diffusion_steps : Z;
  use_kl : bool;
  rescale_learned_sigmas : bool;
  timestep_respacing : string;
  predict_xstart : bool;
  sigma_small : bool;
  learn_sigma : bool;
  rescale_timesteps : bool
}.

(** The call [SpacedDiffusion(use_timesteps=..., betas=..., ...)]: the object
    is represented by the keyword arguments it is built from (the class is
    defined in [respace], outside these sources). *)
Record SpacedDiffusion (Betas Timesteps : Type) : Type := {
  sd_use_timesteps : Timesteps;
  sd_betas : Betas;
  sd_model_mean_type : ModelMeanType;
  sd_model_var_type : ModelVarType;
  sd_loss_type : LossType;
  sd_rescale_timesteps : bool
}.

Arguments sd_use_timesteps {Betas Timesteps} _.
Arguments sd_betas {Betas Timesteps} _.
Arguments sd_model_mean_type {Betas Timesteps} _.
Arguments sd_model_var_type {Betas Timesteps} _.
Arguments sd_loss_type {Betas Timesteps} _.
Arguments sd_rescale_timesteps {Betas Timesteps} _.

Section Diffusion.

(** [gd.get_named_beta_schedule] and [respace.space_timesteps], with the
    types of what they return. *)
Context {Betas Timesteps : Type}.
Variable get_named_beta_schedule : string -> Z -> result Betas.
Variable space_timesteps : Z -> list Z -> result Timesteps.

(** Lines 119-146.  The local [timestep_respacing] is bound only by the
    assignment under [if not cfg.timestep_respacing]; the call on line 130
    reads it. *)
Definition create_gaussian_diffusion (cfg : DiffusionCfg)
  : result (SpacedDiffusion Betas Timesteps) :=
  betas <- get_named_beta_schedule cfg.(noise_schedule) cfg.(diffusion_steps) ;;
  let loss_type :=
    if cfg.(use_kl) then RESCALED_KL
    else if cfg.(rescale_learned_sigmas) then RESCALED_MSE
    else MSE in
  let timestep_respacing_local : option (list Z) :=
    if not_str cfg.(timestep_respacing)
    then Some [cfg.(diffusion_steps)]
    else None in
  section_counts <- load_local timestep_respacing_local ;;
  use_timesteps <- space_timesteps cfg.(diffusion_steps) section_counts ;;
  Ok {| sd_use_timesteps := use_timesteps;
        sd_betas := betas;
        sd_model_mean_type :=
          if negb cfg.(predict_xstart) then EPSILON else START_X;
        sd_model_var_type :=
          if negb cfg.(learn_sigma)
          then (if negb cfg.(sigma_small) then FIXED_LARGE else FIXED_SMALL)
          else LEARNED_RANGE;
        sd_loss_type := loss_type;
        sd_rescale_timesteps := cfg.(rescale_timesteps) |}.

End Diffusion.

(** [cfg.param_model]: the attributes [create_param_model] reads. *)
Record ParamModelCfg : Type := {
  pm_deca_cond : bool;
  pm_arch : string;
  pm_in_channels : Z;
  pm_out_channels : Z;
  pm_model_channels : Z;
  pm_num_layers : Z;
  pm_use_checkpoint : bool;
  pm_use_scale_shift_norm : bool
}.

(** The three constructor calls of [create_param_model], each with its
    keyword arguments in the order of the call. *)
Inductive ParamModel : Type :=
| DECADenseCond (in_channels out_channels model_channels : Z)
    (use_checkpoint use_scale_shift_norm : bool)
| DenseDDPM (in_channels model_channels num_layers : Z) (use_checkpoint : bool)
| AutoEncoderDPM (in_channels out_channels model_channels num_layers : Z)
    (use_checkpoint : bool).

(** Lines 28-55 (the two [print] calls write to standard output only). *)
Definition create_param_model (cfg : ParamModelCfg) : result ParamModel :=
  if cfg.(pm_deca_cond)
  then Ok (DECADenseCond cfg.(pm_in_channels) cfg.(pm_out_channels)
             cfg.(pm_model_channels) cfg.(pm_use_checkpoint)
             cfg.(pm_use_scale_shift_norm))
  else if String.eqb cfg.(pm_arch) "magenta"
  then Ok (DenseDDPM cfg.(pm_in_channels) cfg.(pm_model_channels)
             cfg.(pm_num_layers) cfg.(pm_use_checkpoint))
  else if String.eqb cfg.(pm_arch) "autoenc"
  then Ok (AutoEncoderDPM cfg.(pm_in_channels) cfg.(pm_out_channels)
             cfg.(pm_model_channels) cfg.(pm_num_layers)
             cfg.(pm_use_checkpoint))
  else raise_stmt (ExceptionClass NotImplementedError).

(** [cfg.img_model]: the attributes [create_model] reads. *)
Record ImgModelCfg : Type := {
  im_channel_mult : string;
  im_image_size : Z;
  im_attention_resolutions : string;
  im_arch : string;
  im_in_channels : Z;
  im_num_channels : Z;
  im_out_channels : Z;
  im_num_res_blocks : Z;
  im_dropout : Q;
  im_class_cond : bool;
  im_use_checkpoint : bool;
  im_num_heads : Z;
  im_num_head_channels : Z;
  im_num_heads_upsample : Z;
  im_use_scale_shift_norm : bool;
  im_resblock_updown : bool;
  im_use_new_attention_order : bool;
  im_condition_dim : Z
}.

Definition NUM_CLASSES : Z := 1000.

(** The keyword arguments the two UNet constructors share. *)
Record UNetArgs : Type := {
  ua_image_size : Z;
  ua_in_channels : Z;
  ua_model_channels : Z;
  ua_out_channels : Z;
  ua_num_res_blocks : Z;
  ua_attention_resolutions : list Z;
  ua_dropout : Q;
  ua_channel_mult : list Q;
  ua_num_classes : option Z;
  ua_use_checkpoint : bool;
  ua_num_heads : Z;
  ua_num_head_channels : Z;
  ua_num_heads_upsample : Z;
  ua_use_scale_shift_norm : bool;
  ua_resblock_updown : bool;
  ua_use_new_attention_order : bool
}.

(** [UNetModel(..., condition=False)] and
    [UNetModelCondition(..., condition_dim=..., condition=True)]. *)
Inductive ImgModel : Type :=
| UNetModel (args : UNetArgs) (condition : bool)
| UNetModelCondition (args : UNetArgs) (condition_dim : Z) (condition : bool).

Section Model.

(** The builtin [int] on a string; [None] stands for its [ValueError]. *)
Variable int : string -> option Z.

Definition int_of (s : string) : result Z :=
  match int s with
  | Some z => Ok z
  | None => Raise ValueError
  end.

(** Lines 58-70. *)
Definition channel_mult_of (cfg : ImgModelCfg) : result (list Q) :=
  if String.eqb cfg.(im_channel_mult) ""
  then
    if cfg.(im_image_size) =? 512 then Ok [1 # 2; 1; 1; 2; 2; 4; 4]%Q
    else if cfg.(im_image_size) =? 256 then Ok [1; 1; 2; 2; 4; 4]%Q
    else if cfg.(im_image_size) =? 128 then Ok [1; 1; 2; 3; 4]%Q
    else if cfg.(im_image_size) =? 64 then Ok [1; 2; 3; 4]%Q
    else raise_stmt (ExceptionClass ValueError)
  else
    mapM (fun ch_mult => z <- int_of ch_mult ;; Ok (inject_Z z))
         (str_split ","%char cfg.(im_channel_mult)).

(** Lines 72-74: [cfg.image_size // int(res)] for each piece. *)
Definition attention_ds_of (cfg : ImgModelCfg) : result (list Z) :=
  mapM (fun res =>
          r <- int_of res ;;
          if r =? 0 then Raise ZeroDivisionError
          else Ok (cfg.(im_image_size) / r))
       (str_split ","%char cfg.(im_attention_resolutions)).

Definition unet_args (cfg : ImgModelCfg) (channel_mult : list Q)
  (attention_ds : list Z) : UNetArgs :=
  {| ua_image_size := cfg.(im_image_size);
     ua_in_channels := cfg.(im_in_channels);
     ua_model_channels := cfg.(im_num_channels);
     ua_out_channels := cfg.(im_out_channels);
     ua_num_res_blocks := cfg.(im_num_res_blocks);
     ua_attention_resolutions := attention_ds;
     ua_dropout := cfg.(im_dropout);
     ua_channel_mult := channel_mult;
     ua_num_classes := if cfg.(im_class_cond) then Some NUM_CLASSES else None;
     ua_use_checkpoint := cfg.(im_use_checkpoint);
     ua_num_heads := cfg.(im_num_heads);
     ua_num_head_channels := cfg.(im_num_head_channels);
     ua_num_heads_upsample := cfg.(im_num_heads_upsample);
     ua_use_scale_shift_norm := cfg.(im_use_scale_shift_norm);
     ua_resblock_updown := cfg.(im_resblock_updown);
     ua_use_new_attention_order := cfg.(im_use_new_attention_order) |}.

(** Lines 57-117. *)
Definition create_model (cfg : ImgModelCfg) : result ImgModel :=
  channel_mult <- channel_mult_of cfg ;;
  attention_ds <- attention_ds_of cfg ;;
  if String.eqb cfg.(im_arch) "UNet"
  then Ok (UNetModel (unet_args cfg channel_mult attention_ds) false)
  else if String.eqb cfg.(im_arch) "UNetCond"
  then Ok (UNetModelCondition (unet_args cfg channel_mult attention_ds)
             cfg.(im_condition_dim) true)
  else raise_stmt (ExceptionClass NotImplementedError).

End Model.

(** [cfg] of the three pipelines: the sub-configurations they hand on. *)
Record PipelineCfg : Type := {
  img_model : ImgModelCfg;
  param_model : ParamModelCfg;
  diffusion : DiffusionCfg
}.

Section Pipeline.

Context {Betas Timesteps : Type}.
Variable get_named_beta_schedule : string -> Z -> result Betas.
Variable space_timesteps : Z -> list Z -> result Timesteps.
Variable int : string -> option Z.

(** Lines 11-15. *)
Definition create_img_deca_and_diffusion (cfg : PipelineCfg)
  : result (ImgModel * ParamModel * SpacedDiffusion Betas Timesteps) :=
  img_model <- create_model int cfg.(img_model) ;;
  params_model <- create_param_model cfg.(param_model) ;;
  diffusion <-
    create_gaussian_diffusion get_named_beta_schedule space_timesteps
      cfg.(diffusion) ;;
  Ok (img_model, params_model, diffusion).

(** Lines 17-20. *)
Definition create_deca_and_diffusion (cfg : PipelineCfg)
  : result (ParamModel * SpacedDiffusion Betas Timesteps) :=
  param_model <- create_param_model cfg.(param_model) ;;
  diffusion <-
    create_gaussian_diffusion get_named_beta_schedule space_timesteps
      cfg.(diffusion) ;;
  Ok (param_model, diffusion).

(** Lines 22-25. *)
Definition create_img_and_diffusion (cfg : PipelineCfg)
  : result (ImgModel * SpacedDiffusion Betas Timesteps) :=
  img_model <- create_model int cfg.(img_model) ;;
  diffusion <-
    create_gaussian_diffusion get_named_beta_schedule space_timesteps
      cfg.(diffusion) ;;
  Ok (img_model, diffusion).

End Pipeline.

(** The two exceptions of the argument helpers, and a call that returns or
    raises one of them. *)
Inductive util_exn : Type := ArgumentTypeError | AttributeError.

Inductive answer (A : Type) : Type :=
| Returned (a : A)
| Raised (e : util_exn).

Arguments Returned {A} a.
Arguments Raised {A} e.

(** The argument of [str2bool]: a bool, or the string argparse hands over. *)
Inductive flag_value : Type :=
| FlagBool (b : bool)
| FlagStr (s : string).

(** Lines 161-172. *)
Definition str2bool (v : flag_value) : answer bool :=
  match v with
  | FlagBool b => Returned b
  | FlagStr s =>
      if str_in (str_lower s) ["yes"; "true"; "t"; "y"; "1"] then Returned true
      else if str_in (str_lower s) ["no"; "false"; "f"; "n"; "0"] then Returned false
      else Raised ArgumentTypeError
  end.

(** [getattr(args, k)] on a namespace, kept as the list of its attributes
    with their values. *)
Fixpoint getattr {V : Type} (args : list (string * V)) (k : string) : answer V :=
  match args with
  | [] => Raised AttributeError
  | (name, v) :: args' => if String.eqb name k then Returned v else getattr args' k
  end.

(** [d[k] = v] on the dict a comprehension builds. *)
Fixpoint setitem {V : Type} (d : list (string * V)) (k : string) (v : V)
  : list (string * V) :=
  match d with
  | [] => [(k, v)]
  | (k', v') :: d' =>
      if String.eqb k' k then (k', v) :: d' else (k', v') :: setitem d' k v
  end.

(** Lines 158-159: the comprehension, with the dict built so far. *)
Fixpoint args_to_dict_from {V : Type} (d : list (string * V))
  (args : list (string * V)) (keys : list string) : answer (list (string * V)) :=
  match keys with
  | [] => Returned d
  | k :: keys' =>
      match getattr args k with
      | Returned v => args_to_dict_from (setitem d k v) args keys'
      | Raised e => Raised e
      end
  end.

Definition args_to_dict {V : Type} (args : list (string * V)) (keys : list string)
  : answer (list (string * V)) :=
  args_to_dict_from [] args keys.

End ScriptUtil.

(** ** dataloader/deca_datasets.py *)

Module DecaDatasets.

(** A 1-D float array and a 2-D one as its list of rows.  Every 2-D array
    the file builds has at least one row ([np.stack] of a non-empty list,
    or [x[None, :]]), so the row length is the second dimension. *)
Definition vec : Type := list Q.
Definition ndarray2 : Type := list vec.

Fixpoint zip_with (f : Q -> Q -> Q) (x y : vec) : vec :=
  match x, y with
  | a :: x', b :: y' => f a b :: zip_with f x' y'
  | _, _ => []
  end.

(** An elementwise operation on two 1-D arrays under numpy's broadcasting:
    equal lengths pair up, a length-1 operand is stretched, anything else is
    a [ValueError]. *)
Definition broadcast (f : Q -> Q -> Q) (x y : vec) : result vec :=
  if Nat.eqb (List.length x) (List.length y) then Ok (zip_with f x y)
  else match x, y with
       | [a], _ => Ok (map (f a) y)
       | _, [b] => Ok (map (fun a => f a b) x)
       | _, _ => Raise ValueError
       end.

(** A 2-D array against a 1-D one: the 1-D operand meets every row. *)
Definition broadcast_rows (f : Q -> Q -> Q) (arr : ndarray2) (v : vec)
  : result ndarray2 :=
  mapM (fun row => broadcast f row v) arr.

(** A 2-D array against a Python scalar. *)
Definition with_scalar (f : Q -> Q) (arr : ndarray2) : ndarray2 :=
  map (map f) arr.

(** An operand of array arithmetic that may be [None]. *)
Definition operand (v : option vec) : result vec :=
  match v with
  | Some a => Ok a
  | None => Raise TypeError
  end.

(** [np.max(arr, axis=0)] and [np.min(arr, axis=0)]: a reduction over the
    rows, refused for an array with no row. *)
Definition reduce_axis0 (f : Q -> Q -> Q) (arr : ndarray2) : result vec :=
  match arr with
  | [] => Raise ValueError
  | r :: rs => Ok (fold_left (zip_with f) rs r)
  end.

(** Lines 38-51. *)
Definition normalize (arr : ndarray2) (min_val max_val : option vec) (a b : Q)
  : result (ndarray2 * vec * vec) :=
  ' (min_val, max_val) <-
      match max_val, min_val with
      | None, None =>
          mx <- reduce_axis0 Qmax arr ;;
          mn <- reduce_axis0 Qmin arr ;;
          Ok (Some mn, Some mx)
      | _, _ => Ok (min_val, max_val)
      end ;;
  mn <- operand min_val ;;
  centred <- broadcast_rows Qminus arr mn ;;
  let scaled := with_scalar (Qmult (b - a)) centred in
  mx <- operand max_val ;;
  width <- broadcast Qminus mx mn ;;
  ratio <- broadcast_rows Qdiv scaled width ;;
  Ok (with_scalar (fun q => q + a)%Q ratio, mn, mx).

(** Lines 53-55. *)
Definition denormalize (arr_norm : ndarray2) (min_val max_val : vec) (a b : Q)
  : result ndarray2 :=
  let shifted := with_scalar (fun q => q - a)%Q arr_norm in
  width <- broadcast Qminus max_val min_val ;;
  scaled <- broadcast_rows Qmult shifted width ;;
  let ratio := with_scalar (fun q => q / (b - a))%Q scaled in
  broadcast_rows Qplus ratio min_val.

(** A Python [dict] with string keys, in insertion order. *)
Definition dict (V : Type) : Type := list (string * V).

Fixpoint dict_get {V : Type} (d : dict V) (k : string) : option V :=
  match d with
  | [] => None
  | (k', v) :: d' => if String.eqb k' k then Some v else dict_get d' k
  end.

(** [d[k] = v]: an existing key keeps its place, a new one goes last. *)
Fixpoint dict_set {V : Type} (d : dict V) (k : string) (v : V) : dict V :=
  match d with
  | [] => [(k, v)]
  | (k', v') :: d' =>
      if String.eqb k' k then (k', v) :: d' else (k', v') :: dict_set d' k v
  end.

(** [d[k]] on a plain dict. *)
Definition dict_getitem {V : Type} (d : dict V) (k : string) : result V :=
  match dict_get d k with
  | Some v => Ok v
  | None => Raise KeyError
  end.

(** What the inner dicts hold: parameter arrays and, under
    ['uv_detail_normals'], a path. *)
Inductive value : Type :=
| Arr (a : vec)
| Path (p : string).

Definition entry : Type := dict value.

(** [d[k]] on a [defaultdict(dict)]: a missing key yields a fresh [{}]. *)
Definition default_get (d : dict entry) (k : string) : entry :=
  match dict_get d k with
  | Some e => e
  | None => []
  end.

(** [d[k1][k2] = v] on a [defaultdict(dict)]. *)
Definition set_inner (d : dict entry) (k1 k2 : string) (v : value) : dict entry :=
  dict_set d k1 (dict_set (default_get d k1) k2 v).

Definition as_array (v : value) : result vec :=
  match v with
  | Arr a => Ok a
  | Path _ => Raise ValueError
  end.

(** The directory [deca_dir] as [load_deca_params] reads it: for a key [k],
    what [read_params] returns on each path of
    [glob(f"{deca_dir}/params/train/*{k}-anno.txt")], in the order of the
    glob; and the paths of [glob(f'{deca_dir}/uv_detail_normals/train/*.png')]. *)
Record deca_dir : Type := {
  params_train : string -> list (dict (list Q));
  uv_detail_normals_train : list string
}.

Definition params_key : list string := ["shape"; "pose"; "exp"; "cam"].

(** Lines 63-70: the last file read for a key wins. *)
Definition read_all (d : deca_dir) : dict (dict (list Q)) :=
  fold_left
    (fun deca_params k =>
       fold_left (fun acc table => dict_set acc k table)
         (d.(params_train) k) deca_params)
    params_key [].

(** Lines 30-36. *)
Definition swap_key (params : dict (dict (list Q))) : dict entry :=
  fold_left
    (fun params_s (item : string * dict (list Q)) =>
       let (params_name, v) := item in
       fold_left
         (fun acc (img : string * list Q) =>
            let (img_name, params_value) := img in
            set_inner acc img_name params_name (Arr params_value))
         v params_s)
    params [].

(** Lines 77-80 for one image: the four lookups, then [np.concatenate]. *)
Definition concat_params (e : entry) : result vec :=
  each_img <- mapM (dict_getitem e) params_key ;;
  arrays <- mapM as_array each_img ;;
  Ok (List.concat arrays).

(** [np.stack]: at least one array, all of one shape. *)
Definition np_stack (rows : list vec) : result ndarray2 :=
  match rows with
  | [] => Raise ValueError
  | r :: rs =>
      if forallb (fun r' => Nat.eqb (List.length r') (List.length r)) rs
      then Ok rows
      else Raise ValueError
  end.

(** Lines 75-81: [all_params]. *)
Definition stacked_params (d : deca_dir) : result ndarray2 :=
  rows <- mapM (fun item : string * entry => concat_params (snd item))
            (swap_key (read_all d)) ;;
  np_stack rows.

(** Lines 88-89: the image name a uv-detail-normals path stands for. *)
Definition uv_image_name (path : string) : string :=
  let img_name := last_piece (str_split "_"%char (last_piece (str_split "/"%char path))) in
  str_replace ".png" ".jpg" img_name.

(** Lines 58-92. *)
Definition load_deca_params (d : deca_dir) (bound : Q) : result (dict entry) :=
  let deca_params := swap_key (read_all d) in
  all_params <- stacked_params d ;;
  ' (_, min_val, max_val) <- normalize all_params None None (- bound)%Q bound ;;
  let deca_params :=
    dict_set deca_params "normalize"
      [("min_val", Arr min_val); ("max_val", Arr max_val)] in
  Ok (fold_left
        (fun acc path => set_inner acc (uv_image_name path) "uv_detail_normals" (Path path))
        d.(uv_detail_normals_train) deca_params).

(** A 3-D array: its shape and its entries (read only inside the shape). *)
Record ndarray3 (A : Type) : Type := {
  dim0 : nat;
  dim1 : nat;
  dim2 : nat;
  item : nat -> nat -> nat -> A
}.

Arguments dim0 {A} _.
Arguments dim1 {A} _.
Arguments dim2 {A} _.
Arguments item {A} _ _ _ _.

Definition in_shape {A : Type} (arr : ndarray3 A) (i j k : nat) : Prop :=
  (i < dim0 arr)%nat /\ (j < dim1 arr)%nat /\ (k < dim2 arr)%nat.

(** [arr[:, ::-1]]: the second axis reversed. *)
Definition flip {A : Type} (arr : ndarray3 A) : ndarray3 A :=
  {| dim0 := dim0 arr; dim1 := dim1 arr; dim2 := dim2 arr;
     item := fun i j k => item arr i (dim1 arr - 1 - j)%nat k |}.

(** The value of a [uint8] pixel. *)
Definition pixel (p : byte) : Q := inject_Z (Z.of_N (Byte.to_N p)).

(** [(arr / 127.5) - 1] on a [uint8] array. *)
Definition to_unit_range (arr : ndarray3 byte) : ndarray3 Q :=
  {| dim0 := dim0 arr; dim1 := dim1 arr; dim2 := dim2 arr;
     item := fun i j k => (pixel (item arr i j k) / (255 # 2) - 1)%Q |}.

(** [np.concatenate((x, y), axis=2)]. *)
Definition concatenate_axis2 {A : Type} (x y : ndarray3 A) : result (ndarray3 A) :=
  if Nat.eqb (dim0 x) (dim0 y) && Nat.eqb (dim1 x) (dim1 y)
  then Ok {| dim0 := dim0 x; dim1 := dim1 x; dim2 := (dim2 x + dim2 y)%nat;
             item := fun i j k =>
                       if Nat.ltb k (dim2 x) then item x i j k
                       else item y i j (k - dim2 x)%nat |}
  else Raise ValueError.

(** [np.transpose(arr, [2, 0, 1])]. *)
Definition transpose_2_0_1 {A : Type} (arr : ndarray3 A) : ndarray3 A :=
  {| dim0 := dim2 arr; dim1 := dim0 arr; dim2 := dim1 arr;
     item := fun c h w => item arr h w c |}.

(** The attributes of a [DECADataset]. *)
Record DECADataset : Type := {
  deca_params : dict entry;
  local_images : list string;
  bound : Q;
  in_image : string;
  resolution : Z;
  resize_mode : string;
  augment_mode : option string;
  use_detector : bool
}.

Section Dataset.

(** What the methods use from outside the file: a loaded RGB image (lines
    193-196 and 211-214: open, load, convert), the three helpers of
    [img_util], each returning an H x W x 3 [uint8] array, and the state of
    the [random] module, which [random_crop_arr] and [random.random] draw
    from. *)
Variable Image : Type.
Variable Rng : Type.
Variable open_rgb : string -> result Image.
Variable random_crop_arr : Image -> Z -> Rng -> ndarray3 byte * Rng.
Variable center_crop_arr : Image -> Z -> ndarray3 byte.
Variable resize_arr : Image -> Z -> ndarray3 byte.
Variable random_random : Rng -> Q * Rng.

(** A method run: the outcome and the state of [random] it leaves. *)
Definition run (A : Type) : Type := Rng -> result A * Rng.

Definition ret {A : Type} (a : A) : run A := fun rng => (Ok a, rng).

Definition lift {A : Type} (r : result A) : run A := fun rng => (r, rng).

Definition bind_run {A B : Type} (c : run A) (k : A -> run B) : run B :=
  fun rng =>
    match c rng with
    | (Ok a, rng') => k a rng'
    | (Raise e, rng') => (Raise e, rng')
    end.

Definition mode_is (mode : option string) (s : string) : bool :=
  match mode with
  | Some m => String.eqb m s
  | None => false
  end.

Definition is_None (mode : option string) : bool :=
  match mode with
  | Some _ => false
  | None => true
  end.

(** Lines 231-237. *)
Definition resized (self : DECADataset) (pil_image : Image) : run (ndarray3 byte) :=
  if String.eqb self.(resize_mode) "random_crop"
  then fun rng =>
         let (arr, rng') := random_crop_arr pil_image self.(resolution) rng in
         (Ok arr, rng')
  else if String.eqb self.(resize_mode) "center_crop"
  then ret (center_crop_arr pil_image self.(resolution))
  else if String.eqb self.(resize_mode) "resize"
  then ret (resize_arr pil_image self.(resolution))
  else lift (raise_stmt NotImplementedConstant).

(** Lines 240-246: [random.random()] is drawn only when the mode is
    ['random_flip']. *)
Definition flipped (self : DECADataset) (arr : ndarray3 byte) : run (ndarray3 byte) :=
  fun rng =>
    let (drawn_below_half, rng') :=
      if mode_is self.(augment_mode) "random_flip"
      then let (u, r) := random_random rng in (negb (Qle_bool (1 # 2) u), r)
      else (false, rng) in
    if drawn_below_half then (Ok (flip arr), rng')
    else if mode_is self.(augment_mode) "flip" then (Ok (flip arr), rng')
    else if is_None self.(augment_mode) then (Ok arr, rng')
    else (raise_stmt NotImplementedConstant, rng').

(** Lines 229-248. *)
Definition augmentation (self : DECADataset) (pil_image : Image) : run (ndarray3 byte) :=
  bind_run (resized self pil_image) (flipped self).

Definition as_stat (v : value) : result (option vec) :=
  match v with
  | Arr a => Ok (Some a)
  | Path _ => Raise TypeError
  end.

Definition as_path (v : value) : result string :=
  match v with
  | Path p => Ok p
  | Arr _ => Raise TypeError
  end.

(** Lines 200-208: [out_dict["deca_params"]]. *)
Definition conditioning (self : DECADataset) (img_name : string) : result vec :=
  params <- concat_params (default_get self.(deca_params) img_name) ;;
  let stats := default_get self.(deca_params) "normalize" in
  min_val <- dict_getitem stats "min_val" ;;
  max_val <- dict_getitem stats "max_val" ;;
  min_val <- as_stat min_val ;;
  max_val <- as_stat max_val ;;
  ' (params_norm, _, _) <-
      normalize [params] min_val max_val (- self.(bound))%Q self.(bound) ;;
  list_index params_norm 0.

(** Lines 191-217: everything [__getitem__] computes before it composes the
    model input. *)
Definition getitem_inputs (self : DECADataset) (idx : Z)
  : run (vec * ndarray3 Q * ndarray3 Q) :=
  bind_run (lift (list_index self.(local_images) idx)) (fun path =>
  bind_run (lift (open_rgb path)) (fun pil_image =>
  bind_run (augmentation self pil_image) (fun raw_img =>
  let raw_img := to_unit_range raw_img in
  let img_name := last_piece (str_split "/"%char path) in
  bind_run (lift (conditioning self img_name)) (fun cond =>
  bind_run (lift (dict_getitem (default_get self.(deca_params) img_name)
                    "uv_detail_normals")) (fun uvdn_path =>
  bind_run (lift (as_path uvdn_path)) (fun uvdn_path =>
  bind_run (lift (open_rgb uvdn_path)) (fun pil_image =>
  bind_run (augmentation self pil_image) (fun uvdn =>
  ret (cond, raw_img, to_unit_range uvdn))))))))).

(** Lines 219-224. *)
Definition input_to_model (self : DECADataset) (raw_img uvdn : ndarray3 Q)
  : result (ndarray3 Q) :=
  if String.eqb self.(in_image) "raw" then Ok raw_img
  else if String.eqb self.(in_image) "raw+uvdn" then concatenate_axis2 raw_img uvdn
  else raise_stmt (ExceptionClass NotImplementedError).

(** Lines 190-227: the pair returned is the conditioning vector and the
    array under ['image']. *)
Definition __getitem__ (self : DECADataset) (idx : Z) : run (vec * ndarray3 Q) :=
  bind_run (getitem_inputs self idx) (fun inputs =>
  let '(cond, raw_img, uvdn) := inputs in
  bind_run (lift (input_to_model self raw_img uvdn)) (fun arr =>
  ret (cond, transpose_2_0_1 arr))).

End Dataset.

(** What [bf.listdir] and [bf.isdir] see under a directory: a file, or a
    directory with its entries by name, in the order [listdir] yields
    them. *)
#[warnings="-register-all"]
Inductive node : Type :=
| File
| Dir (entries : list (string * node)).

Definition is_dir (n : node) : bool :=
  match n with
  | File => false
  | Dir _ => true
  end.

(** Lines 98-99: the test on an entry's name. *)
Definition is_image_entry (entry : string) : bool :=
  let ext := last_piece (str_split "."%char entry) in
  str_contains "."%char entry
  && str_in (str_lower ext) ["jpg"; "jpeg"; "png"; "gif"].

Section Listing.

(** [bf.join]. *)
Variable join : string -> string -> string.

(** Lines 99-102 for one entry of the sorted listing, given whether it is
    a directory and what the recursive call on it returns. *)
Definition entry_results (data_dir : string)
  (listed : string * (bool * list string)) : list string :=
  let (entry, below) := listed in
  if is_image_entry entry then [join data_dir entry]
  else if fst below then snd below
  else [].

(** Lines 94-103 on a directory.  The recursive calls have no effect, so
    they are made entry by entry before the listing is sorted; the loop
    then keeps, in sorted order, the result of the branch each entry
    takes. *)
Fixpoint image_files_below (data_dir : string) (n : node) {struct n}
  : list string :=
  match n with
  | File => []
  | Dir entries =>
      let listed :=
        map (fun ec : string * node =>
               let (entry, child) := ec in
               (entry, (is_dir child,
                        image_files_below (join data_dir entry) child)))
            entries in
      flat_map (entry_results data_dir) (sorted_by_name listed)
  end.

(** Lines 94-103: [bf.listdir] raises on a path that is no directory. *)
Definition _list_image_files_recursively (data_dir : string) (n : node)
  : result (list string) :=
  match n with
  | File => Raise OSError
  | Dir _ => Ok (image_files_below data_dir n)
  end.

(** The two directories [load_data_deca] reads. *)
Record disk : Type := {
  at_deca_dir : deca_dir;
  at_data_dir : node
}.

(** The object that [DataLoader(deca_dataset, batch_size=..., shuffle=...,
    num_workers=24, drop_last=True)] returns, kept as the arguments it was
    built from. *)
Record DataLoader : Type := {
  dataset : DECADataset;
  batch_size : Z;
  shuffle : bool;
  num_workers : Z;
  drop_last : bool
}.

(** [torch.utils.data.DataLoader] is not among the sources.  Its
    constructor checks its arguments (the batch size, for one) and raises
    on those it refuses: the exception it raises on a data set, a batch
    size, [shuffle], [num_workers] and [drop_last], if any. *)
Variable DataLoader_refuses : DECADataset -> Z -> bool -> Z -> bool -> option exn.

(** Lines 155-161: one of the two constructor calls. *)
Definition new_DataLoader (deca_dataset : DECADataset) (batch_size : Z)
  (shuffle : bool) : result DataLoader :=
  match DataLoader_refuses deca_dataset batch_size shuffle 24 true with
  | Some e => Raise e
  | None =>
      Ok {| dataset := deca_dataset; batch_size := batch_size;
            shuffle := shuffle; num_workers := 24; drop_last := true |}
  end.

(** Lines 105-163.  The defaults of the keyword arguments are
    [deterministic=False], [resize_mode="resize"], [augment_mode=None],
    [use_detector=False], [in_image="raw"]. *)
Definition load_data_deca (fs : disk) (data_dir deca_dir : string)
  (batch_size : Z) (bound : Q) (image_size : Z) (deterministic : bool)
  (resize_mode : string) (augment_mode : option string) (use_detector : bool)
  (in_image : string) : result DataLoader :=
  if not_str deca_dir then raise_stmt (ExceptionClass ValueError)
  else
    deca_params <- load_deca_params fs.(at_deca_dir) bound ;;
    image_paths <- _list_image_files_recursively data_dir fs.(at_data_dir) ;;
    let deca_dataset :=
      {| deca_params := deca_params;
         local_images := image_paths;
         bound := bound;
         in_image := in_image;
         resolution := image_size;
         resize_mode := resize_mode;
         augment_mode := augment_mode;
         use_detector := use_detector |} in
    if deterministic
    then new_DataLoader deca_dataset batch_size false
    else new_DataLoader deca_dataset batch_size true.

End Listing.

(** Lines 187-188. *)
Definition __len__ (self : DECADataset) : Z :=
  Z.of_nat (List.length self.(local_images)).

End DecaDatasets.

(** ** dataloader/deca_datasets.py, [normalize] in binary64

    Lines 38-51 once more, with the arithmetic numpy performs: every
    subtraction, product, quotient and sum is an IEEE-754 binary64
    operation, rounded to nearest.  The numbers are the kernel's binary64
    numbers, so the function runs on concrete arrays as the code does.
    (The arrays hold no nan: [np.min] and [np.max] are then the smaller
    and the larger of two numbers.) *)

Module Float64.

Import PrimFloat.

Definition vec : Type := list float.
Definition ndarray2 : Type := list vec.

Fixpoint zip_with (f : float -> float -> float) (x y : vec) : vec :=
  match x, y with
  | a :: x', b :: y' => f a b :: zip_with f x' y'
  | _, _ => []
  end.

Definition broadcast (f : float -> float -> float) (x y : vec) : result vec :=
  if Nat.eqb (List.length x) (List.length y) then Ok (zip_with f x y)
  else match x, y with
       | [a], _ => Ok (map (f a) y)
       | _, [b] => Ok (map (fun a => f a b) x)
       | _, _ => Raise ValueError
       end.

Definition broadcast_rows (f : float -> float -> float) (arr : ndarray2) (v : vec)
  : result ndarray2 :=
  mapM (fun row => broadcast f row v) arr.

Definition with_scalar (f : float -> float) (arr : ndarray2) : ndarray2 :=
  map (map f) arr.

Definition operand (v : option vec) : result vec :=
  match v with
  | Some a => Ok a
  | None => Raise TypeError
  end.

Definition minimum (x y : float) : float := if ltb y x then y else x.

Definition maximum (x y : float) : float := if ltb x y then y else x.

Definition reduce_axis0 (f : float -> float -> float) (arr : ndarray2)
  : result vec :=
  match arr with
  | [] => Raise ValueError
  | r :: rs => Ok (fold_left (zip_with f) rs r)
  end.

(** Lines 38-51. *)
Definition normalize (arr : ndarray2) (min_val max_val : option vec) (a b : float)
  : result (ndarray2 * vec * vec) :=
  ' (min_val, max_val) <-
      match max_val, min_val with
      | None, None =>
          mx <- reduce_axis0 maximum arr ;;
          mn <- reduce_axis0 minimum arr ;;
          Ok (Some mn, Some mx)
      | _, _ => Ok (min_val, max_val)
      end ;;
  mn <- operand min_val ;;
  centred <- broadcast_rows sub arr mn ;;
  let scaled := with_scalar (mul (b - a)%float) centred in
  mx <- operand max_val ;;
  width <- broadcast sub mx mn ;;
  ratio <- broadcast_rows div scaled width ;;
  Ok (with_scalar (fun q => q + a)%float ratio, mn, mx).

End Float64.

(** ** Concrete collaborators and inputs

    Small instances of the parameters above, on which the functions are run
    on concrete configurations and data sets. *)

Module Examples.

Import ScriptUtil DecaDatasets.

(** Modelled from the spec: [gaussian_diffusion.get_named_beta_schedule] is
    not among the sources.  The schedule generator knows the names "linear"
    and "cosine" and fails with [ConfigurationError] on any other; the
    sequence of betas it returns is kept symbolic, as the name and the step
    count it is generated from. *)
Definition named_beta_schedule (schedule_name : string) (num_steps : Z)
  : result (string * Z) :=
  if String.eqb schedule_name "linear" || String.eqb schedule_name "cosine"
  then Ok (schedule_name, num_steps)
  else Raise ConfigurationError.

(** Modelled from the spec: [respace.space_timesteps] is not among the
    sources.  Only the request [create_gaussian_diffusion] can make is
    covered: one section whose count is the whole horizon, for which the
    index map is the identity; every other request is refused. *)
Definition every_step (num_timesteps : Z) (section_counts : list Z)
  : result (list Z) :=
  match section_counts with
  | [n] =>
      if (n =? num_timesteps) && (0 <? n)
      then Ok (map Z.of_nat (seq 0 (Z.to_nat n)))
      else Raise ConfigurationError
  | _ => Raise ConfigurationError
  end.

Definition diffusion_cfg (respacing : string) (kl rescale : bool) : DiffusionCfg :=
  {| noise_schedule := "linear";
     diffusion_steps := 4;
     use_kl := kl;
     rescale_learned_sigmas := rescale;
     timestep_respacing := respacing;
     predict_xstart := false;
     sigma_small := true;
     learn_sigma := false;
     rescale_timesteps := true |}.

Definition digit_of (c : ascii) : option Z :=
  let n := Z.of_nat (nat_of_ascii c) in
  if (48 <=? n) && (n <=? 57) then Some (n - 48) else None.

Fixpoint digits (s : string) (acc : Z) : option Z :=
  match s with
  | EmptyString => Some acc
  | String c s' =>
      match digit_of c with
      | Some d => digits s' (10 * acc + d)
      | None => None
      end
  end.

(** [int] on the strings of unsigned decimal digits, and on those only:
    this instance refuses every other string, also the signed, padded or
    underscored numerals that Python's [int] reads.  It is run on digit
    strings, on the empty string and on letters. *)
Definition int_decimal (s : string) : option Z :=
  match s with
  | EmptyString => None
  | _ => digits s 0
  end.

Definition param_cfg (deca_cond : bool) (arch : string) : ParamModelCfg :=
  {| pm_deca_cond := deca_cond;
     pm_arch := arch;
     pm_in_channels := 159;
     pm_out_channels := 159;
     pm_model_channels := 2048;
     pm_num_layers := 3;
     pm_use_checkpoint := false;
     pm_use_scale_shift_norm := true |}.

Definition img_cfg (channel_mult : string) (image_size : Z) (arch : string)
  : ImgModelCfg :=
  {| im_channel_mult := channel_mult;
     im_image_size := image_size;
     im_attention_resolutions := "16,8";
     im_arch := arch;
     im_in_channels := 3;
     im_num_channels := 128;
     im_out_channels := 3;
     im_num_res_blocks := 2;
     im_dropout := 0%Q;
     im_class_cond := false;
     im_use_checkpoint := false;
     im_num_heads := 4;
     im_num_head_channels := -1;
     im_num_heads_upsample := -1;
     im_use_scale_shift_norm := true;
     im_resblock_updown := true;
     im_use_new_attention_order := false;
     im_condition_dim := 159 |}.

(** A directory with two images: one annotation file per key, and one
    uv-detail-normals picture per image. *)
Definition deca : deca_dir :=
  {| params_train := fun k =>
       if String.eqb k "shape" then [[("0.jpg", [0; 4]%Q); ("1.jpg", [2; 1]%Q)]]
       else if String.eqb k "pose" then [[("0.jpg", [1]%Q); ("1.jpg", [3]%Q)]]
       else if String.eqb k "exp" then [[("0.jpg", [5]%Q); ("1.jpg", [-5]%Q)]]
       else if String.eqb k "cam" then [[("0.jpg", [0]%Q); ("1.jpg", [10]%Q)]]
       else [];
     uv_detail_normals_train :=
       ["deca/uv_detail_normals/train/uvdn_0.png";
        "deca/uv_detail_normals/train/uvdn_1.png"] |}.

(** The dict [load_deca_params] returns for that directory and [bound = 1]. *)
Definition deca_loaded : dict entry :=
  match load_deca_params deca 1 with
  | Ok deca_params => deca_params
  | Raise _ => []
  end.

(** Loaded pictures are kept as the arrays the helpers return for them:
    one row of two pixels, three channels. *)
Definition picture (left right : byte) : ndarray3 byte :=
  {| dim0 := 1; dim1 := 2; dim2 := 3;
     item := fun _ j _ => if Nat.eqb j 0 then left else right |}.

Definition open_picture (path : string) : result (ndarray3 byte) :=
  if String.eqb path "data/0.jpg" then Ok (picture x00 xff)
  else if String.eqb path "data/1.jpg" then Ok (picture x80 x40)
  else if String.eqb path "deca/uv_detail_normals/train/uvdn_0.png"
  then Ok (picture x10 x20)
  else if String.eqb path "deca/uv_detail_normals/train/uvdn_1.png"
  then Ok (picture x30 x40)
  else Raise OSError.

(** The state of [random] is the number of draws made so far; the draws
    alternate between 1/4 and 3/4. *)
Definition draw (n : nat) : Q * nat :=
  (if Nat.even n then 1 # 4 else 3 # 4, S n).

Definition crop_at_random (img : ndarray3 byte) (resolution : Z) (n : nat)
  : ndarray3 byte * nat :=
  (img, S n).

Definition as_is (img : ndarray3 byte) (resolution : Z) : ndarray3 byte := img.

Definition dataset (resize : string) (augment : option string) (input : string)
  : DECADataset :=
  {| deca_params := deca_loaded;
     local_images := ["data/0.jpg"; "data/1.jpg"];
     bound := 1;
     in_image := input;
     resolution := 2;
     resize_mode := resize;
     augment_mode := augment;
     use_detector := false |}.

Definition getitem_example (self : DECADataset) (idx : Z)
  : nat -> result (vec * ndarray3 Q) * nat :=
  __getitem__ (ndarray3 byte) nat open_picture crop_at_random as_is as_is draw
    self idx.

Definition augmentation_example (self : DECADataset) (img : ndarray3 byte)
  : nat -> result (ndarray3 byte) * nat :=
  augmentation (ndarray3 byte) nat crop_at_random as_is as_is draw self img.

Definition pipeline_cfg (arch respacing : string) : PipelineCfg :=
  {| img_model := img_cfg "" 64 arch;
     param_model := param_cfg false "autoenc";
     diffusion := diffusion_cfg respacing false false |}.

(** [bf.join] of a directory path that does not end in a slash and the
    name of one of its entries. *)
Definition path_join (data_dir entry : string) : string :=
  (data_dir ++ "/" ++ entry)%string.

(** A data directory with pictures, other files, a directory of pictures
    and a directory whose own name looks like a picture's. *)
Definition data : node :=
  Dir [("b.PNG", File);
       ("readme.txt", File);
       ("sub", Dir [("2.jpeg", File); ("notes", File)]);
       ("a.jpg", File);
       ("x.gif", Dir [("hidden.png", File)]);
       ("jpg", File)].

(** A small tree, and the same tree with the entries of both directories
    in another order. *)
Definition tree : node :=
  Dir [("b.png", File);
       ("sub", Dir [("2.jpg", File); ("1.jpg", File)]);
       ("a.jpg", File)].

Definition tree_relisted : node :=
  Dir [("a.jpg", File);
       ("b.png", File);
       ("sub", Dir [("1.jpg", File); ("2.jpg", File)])].

(** The directory [deca] with a cam file that names the first image only. *)
Definition deca_incomplete : deca_dir :=
  {| params_train := fun k =>
       if String.eqb k "cam" then [[("0.jpg", [0]%Q)]] else params_train deca k;
     uv_detail_normals_train := uv_detail_normals_train deca |}.

(** A directory where no glob finds a file. *)
Definition deca_empty : deca_dir :=
  {| params_train := fun _ => []; uv_detail_normals_train := [] |}.

(** The directory [deca] without its uv-detail-normals pictures, and a data
    set on it that reads the pictures in mode 'raw'. *)
Definition deca_no_pictures : deca_dir :=
  {| params_train := params_train deca; uv_detail_normals_train := [] |}.

Definition dataset_no_pictures : DECADataset :=
  {| deca_params :=
       match load_deca_params deca_no_pictures 1 with
       | Ok deca_params => deca_params
       | Raise _ => []
       end;
     local_images := ["data/0.jpg"; "data/1.jpg"];
     bound := 1;
     in_image := "raw";
     resolution := 2;
     resize_mode := "resize";
     augment_mode := None;
     use_detector := false |}.

(** A data directory with the two annotated pictures, and one with a
    picture that no annotation file names. *)
Definition disk_two : disk :=
  {| at_deca_dir := deca;
     at_data_dir := Dir [("1.jpg", File); ("0.jpg", File); ("list.txt", File)] |}.

Definition disk_extra : disk :=
  {| at_deca_dir := deca;
     at_data_dir := Dir [("0.jpg", File); ("9.jpg", File)] |}.

(** A reader for which every path is a picture. *)
Definition open_any (path : string) : result (ndarray3 byte) :=
  Ok (picture x00 xff).

(** An image-model configuration with the given [attention_resolutions]
    and [channel_mult] strings, for images of size 64. *)
Definition img_cfg_with (attention_resolutions channel_mult : string) : ImgModelCfg :=
  {| im_channel_mult := channel_mult;
     im_image_size := 64;
     im_attention_resolutions := attention_resolutions;
     im_arch := "UNetCond";
     im_in_channels := 3;
     im_num_channels := 128;
     im_out_channels := 3;
     im_num_res_blocks := 2;
     im_dropout := 0%Q;
     im_class_cond := true;
     im_use_checkpoint := false;
     im_num_heads := 4;
     im_num_head_channels := -1;
     im_num_heads_upsample := -1;
     im_use_scale_shift_norm := true;
     im_resblock_updown := true;
     im_use_new_attention_order := false;
     im_condition_dim := 159 |}.

(** A directory of files only. *)
Definition flat : list (string * node) :=
  [("c.png", File); ("notes.txt", File); ("a.JPG", File); ("b.gif", File)].

(** A constructor that refuses a batch size that is not positive, as the
    library's does, and data sets and flags of no kind. *)
Definition refuses_batch_size (deca_dataset : DECADataset) (batch_size : Z)
  (shuffle : bool) (num_workers : Z) (drop_last : bool) : option exn :=
  if batch_size <=? 0 then Some ValueError else None.

(** A data set that was not built by [load_data_deca]: the statistics of
    its dict have three coordinates, the parameters of its image one. *)
Definition dataset_odd_statistics : DECADataset :=
  {| deca_params :=
       [("0.jpg",
         [("shape", Arr [5]%Q); ("pose", Arr []); ("exp", Arr []); ("cam", Arr []);
          ("uv_detail_normals", Path "deca/uv_detail_normals/train/uvdn_0.png")]);
        ("normalize",
         [("min_val", Arr [0; 0; 0]%Q); ("max_val", Arr [10; 10; 20]%Q)])];
     local_images := ["data/0.jpg"];
     bound := 1;
     in_image := "raw";
     resolution := 2;
     resize_mode := "resize";
     augment_mode := None;
     use_detector := false |}.

End Examples.

(** ** Vocabulary of the statements

    Definitions the properties are stated with; none of them is code of
    the repository. *)

Module Statements.

Import ScriptUtil DecaDatasets.

(** [cfg] with its two loss flags replaced. *)
Definition with_loss_flags (cfg : DiffusionCfg) (kl rescale : bool) : DiffusionCfg :=
  {| noise_schedule := noise_schedule cfg;
     diffusion_steps := diffusion_steps cfg;
     use_kl := kl;
     rescale_learned_sigmas := rescale;
     timestep_respacing := timestep_respacing cfg;
     predict_xstart := predict_xstart cfg;
     sigma_small := sigma_small cfg;
     learn_sigma := learn_sigma cfg;
     rescale_timesteps := rescale_timesteps cfg |}.

(** The two affine maps of [normalize] and [denormalize] on one number. *)
Definition normalize1 (a b mn mx x : Q) : Q :=
  ((b - a) * (x - mn) / (mx - mn) + a)%Q.

Definition denormalize1 (a b mn mx y : Q) : Q :=
  ((y - a) * (mx - mn) / (b - a) + mn)%Q.

(** A function of a coordinate's minimum, maximum and value, along three
    arrays. *)
Fixpoint map3 (f : Q -> Q -> Q -> Q) (mn mx x : vec) : vec :=
  match mn, mx, x with
  | m :: mn', M :: mx', v :: x' => f m M v :: map3 f mn' mx' x'
  | _, _, _ => []
  end.

(** Two 2-D arrays equal as arrays of rationals. *)
Definition array_eq (x y : ndarray2) : Prop := Forall2 (Forall2 Qeq) x y.

(** Coordinate [j] of every row. *)
Definition column (j : nat) (rows : ndarray2) : list Q :=
  map (fun r => nth j r 0%Q) rows.

(** [m] is one of [xs] and stands in relation [R] to all of them. *)
Definition is_extremum (R : Q -> Q -> Prop) (m : Q) (xs : list Q) : Prop :=
  In m xs /\ Forall (R m) xs.

Definition is_min_of : Q -> list Q -> Prop := is_extremum Qle.

Definition is_max_of : Q -> list Q -> Prop := is_extremum (fun m x => x <= m)%Q.

(** [v] has the length of the rows and satisfies [P] against every column. *)
Definition columnwise (P : Q -> list Q -> Prop) (v : vec) (rows : ndarray2) : Prop :=
  Forall (fun r => List.length r = List.length v) rows /\
  forall j, (j < List.length v)%nat -> P (nth j v 0%Q) (column j rows).

(** [d[k1][k2]] when both keys are present. *)
Definition inner_get (d : dict entry) (k1 k2 : string) : option value :=
  match dict_get d k1 with
  | Some e => dict_get e k2
  | None => None
  end.

(** Two characters that are the same letter: equal, or the upper-case and
    the lower-case form of one of A-Z. *)
Definition same_letter (c d : ascii) : Prop :=
  nat_of_ascii c = nat_of_ascii d \/
  ((65 <= nat_of_ascii c <= 90)%nat /\ nat_of_ascii d = (nat_of_ascii c + 32)%nat) \/
  ((65 <= nat_of_ascii d <= 90)%nat /\ nat_of_ascii c = (nat_of_ascii d + 32)%nat).

(** Two strings that differ in the case of their letters only. *)
Inductive same_up_to_case : string -> string -> Prop :=
| same_empty : same_up_to_case EmptyString EmptyString
| same_char (c d : ascii) (s t : string) :
    same_letter c d -> same_up_to_case s t ->
    same_up_to_case (String c s) (String d t).

(** What the listing of a directory is expected to hold: the joined path
    of every entry whose name passes the image test, and, for a directory
    whose name does not, what the listing of that directory holds. *)
#[warnings="-register-all"]
Inductive lists_image (join : string -> string -> string)
  : string -> node -> string -> Prop :=
| lists_entry (data_dir : string) (entries : list (string * node))
    (entry : string) (child : node) :
    In (entry, child) entries ->
    is_image_entry entry = true ->
    lists_image join data_dir (Dir entries) (join data_dir entry)
| lists_below (data_dir : string) (entries : list (string * node))
    (entry : string) (below : list (string * node)) (path : string) :
    In (entry, Dir below) entries ->
    is_image_entry entry = false ->
    lists_image join (join data_dir entry) (Dir below) path ->
    lists_image join data_dir (Dir entries) path.

(** No directory of the tree has two entries of one name. *)
#[warnings="-register-all"]
Inductive distinct_names : node -> Prop :=
| distinct_file : distinct_names File
| distinct_dir (entries : list (string * node)) :
    NoDup (map fst entries) ->
    Forall (fun ec => distinct_names (snd ec)) entries ->
    distinct_names (Dir entries).

(** The same tree, with the entries of its directories yielded in another
    order. *)
#[warnings="-register-all"]
Inductive relisted : node -> node -> Prop :=
| relisted_file : relisted File File
| relisted_dir (entries entries' entries'' : list (string * node)) :
    Forall2 (fun ec ec' => fst ec = fst ec' /\ relisted (snd ec) (snd ec'))
      entries entries' ->
    Permutation entries' entries'' ->
    relisted (Dir entries) (Dir entries'').

(** The order [sorted] puts the entries in: by name. *)
Definition name_le {X : Type} (x y : string * X) : Prop :=
  String.leb (fst x) (fst y) = true.

(** Closes [~ In x l] and [NoDup l] on lists of string literals. *)
Ltac not_among :=
  let H := fresh "H" in
  simpl; intros H; repeat (destruct H as [H | H]; [discriminate H |]); exact H.

Ltac distinct_literals :=
  simpl; repeat (constructor; [not_among |]); constructor.

(** A list that is a dict: no key twice. *)
Definition distinct_keys {V : Type} (d : dict V) : Prop := NoDup (map fst d).

(** [params[name][img]] on the dict of tables that [swap_key] takes. *)
Definition lookup2 (params : dict (dict (list Q))) (name img : string)
  : option (list Q) :=
  match dict_get params name with
  | Some table => dict_get table img
  | None => None
  end.

(** The last element of a list: the table of the last file read. *)
Definition last_of {A : Type} (l : list A) : option A :=
  fold_left (fun _ x => Some x) l None.

(** Every table [read_params] returns is a dict. *)
Definition tables_are_dicts (d : deca_dir) : Prop :=
  forall k, Forall distinct_keys (params_train d k).

(** The last path of the listing that stands for the image [img]. *)
Definition last_picture_of (img : string) (paths : list string) : option string :=
  find (fun path => String.eqb (uv_image_name path) img) (rev paths).

(** What the last annotation file of the group [k] says of the image
    [img]: the row, or nothing. *)
Definition annotation (d : deca_dir) (k img : string) : option (list Q) :=
  match last_of (params_train d k) with
  | Some table => dict_get table img
  | None => None
  end.

(** An image that some annotation file read last names. *)
Definition annotated (d : deca_dir) (img : string) : Prop :=
  exists k, In k params_key /\ annotation d k img <> None.

(** The four rows of an image in the order shape, pose, exp, cam, one after
    the other; nothing when one of them is missing. *)
Definition row_of (d : deca_dir) (img : string) : option vec :=
  match annotation d "shape" img, annotation d "pose" img,
        annotation d "exp" img, annotation d "cam" img with
  | Some shape, Some pose, Some exp, Some cam => Some (shape ++ pose ++ exp ++ cam)
  | _, _, _, _ => None
  end.

(** A method run that leaves the state of [random] alone and whose outcome
    does not depend on it. *)
Definition draws_nothing {Rng A : Type} (c : Rng -> result A * Rng) : Prop :=
  exists outcome, forall rng, c rng = (outcome, rng).

(** The data set with another [augment_mode]. *)
Definition with_augment_mode (self : DECADataset) (mode : option string)
  : DECADataset :=
  {| deca_params := deca_params self;
     local_images := local_images self;
     bound := bound self;
     in_image := in_image self;
     resolution := resolution self;
     resize_mode := resize_mode self;
     augment_mode := mode;
     use_detector := use_detector self |}.

(** The keyword arguments a model was built with. *)
Definition unet_args_of (m : ImgModel) : UNetArgs :=
  match m with
  | UNetModel args _ => args
  | UNetModelCondition args _ _ => args
  end.

(** [cfg] with the five flags that select the enums replaced. *)
Definition with_enum_flags (cfg : DiffusionCfg)
  (xstart learn small kl rescale : bool) : DiffusionCfg :=
  {| noise_schedule := noise_schedule cfg;
     diffusion_steps := diffusion_steps cfg;
     use_kl := kl;
     rescale_learned_sigmas := rescale;
     timestep_respacing := timestep_respacing cfg;
     predict_xstart := xstart;
     sigma_small := small;
     learn_sigma := learn;
     rescale_timesteps := rescale_timesteps cfg |}.

End Statements.

(** * Properties *)

Import ScriptUtil DecaDatasets Statements.

(** ** Helper lemmas on results *)

Lemma bind_Ok_inv {A B : Type} (r : result A) (k : A -> result B) (b : B) :
  Py.bind r k = Ok b -> exists a, r = Ok a /\ k a = Ok b.
Proof.
  destruct r as [a | e]; simpl; intros H.
  - exists a. split; [reflexivity | exact H].
  - discriminate H.
Qed.

Lemma mapM_Raise_inv {A B : Type} (f : A -> result B) (xs : list A) (e : exn) :
  mapM f xs = Raise e -> exists x, In x xs /\ f x = Raise e.
Proof.
  induction xs as [| x xs IH]; simpl; intros H.
  - discriminate H.
  - destruct (f x) as [y | e'] eqn:Hx.
    + destruct (mapM f xs) as [ys | e''] eqn:Hxs.
      * discriminate H.
      * injection H as ->. destruct (IH eq_refl) as [x' [Hin Hf]].
        exists x'. split; [right; exact Hin | exact Hf].
    + injection H as ->. exists x. split; [left; reflexivity | exact Hx].
Qed.

Lemma mapM_Ok_inv {A B : Type} (f : A -> result B) (xs : list A) (ys : list B) :
  mapM f xs = Ok ys -> Forall2 (fun x y => f x = Ok y) xs ys.
Proof.
  revert ys. induction xs as [| x xs IH]; simpl; intros ys H.
  - injection H as <-. constructor.
  - destruct (f x) as [y | e] eqn:Hx; [| discriminate H].
    destruct (mapM f xs) as [ys' | e] eqn:Hxs; [| discriminate H].
    injection H as <-. constructor; [exact Hx | apply IH; reflexivity].
Qed.

Lemma not_str_true (s : string) : not_str s = true <-> s = "".
Proof.
  destruct s; simpl; split; intros H; try reflexivity; discriminate H.
Qed.

Lemma eqb_neq_false (s t : string) : s <> t -> String.eqb s t = false.
Proof. intros H. apply String.eqb_neq. exact H. Qed.

(** ** Runs of the primitives *)

Example str_split_resolutions : str_split ","%char "16,8" = ["16"; "8"].
Proof. reflexivity. Qed.

Example str_split_empty_string : str_split ","%char "" = [""].
Proof. reflexivity. Qed.

Example str_split_empty_pieces : str_split ","%char "1,,2," = ["1"; ""; "2"; ""].
Proof. reflexivity. Qed.

Example str_replace_every_occurrence :
  str_replace ".png" ".jpg" "a.png.b.png" = "a.jpg.b.jpg".
Proof. reflexivity. Qed.

Example uv_image_name_of_path :
  uv_image_name "deca/uv_detail_normals/train/uvdn_0.png" = "0.jpg".
Proof. reflexivity. Qed.

Example list_index_from_the_end : list_index ["a"; "b"; "c"] (-1) = Ok "c".
Proof. reflexivity. Qed.

Example list_index_out_of_range : list_index ["a"; "b"; "c"] 3 = Raise IndexError.
Proof. reflexivity. Qed.

Example broadcast_stretches_length_one :
  broadcast Qminus [5]%Q [1; 2]%Q = Ok [5 - 1; 5 - 2]%Q.
Proof. reflexivity. Qed.

Example broadcast_refuses_other_lengths :
  broadcast Qminus [5; 6; 7]%Q [1; 2]%Q = Raise ValueError.
Proof. reflexivity. Qed.

Example create_model_UNetCond_64 :
  exists args,
    create_model Examples.int_decimal (Examples.img_cfg "" 64 "UNetCond")
    = Ok (UNetModelCondition args 159 true) /\
    ua_channel_mult args = [1; 2; 3; 4]%Q /\
    ua_attention_resolutions args = [4; 8].
Proof. eexists. repeat split; reflexivity. Qed.

Example create_param_model_magenta :
  create_param_model (Examples.param_cfg false "magenta")
  = Ok (DenseDDPM 159 2048 3 false).
Proof. reflexivity. Qed.

Example stacked_params_missing_key :
  stacked_params
    {| params_train := fun k =>
         if String.eqb k "cam" then [] else params_train Examples.deca k;
       uv_detail_normals_train := [] |}
  = Raise KeyError.
Proof. reflexivity. Qed.

Example stacked_params_no_image :
  stacked_params {| params_train := fun _ => []; uv_detail_normals_train := [] |}
  = Raise ValueError.
Proof. reflexivity. Qed.

(** ** script_util.py: [create_gaussian_diffusion] *)

Section DiffusionFacts.

Context {Betas Timesteps : Type}.
Variable get_named_beta_schedule : string -> Z -> result Betas.
Variable space_timesteps : Z -> list Z -> result Timesteps.

Local Abbreviation build :=
  (create_gaussian_diffusion get_named_beta_schedule space_timesteps).

(** A configuration builds only with an empty respacing token, and then the
    object is the one the constructor call describes. *)
Lemma create_gaussian_diffusion_Ok_inv (cfg : DiffusionCfg)
  (d : SpacedDiffusion Betas Timesteps) :
  build cfg = Ok d ->
  timestep_respacing cfg = "" /\
  exists betas use_timesteps,
    get_named_beta_schedule (noise_schedule cfg) (diffusion_steps cfg) = Ok betas /\
    space_timesteps (diffusion_steps cfg) [diffusion_steps cfg] = Ok use_timesteps /\
    d = {| sd_use_timesteps := use_timesteps;
           sd_betas := betas;
           sd_model_mean_type := if negb (predict_xstart cfg) then EPSILON else START_X;
           sd_model_var_type :=
             if negb (learn_sigma cfg)
             then (if negb (sigma_small cfg) then FIXED_LARGE else FIXED_SMALL)
             else LEARNED_RANGE;
           sd_loss_type :=
             if use_kl cfg then RESCALED_KL
             else if rescale_learned_sigmas cfg then RESCALED_MSE else MSE;
           sd_rescale_timesteps := rescale_timesteps cfg |}.
Proof.
  unfold create_gaussian_diffusion. intros H.
  apply bind_Ok_inv in H. destruct H as [betas [Hb H]].
  destruct (not_str (timestep_respacing cfg)) eqn:Hr; simpl in H.
  - apply bind_Ok_inv in H. destruct H as [ts [Hts H]].
    injection H as <-. split.
    + apply not_str_true. exact Hr.
    + exists betas, ts. repeat split; assumption.
  - discriminate H.
Qed.

(** C1 (the code contradicts it).  With a non-empty respacing token the
    function never returns a diffusion: once the beta schedule is built, the
    read of the unassigned local [timestep_respacing] raises
    [UnboundLocalError], before [space_timesteps] or [SpacedDiffusion] is
    reached. *)
Theorem create_gaussian_diffusion_respacing_unbound (cfg : DiffusionCfg) :
  timestep_respacing cfg <> "" ->
  (forall d, create_gaussian_diffusion get_named_beta_schedule space_timesteps cfg <> Ok d) /\
  (forall betas,
      get_named_beta_schedule (noise_schedule cfg) (diffusion_steps cfg) = Ok betas ->
      create_gaussian_diffusion get_named_beta_schedule space_timesteps cfg
      = Raise UnboundLocalError).
Proof.
  intros Hne. split.
  - intros d Hd. apply create_gaussian_diffusion_Ok_inv in Hd.
    destruct Hd as [He _]. exact (Hne He).
  - intros betas Hb. unfold create_gaussian_diffusion. rewrite Hb. simpl.
    destruct (not_str (timestep_respacing cfg)) eqn:Hr.
    + apply not_str_true in Hr. contradiction.
    + reflexivity.
Qed.

(** C9.  The flags are mapped to the enum selections, every setting of
    them: a diffusion that is built carries the selections its flags fix,
    the mean type following [predict_xstart], [learn_sigma] deciding the
    variance type before [sigma_small] is looked at, [use_kl] deciding the
    loss type before [rescale_learned_sigmas] is looked at; and from a
    configuration that builds, every other setting of the five flags builds
    too, with the selections of that setting. *)
Theorem create_gaussian_diffusion_enum_selection (cfg : DiffusionCfg)
  (d : SpacedDiffusion Betas Timesteps) :
  create_gaussian_diffusion get_named_beta_schedule space_timesteps cfg = Ok d ->
  (sd_model_mean_type d = (if predict_xstart cfg then START_X else EPSILON) /\
   sd_model_var_type d =
     (if learn_sigma cfg then LEARNED_RANGE
      else if sigma_small cfg then FIXED_SMALL else FIXED_LARGE) /\
   sd_loss_type d =
     (if use_kl cfg then RESCALED_KL
      else if rescale_learned_sigmas cfg then RESCALED_MSE else MSE)) /\
  forall xstart learn small kl rescale,
  exists d',
    create_gaussian_diffusion get_named_beta_schedule space_timesteps
      (with_enum_flags cfg xstart learn small kl rescale) = Ok d' /\
    sd_model_mean_type d' = (if xstart then START_X else EPSILON) /\
    sd_model_var_type d' =
      (if learn then LEARNED_RANGE
       else if small then FIXED_SMALL else FIXED_LARGE) /\
    sd_loss_type d' =
      (if kl then RESCALED_KL else if rescale then RESCALED_MSE else MSE) /\
    sd_betas d' = sd_betas d /\
    sd_use_timesteps d' = sd_use_timesteps d.
Proof.
  intros H. apply create_gaussian_diffusion_Ok_inv in H.
  destruct H as [Hr [betas [ts [Hb [Hts ->]]]]]. split.
  - simpl.
    destruct (predict_xstart cfg), (learn_sigma cfg), (sigma_small cfg);
      repeat split; reflexivity.
  - intros xstart learn small kl rescale.
    unfold create_gaussian_diffusion. simpl.
    rewrite Hb, Hr. simpl. rewrite Hts. simpl.
    eexists. split; [reflexivity |]. simpl.
    destruct xstart, learn, small; repeat split; reflexivity.
Qed.

Lemma with_loss_flags_builds (cfg : DiffusionCfg) (kl rescale : bool)
  (d : SpacedDiffusion Betas Timesteps) :
  build cfg = Ok d ->
  exists d', build (with_loss_flags cfg kl rescale) = Ok d' /\
             sd_loss_type d' =
               (if kl then RESCALED_KL else if rescale then RESCALED_MSE else MSE).
Proof.
  intros H. apply create_gaussian_diffusion_Ok_inv in H.
  destruct H as [Hr [betas [ts [Hb [Hts _]]]]].
  unfold create_gaussian_diffusion. simpl.
  rewrite Hb, Hr. simpl. rewrite Hts. simpl.
  eexists. split; reflexivity.
Qed.

(** C3 (as amended).  From any configuration that builds, each of [MSE],
    [RESCALED_MSE] and [RESCALED_KL] is selected by setting [use_kl] and
    [rescale_learned_sigmas] alone; no configuration builds a diffusion
    whose loss type is [KL]. *)
Theorem loss_type_selectable (cfg0 : DiffusionCfg)
  (d0 : SpacedDiffusion Betas Timesteps) :
  create_gaussian_diffusion get_named_beta_schedule space_timesteps cfg0 = Ok d0 ->
  (forall L, L <> KL ->
     exists kl rescale d,
       create_gaussian_diffusion get_named_beta_schedule space_timesteps
         (with_loss_flags cfg0 kl rescale) = Ok d /\
       sd_loss_type d = L) /\
  (forall cfg d,
     create_gaussian_diffusion get_named_beta_schedule space_timesteps cfg = Ok d ->
     sd_loss_type d <> KL).
Proof.
  intros H0. split.
  - intros L HL.
    destruct L.
    + destruct (with_loss_flags_builds cfg0 false false d0 H0) as [d [Hd HLd]].
      exists false, false, d. split; assumption.
    + destruct (with_loss_flags_builds cfg0 false true d0 H0) as [d [Hd HLd]].
      exists false, true, d. split; assumption.
    + contradiction HL. reflexivity.
    + destruct (with_loss_flags_builds cfg0 true false d0 H0) as [d [Hd HLd]].
      exists true, false, d. split; assumption.
  - intros cfg d H. apply create_gaussian_diffusion_Ok_inv in H.
    destruct H as [_ [betas [ts [_ [_ ->]]]]]. simpl.
    destruct (use_kl cfg), (rescale_learned_sigmas cfg); discriminate.
Qed.

(** With an empty respacing token the function asks for every step,
    [space_timesteps(cfg.diffusion_steps, [cfg.diffusion_steps])], and when
    the schedule and the spacing are built it returns the diffusion made of
    them and of the enum selections. *)
Theorem create_gaussian_diffusion_empty_respacing (cfg : DiffusionCfg)
  (betas : Betas) (use_timesteps : Timesteps) :
  timestep_respacing cfg = "" ->
  get_named_beta_schedule (noise_schedule cfg) (diffusion_steps cfg) = Ok betas ->
  space_timesteps (diffusion_steps cfg) [diffusion_steps cfg] = Ok use_timesteps ->
  create_gaussian_diffusion get_named_beta_schedule space_timesteps cfg
  = Ok {| sd_use_timesteps := use_timesteps;
          sd_betas := betas;
          sd_model_mean_type := if predict_xstart cfg then START_X else EPSILON;
          sd_model_var_type :=
            if learn_sigma cfg then LEARNED_RANGE
            else if sigma_small cfg then FIXED_SMALL else FIXED_LARGE;
          sd_loss_type :=
            if use_kl cfg then RESCALED_KL
            else if rescale_learned_sigmas cfg then RESCALED_MSE else MSE;
          sd_rescale_timesteps := rescale_timesteps cfg |}.
Proof.
  intros Hr Hb Hts. unfold create_gaussian_diffusion.
  rewrite Hb, Hr. simpl. rewrite Hts. simpl.
  destruct (predict_xstart cfg), (learn_sigma cfg), (sigma_small cfg);
    reflexivity.
Qed.

End DiffusionFacts.

Lemma create_gaussian_diffusion_respacing_unbound_witness :
  timestep_respacing (Examples.diffusion_cfg "250" false false) <> "" /\
  create_gaussian_diffusion Examples.named_beta_schedule Examples.every_step
    (Examples.diffusion_cfg "250" false false) = Raise UnboundLocalError.
Proof.
  split.
  - discriminate.
  - apply (proj2 (create_gaussian_diffusion_respacing_unbound
                    Examples.named_beta_schedule Examples.every_step
                    (Examples.diffusion_cfg "250" false false)
                    ltac:(discriminate)) ("linear", 4)).
    reflexivity.
Defined.

Lemma create_gaussian_diffusion_enum_selection_witness :
  (exists d,
      create_gaussian_diffusion Examples.named_beta_schedule Examples.every_step
        (Examples.diffusion_cfg "" false true) = Ok d /\
      sd_model_mean_type d = EPSILON /\
      sd_model_var_type d = FIXED_SMALL /\
      sd_loss_type d = RESCALED_MSE) /\
  (exists d,
      create_gaussian_diffusion Examples.named_beta_schedule Examples.every_step
        (with_enum_flags (Examples.diffusion_cfg "" false true)
           true true true true true) = Ok d /\
      sd_model_mean_type d = START_X /\
      sd_model_var_type d = LEARNED_RANGE /\
      sd_loss_type d = RESCALED_KL) /\
  (exists d,
      create_gaussian_diffusion Examples.named_beta_schedule Examples.every_step
        (with_enum_flags (Examples.diffusion_cfg "" false true)
           false false false false false) = Ok d /\
      sd_model_mean_type d = EPSILON /\
      sd_model_var_type d = FIXED_LARGE /\
      sd_loss_type d = MSE).
Proof.
  destruct (create_gaussian_diffusion_enum_selection
              Examples.named_beta_schedule Examples.every_step
              (Examples.diffusion_cfg "" false true) _ eq_refl) as [Hown Hall].
  split; [| split].
  - eexists. split; [reflexivity | exact Hown].
  - destruct (Hall true true true true true) as [d [Hd [H1 [H2 [H3 _]]]]].
    exists d. split; [exact Hd |]. split; [exact H1 |]. split; assumption.
  - destruct (Hall false false false false false) as [d [Hd [H1 [H2 [H3 _]]]]].
    exists d. split; [exact Hd |]. split; [exact H1 |]. split; assumption.
Defined.

Lemma create_gaussian_diffusion_empty_respacing_witness :
  exists d,
    create_gaussian_diffusion Examples.named_beta_schedule Examples.every_step
      (Examples.diffusion_cfg "" true false) = Ok d /\
    sd_betas d = ("linear", 4) /\
    sd_use_timesteps d = [0; 1; 2; 3] /\
    sd_loss_type d = RESCALED_KL.
Proof.
  eexists. split.
  - apply (create_gaussian_diffusion_empty_respacing
             Examples.named_beta_schedule Examples.every_step
             (Examples.diffusion_cfg "" true false) ("linear", 4) [0; 1; 2; 3]);
      reflexivity.
  - repeat split; reflexivity.
Defined.

(** C3 (as stated, refuted).  Whatever the schedule generator and the
    spacing function are, the four loss types are not all selectable: [KL]
    is the loss type of no diffusion that [create_gaussian_diffusion]
    builds. *)
Lemma loss_type_KL_not_selectable :
  ~ (exists (Betas Timesteps : Type)
            (get_named_beta_schedule : string -> Z -> result Betas)
            (space_timesteps : Z -> list Z -> result Timesteps),
        forall L : LossType,
        exists cfg d,
          create_gaussian_diffusion get_named_beta_schedule space_timesteps cfg = Ok d /\
          sd_loss_type d = L).
Proof.
  intros [Betas [Timesteps [g [s H]]]].
  destruct (H KL) as [cfg [d [Hd HL]]].
  apply create_gaussian_diffusion_Ok_inv in Hd.
  destruct Hd as [_ [betas [ts [_ [_ ->]]]]]. simpl in HL.
  destruct (use_kl cfg), (rescale_learned_sigmas cfg); discriminate HL.
Qed.

Lemma loss_type_selectable_witness :
  (exists d,
      create_gaussian_diffusion Examples.named_beta_schedule Examples.every_step
        (Examples.diffusion_cfg "" true true) = Ok d) /\
  (exists kl rescale d,
      create_gaussian_diffusion Examples.named_beta_schedule Examples.every_step
        (with_loss_flags (Examples.diffusion_cfg "" true true) kl rescale) = Ok d /\
      sd_loss_type d = MSE).
Proof.
  split.
  - eexists. reflexivity.
  - apply (proj1 (loss_type_selectable
                    Examples.named_beta_schedule Examples.every_step
                    (Examples.diffusion_cfg "" true true) _ eq_refl) MSE).
    discriminate.
Defined.

(** ** script_util.py: [create_model] and [create_param_model] *)

Section ModelFacts.

Variable int : string -> option Z.

Lemma int_of_Raise (s : string) (e : exn) : int_of int s = Raise e -> e = ValueError.
Proof.
  unfold int_of. destruct (int s); intros H; [discriminate H |].
  injection H as <-. reflexivity.
Qed.

Lemma channel_mult_of_Raise (cfg : ImgModelCfg) (e : exn) :
  channel_mult_of int cfg = Raise e -> e = ValueError.
Proof.
  unfold channel_mult_of.
  destruct (String.eqb (im_channel_mult cfg) "").
  - destruct (im_image_size cfg =? 512); [discriminate |].
    destruct (im_image_size cfg =? 256); [discriminate |].
    destruct (im_image_size cfg =? 128); [discriminate |].
    destruct (im_image_size cfg =? 64); [discriminate |].
    simpl. intros H. injection H as <-. reflexivity.
  - intros H. apply mapM_Raise_inv in H. destruct H as [s [_ H]].
    destruct (int_of int s) as [z | e'] eqn:Hs; simpl in H; [discriminate H |].
    injection H as <-. apply (int_of_Raise s). exact Hs.
Qed.

Lemma attention_ds_of_Raise (cfg : ImgModelCfg) (e : exn) :
  attention_ds_of int cfg = Raise e -> e = ValueError \/ e = ZeroDivisionError.
Proof.
  unfold attention_ds_of. intros H.
  apply mapM_Raise_inv in H. destruct H as [s [_ H]].
  destruct (int_of int s) as [z | e'] eqn:Hs; simpl in H.
  - destruct (z =? 0); [| discriminate H].
    injection H as <-. right. reflexivity.
  - injection H as <-. left. apply (int_of_Raise s). exact Hs.
Qed.

Lemma channel_mult_of_unsupported_size (cfg : ImgModelCfg) :
  im_channel_mult cfg = "" ->
  ~ In (im_image_size cfg) [512; 256; 128; 64] ->
  channel_mult_of int cfg = Raise ValueError.
Proof.
  intros Hc Hs. unfold channel_mult_of. rewrite Hc. simpl.
  destruct (Z.eqb_spec (im_image_size cfg) 512) as [E | _];
    [exfalso; apply Hs; rewrite E; simpl; tauto |].
  destruct (Z.eqb_spec (im_image_size cfg) 256) as [E | _];
    [exfalso; apply Hs; rewrite E; simpl; tauto |].
  destruct (Z.eqb_spec (im_image_size cfg) 128) as [E | _];
    [exfalso; apply Hs; rewrite E; simpl; tauto |].
  destruct (Z.eqb_spec (im_image_size cfg) 64) as [E | _];
    [exfalso; apply Hs; rewrite E; simpl; tauto |].
  reflexivity.
Qed.

Lemma create_model_unsupported_arch (cfg : ImgModelCfg) :
  im_arch cfg <> "UNet" -> im_arch cfg <> "UNetCond" ->
  exists e,
    create_model int cfg = Raise e /\
    (e = NotImplementedError \/ e = ValueError \/ e = ZeroDivisionError) /\
    (forall channel_mult attention_ds,
        channel_mult_of int cfg = Ok channel_mult ->
        attention_ds_of int cfg = Ok attention_ds ->
        e = NotImplementedError).
Proof.
  intros H1 H2. unfold create_model.
  destruct (channel_mult_of int cfg) as [cm | e1] eqn:Hcm; simpl.
  - destruct (attention_ds_of int cfg) as [ads | e2] eqn:Hads; simpl.
    + rewrite (eqb_neq_false _ _ H1), (eqb_neq_false _ _ H2). simpl.
      exists NotImplementedError. repeat split; auto.
    + exists e2. split; [reflexivity |]. split.
      * destruct (attention_ds_of_Raise cfg e2 Hads) as [-> | ->]; auto.
      * intros ? ? _ H. discriminate H.
  - exists e1. split; [reflexivity |]. split.
    + rewrite (channel_mult_of_Raise cfg e1 Hcm). auto.
    + intros ? ? H. discriminate H.
Qed.

Lemma create_param_model_unsupported_arch (cfg : ParamModelCfg) :
  pm_deca_cond cfg = false ->
  pm_arch cfg <> "magenta" -> pm_arch cfg <> "autoenc" ->
  create_param_model cfg = Raise NotImplementedError.
Proof.
  intros Hd H1 H2. unfold create_param_model.
  rewrite Hd, (eqb_neq_false _ _ H1), (eqb_neq_false _ _ H2). reflexivity.
Qed.

(** C7 (as amended).  An unsupported model configuration makes construction
    fail, with the exception the code raises there:
    [create_param_model] raises [NotImplementedError] for an architecture
    other than 'magenta' and 'autoenc' when [deca_cond] is false;
    [create_model] raises [ValueError] for an empty [channel_mult] with an
    image size outside 512, 256, 128, 64; and for an architecture other than
    'UNet' and 'UNetCond' [create_model] returns no model: it raises
    [NotImplementedError] when [channel_mult] and [attention_resolutions]
    are read without error, and otherwise the [ValueError] or
    [ZeroDivisionError] of reading them. *)
Theorem unsupported_model_cfg_fails :
  (forall cfg : ParamModelCfg,
      pm_deca_cond cfg = false ->
      ~ In (pm_arch cfg) ["magenta"; "autoenc"] ->
      create_param_model cfg = Raise NotImplementedError) /\
  (forall cfg : ImgModelCfg,
      im_channel_mult cfg = "" ->
      ~ In (im_image_size cfg) [512; 256; 128; 64] ->
      create_model int cfg = Raise ValueError) /\
  (forall cfg : ImgModelCfg,
      ~ In (im_arch cfg) ["UNet"; "UNetCond"] ->
      exists e,
        create_model int cfg = Raise e /\
        (e = NotImplementedError \/ e = ValueError \/ e = ZeroDivisionError) /\
        (forall channel_mult attention_ds,
            channel_mult_of int cfg = Ok channel_mult ->
            attention_ds_of int cfg = Ok attention_ds ->
            e = NotImplementedError)).
Proof.
  split; [| split].
  - intros cfg Hd Ha. apply create_param_model_unsupported_arch.
    + exact Hd.
    + intros E. apply Ha. rewrite E. simpl. tauto.
    + intros E. apply Ha. rewrite E. simpl. tauto.
  - intros cfg Hc Hs. unfold create_model.
    rewrite (channel_mult_of_unsupported_size cfg Hc Hs). reflexivity.
  - intros cfg Ha. apply create_model_unsupported_arch.
    + intros E. apply Ha. rewrite E. simpl. tauto.
    + intros E. apply Ha. rewrite E. simpl. tauto.
Qed.

End ModelFacts.

(** C7 (as stated, refuted).  The parameter-model configuration with
    [deca_cond] false and the architecture 'resnet' is outside the
    supported set, and construction fails with [NotImplementedError], not
    with [ConfigurationError]. *)
Lemma create_param_model_not_ConfigurationError :
  pm_deca_cond (Examples.param_cfg false "resnet") = false /\
  ~ In (pm_arch (Examples.param_cfg false "resnet")) ["magenta"; "autoenc"] /\
  create_param_model (Examples.param_cfg false "resnet") = Raise NotImplementedError /\
  create_param_model (Examples.param_cfg false "resnet") <> Raise ConfigurationError.
Proof.
  split; [reflexivity |]. split; [| split].
  - simpl. intros [E | [E | []]]; discriminate E.
  - reflexivity.
  - discriminate.
Qed.

Lemma unsupported_model_cfg_fails_witness :
  create_param_model (Examples.param_cfg false "resnet") = Raise NotImplementedError /\
  create_model Examples.int_decimal (Examples.img_cfg "" 100 "UNet") = Raise ValueError /\
  create_model Examples.int_decimal (Examples.img_cfg "1,2,4" 64 "ViT")
  = Raise NotImplementedError.
Proof.
  pose proof (unsupported_model_cfg_fails Examples.int_decimal) as [Hp [Hs Ha]].
  split; [| split].
  - apply Hp; [reflexivity |].
    simpl. intros [E | [E | []]]; discriminate E.
  - apply Hs; [reflexivity |].
    simpl. intros [E | [E | [E | [E | []]]]]; discriminate E.
  - destruct (Ha (Examples.img_cfg "1,2,4" 64 "ViT")) as [e [He [_ Hn]]].
    + simpl. intros [E | [E | []]]; discriminate E.
    + rewrite He. f_equal.
      apply (Hn [1; 2; 4]%Q [4; 8]); reflexivity.
Defined.

(** ** deca_datasets.py: [normalize] and [denormalize] *)

Section NormalizeFacts.

Local Open Scope Q_scope.

Lemma zip_with_length (f : Q -> Q -> Q) (x y : vec) :
  List.length (zip_with f x y) = Nat.min (List.length x) (List.length y).
Proof.
  revert y. induction x as [| a x IH]; intros [| b y]; simpl; try reflexivity.
  rewrite IH. reflexivity.
Qed.

Lemma broadcast_same_length (f : Q -> Q -> Q) (x y : vec) :
  List.length x = List.length y -> broadcast f x y = Ok (zip_with f x y).
Proof.
  intros H. unfold broadcast. rewrite H, Nat.eqb_refl. reflexivity.
Qed.

Lemma broadcast_rows_same_length (f : Q -> Q -> Q) (arr : ndarray2) (v : vec) :
  Forall (fun r => List.length r = List.length v) arr ->
  broadcast_rows f arr v = Ok (map (fun r => zip_with f r v) arr).
Proof.
  unfold broadcast_rows. induction 1 as [| r arr Hr _ IH]; simpl.
  - reflexivity.
  - rewrite (broadcast_same_length f r v Hr), IH. reflexivity.
Qed.

Lemma map3_length (f : Q -> Q -> Q -> Q) (mn mx x : vec) :
  List.length mx = List.length mn -> List.length x = List.length mn ->
  List.length (map3 f mn mx x) = List.length x.
Proof.
  revert mx x. induction mn as [| m mn IH]; intros [| M mx] [| v x]; simpl;
    intros H1 H2; try reflexivity; try discriminate.
  f_equal. apply IH; congruence.
Qed.

Lemma normalize_row (a b : Q) (mn mx r : vec) :
  map (fun q => q + a)
      (zip_with Qdiv (map (Qmult (b - a)) (zip_with Qminus r mn))
                (zip_with Qminus mx mn))
  = map3 (normalize1 a b) mn mx r.
Proof.
  revert mn mx. induction r as [| x r IH]; intros [| m mn] [| M mx]; simpl;
    try reflexivity.
  rewrite IH. reflexivity.
Qed.

Lemma denormalize_row (a b : Q) (mn mx r : vec) :
  zip_with Qplus
    (map (fun q => q / (b - a))
         (zip_with Qmult (map (fun q => q - a) r) (zip_with Qminus mx mn)))
    mn
  = map3 (denormalize1 a b) mn mx r.
Proof.
  revert mn mx. induction r as [| x r IH]; intros [| m mn] [| M mx]; simpl;
    try reflexivity.
  rewrite IH. reflexivity.
Qed.

(** [normalize] with both statistics given, on arrays of matching shape. *)
Lemma normalize_given (x : ndarray2) (mn mx : vec) (a b : Q) :
  List.length mx = List.length mn ->
  Forall (fun r => List.length r = List.length mn) x ->
  normalize x (Some mn) (Some mx) a b
  = Ok (map (map3 (normalize1 a b) mn mx) x, mn, mx).
Proof.
  intros Hmx Hx. unfold normalize. simpl.
  rewrite (broadcast_rows_same_length Qminus x mn Hx). simpl.
  rewrite (broadcast_same_length Qminus mx mn Hmx). simpl.
  rewrite broadcast_rows_same_length.
  - simpl. unfold with_scalar. rewrite !map_map. do 3 f_equal.
    apply map_ext. intros r. apply normalize_row.
  - unfold with_scalar. rewrite map_map. apply Forall_map.
    eapply Forall_impl; [| exact Hx]. simpl. intros r Hr.
    rewrite length_map, !zip_with_length, Hr, Hmx. reflexivity.
Qed.

Lemma denormalize_given (y : ndarray2) (mn mx : vec) (a b : Q) :
  List.length mx = List.length mn ->
  Forall (fun r => List.length r = List.length mn) y ->
  denormalize y mn mx a b = Ok (map (map3 (denormalize1 a b) mn mx) y).
Proof.
  intros Hmx Hy. unfold denormalize.
  rewrite (broadcast_same_length Qminus mx mn Hmx). simpl.
  rewrite broadcast_rows_same_length.
  - simpl. rewrite broadcast_rows_same_length.
    + unfold with_scalar. rewrite !map_map. f_equal.
      apply map_ext. intros r. apply denormalize_row.
    + unfold with_scalar. rewrite !map_map. apply Forall_map.
      eapply Forall_impl; [| exact Hy]. simpl. intros r Hr.
      rewrite !length_map, !zip_with_length, length_map, Hr, Hmx.
      rewrite !Nat.min_id. reflexivity.
  - unfold with_scalar. apply Forall_map.
    eapply Forall_impl; [| exact Hy]. simpl. intros r Hr.
    rewrite length_map, zip_with_length, Hr, Hmx, Nat.min_id. reflexivity.
Qed.

Lemma denormalize1_normalize1 (a b m M x : Q) :
  m < M -> a < b -> denormalize1 a b m M (normalize1 a b m M x) == x.
Proof.
  intros HM Hab. unfold denormalize1, normalize1. field.
  split; intros H; lra.
Qed.

Lemma normalize1_denormalize1 (a b m M y : Q) :
  m < M -> a < b -> normalize1 a b m M (denormalize1 a b m M y) == y.
Proof.
  intros HM Hab. unfold denormalize1, normalize1. field.
  split; intros H; lra.
Qed.

Lemma roundtrip_row (f g : Q -> Q -> Q -> Q) (mn mx r : vec) :
  (forall m M x, m < M -> g m M (f m M x) == x) ->
  Forall2 Qlt mn mx -> List.length r = List.length mn ->
  Forall2 Qeq (map3 g mn mx (map3 f mn mx r)) r.
Proof.
  intros Hgf Hlt. revert r.
  induction Hlt as [| m M mn mx HmM _ IH]; intros [| x r] Hr; simpl;
    try constructor; try discriminate Hr.
  - apply Hgf. exact HmM.
  - apply IH. simpl in Hr. congruence.
Qed.

Lemma Forall2_Qlt_length (mn mx : vec) :
  Forall2 Qlt mn mx -> List.length mx = List.length mn.
Proof. intros H. symmetry. eapply Forall2_length. exact H. Qed.

Lemma roundtrip_rows (f g : Q -> Q -> Q -> Q) (mn mx : vec) (x : ndarray2) :
  (forall m M v, m < M -> g m M (f m M v) == v) ->
  Forall2 Qlt mn mx ->
  Forall (fun r => List.length r = List.length mn) x ->
  array_eq (map (map3 g mn mx) (map (map3 f mn mx) x)) x.
Proof.
  intros Hgf Hlt Hx. unfold array_eq.
  induction Hx as [| r x Hr _ IH]; simpl; constructor.
  - apply roundtrip_row; assumption.
  - exact IH.
Qed.

Lemma map3_rows_length (f : Q -> Q -> Q -> Q) (mn mx : vec) (x : ndarray2) :
  List.length mx = List.length mn ->
  Forall (fun r => List.length r = List.length mn) x ->
  Forall (fun r => List.length r = List.length mn) (map (map3 f mn mx) x).
Proof.
  intros Hmx Hx. apply Forall_map. eapply Forall_impl; [| exact Hx].
  simpl. intros r Hr. rewrite map3_length; assumption.
Qed.

(** C2.  With the same statistics and range on both sides, [normalize] and
    [denormalize] undo each other: for [min_val < max_val] in every
    coordinate, [a < b], and an array whose rows have the length of the
    statistics, both calls return, and each composition gives back the
    array it started from, entry by entry, as rationals. *)
Theorem normalize_denormalize_roundtrip (x : ndarray2) (min_val max_val : vec)
  (a b : Q) :
  Forall2 Qlt min_val max_val ->
  a < b ->
  Forall (fun row => List.length row = List.length min_val) x ->
  (exists y x',
      normalize x (Some min_val) (Some max_val) a b = Ok (y, min_val, max_val) /\
      denormalize y min_val max_val a b = Ok x' /\
      array_eq x' x) /\
  (exists z x',
      denormalize x min_val max_val a b = Ok z /\
      normalize z (Some min_val) (Some max_val) a b = Ok (x', min_val, max_val) /\
      array_eq x' x).
Proof.
  intros Hlt Hab Hx.
  pose proof (Forall2_Qlt_length _ _ Hlt) as Hmx.
  split.
  - exists (map (map3 (normalize1 a b) min_val max_val) x).
    eexists. split; [apply normalize_given; assumption |].
    split.
    + apply denormalize_given; [assumption |].
      apply map3_rows_length; assumption.
    + apply roundtrip_rows; try assumption.
      intros m M v HmM. apply denormalize1_normalize1; assumption.
  - exists (map (map3 (denormalize1 a b) min_val max_val) x).
    eexists. split; [apply denormalize_given; assumption |].
    split.
    + apply normalize_given; [assumption |].
      apply map3_rows_length; assumption.
    + apply roundtrip_rows; try assumption.
      intros m M v HmM. apply normalize1_denormalize1; assumption.
Qed.

End NormalizeFacts.

Lemma normalize_denormalize_roundtrip_witness :
  Forall2 Qlt [0; 2]%Q [10; 5]%Q /\
  (-1 < 1)%Q /\
  exists y x',
    normalize [[0; 5]; [10; 2]]%Q (Some [0; 2]%Q) (Some [10; 5]%Q) (-1) 1
    = Ok (y, [0; 2]%Q, [10; 5]%Q) /\
    denormalize y [0; 2]%Q [10; 5]%Q (-1) 1 = Ok x' /\
    array_eq x' [[0; 5]; [10; 2]]%Q.
Proof.
  assert (Hlt : Forall2 Qlt [0; 2]%Q [10; 5]%Q).
  { repeat constructor. }
  assert (Hab : (-1 < 1)%Q).
  { reflexivity. }
  split; [exact Hlt |]. split; [exact Hab |].
  apply (proj1 (normalize_denormalize_roundtrip
                  [[0; 5]; [10; 2]]%Q [0; 2]%Q [10; 5]%Q (-1) 1 Hlt Hab
                  ltac:(repeat constructor))).
Defined.

(** ** deca_datasets.py: dictionaries *)

Section DictFacts.

Context {V : Type}.

Lemma dict_get_set_same (d : dict V) (k : string) (v : V) :
  dict_get (dict_set d k v) k = Some v.
Proof.
  induction d as [| [k0 v0] d IH]; simpl.
  - rewrite String.eqb_refl. reflexivity.
  - destruct (String.eqb k0 k) eqn:E; simpl; rewrite E.
    + reflexivity.
    + exact IH.
Qed.

Lemma dict_get_set_other (d : dict V) (k k' : string) (v : V) :
  k <> k' -> dict_get (dict_set d k v) k' = dict_get d k'.
Proof.
  intros Hk. induction d as [| [k0 v0] d IH]; simpl.
  - rewrite (eqb_neq_false _ _ Hk). reflexivity.
  - destruct (String.eqb k0 k) eqn:E; simpl.
    + apply String.eqb_eq in E. subst k0.
      rewrite (eqb_neq_false _ _ Hk). reflexivity.
    + destruct (String.eqb k0 k'); [reflexivity | exact IH].
Qed.

Lemma dict_get_In (d : dict V) (k : string) (v : V) :
  dict_get d k = Some v -> In (k, v) d.
Proof.
  induction d as [| [k0 v0] d IH]; simpl; intros H.
  - discriminate H.
  - destruct (String.eqb k0 k) eqn:E.
    + apply String.eqb_eq in E. injection H as ->. left. congruence.
    + right. apply IH. exact H.
Qed.

End DictFacts.

Lemma default_get_inner (d : dict entry) (k1 k2 : string) :
  dict_get (default_get d k1) k2 = inner_get d k1 k2.
Proof.
  unfold default_get, inner_get. destruct (dict_get d k1); reflexivity.
Qed.

Lemma inner_get_dict_set (d : dict entry) (k k1 k2 : string) (e : entry) :
  inner_get (dict_set d k e) k1 k2
  = if String.eqb k k1 then dict_get e k2 else inner_get d k1 k2.
Proof.
  unfold inner_get. destruct (String.eqb k k1) eqn:E.
  - apply String.eqb_eq in E. subst k1. rewrite dict_get_set_same. reflexivity.
  - apply String.eqb_neq in E. rewrite (dict_get_set_other d k k1 e E).
    reflexivity.
Qed.

Lemma inner_get_set_inner_other (d : dict entry) (k1 k2 k1' k2' : string)
  (v : value) :
  k2 <> k2' ->
  inner_get (set_inner d k1 k2 v) k1' k2' = inner_get d k1' k2'.
Proof.
  intros Hk. unfold set_inner. rewrite inner_get_dict_set.
  destruct (String.eqb k1 k1') eqn:E; [| reflexivity].
  apply String.eqb_eq in E. subst k1'.
  rewrite (dict_get_set_other _ k2 k2' v Hk). apply default_get_inner.
Qed.

(** Lines 86-90 leave every entry other than ['uv_detail_normals'] as it
    was. *)
Lemma uv_paths_preserve (paths : list string) (d : dict entry) (k1 k2 : string) :
  k2 <> "uv_detail_normals" ->
  inner_get
    (fold_left
       (fun acc path =>
          set_inner acc (uv_image_name path) "uv_detail_normals" (Path path))
       paths d) k1 k2
  = inner_get d k1 k2.
Proof.
  intros Hk. revert d. induction paths as [| p paths IH]; intros d; simpl.
  - reflexivity.
  - rewrite IH. apply inner_get_set_inner_other.
    intros E. apply Hk. symmetry. exact E.
Qed.

(** ** deca_datasets.py: the statistics of [load_deca_params] *)

Lemma nth_zip_with (f : Q -> Q -> Q) (x y : vec) (j : nat) :
  (j < List.length x)%nat -> (j < List.length y)%nat ->
  nth j (zip_with f x y) 0%Q = f (nth j x 0%Q) (nth j y 0%Q).
Proof.
  revert x y. induction j as [| j IH]; intros [| a x] [| b y]; simpl;
    intros Hx Hy; try lia; try reflexivity.
  apply IH; lia.
Qed.

Lemma column_app (j : nat) (xs ys : ndarray2) :
  column j (xs ++ ys) = column j xs ++ column j ys.
Proof. unfold column. apply map_app. Qed.

Section Extremum.

(** A binary choice [f] that picks the operand standing in the order [R] to
    the other: [Qmin] with [<=], [Qmax] with [>=]. *)
Variable f : Q -> Q -> Q.
Variable R : Q -> Q -> Prop.
Hypothesis f_choice : forall x y, f x y = x \/ f x y = y.
Hypothesis f_left : forall x y, R (f x y) x.
Hypothesis f_right : forall x y, R (f x y) y.
Hypothesis R_refl : forall x, R x x.
Hypothesis R_trans : forall x y z, R x y -> R y z -> R x z.

Lemma is_extremum_step (a b : Q) (xs : list Q) :
  is_extremum R a xs -> is_extremum R (f a b) (xs ++ [b]).
Proof.
  intros [Hin Hall]. split.
  - apply in_or_app. destruct (f_choice a b) as [-> | ->].
    + left. exact Hin.
    + right. left. reflexivity.
  - apply Forall_app. split.
    + eapply Forall_impl; [| exact Hall]. simpl. intros x Hx.
      apply (R_trans _ a); [apply f_left | exact Hx].
    + constructor; [apply f_right | constructor].
Qed.

Lemma fold_zip_extremum (P : nat) (rs : ndarray2) :
  forall (acc : vec) (seen : ndarray2),
    List.length acc = P ->
    Forall (fun r => List.length r = P) rs ->
    (forall j, (j < P)%nat -> is_extremum R (nth j acc 0%Q) (column j seen)) ->
    List.length (fold_left (zip_with f) rs acc) = P /\
    forall j, (j < P)%nat ->
      is_extremum R (nth j (fold_left (zip_with f) rs acc) 0%Q)
                  (column j (seen ++ rs)).
Proof.
  induction rs as [| r rs IH]; intros acc seen Hacc Hrs Hseen; simpl.
  - rewrite app_nil_r. split; assumption.
  - inversion Hrs as [| r' rs' Hr Hrs']; subst r' rs'.
    assert (Hlen : List.length (zip_with f acc r) = P).
    { rewrite zip_with_length, Hacc, Hr. apply Nat.min_id. }
    destruct (IH (zip_with f acc r) (seen ++ [r]) Hlen Hrs') as [HL HE].
    + intros j Hj. rewrite nth_zip_with by lia.
      rewrite column_app. simpl. apply is_extremum_step. apply Hseen. exact Hj.
    + split; [exact HL |].
      intros j Hj. specialize (HE j Hj).
      rewrite <- app_assoc in HE. exact HE.
Qed.

Lemma reduce_axis0_extremum (r : vec) (rs : ndarray2) :
  Forall (fun r' => List.length r' = List.length r) rs ->
  exists v,
    reduce_axis0 f (r :: rs) = Ok v /\
    List.length v = List.length r /\
    columnwise (is_extremum R) v (r :: rs).
Proof.
  intros Hrs. simpl. eexists. split; [reflexivity |].
  destruct (fold_zip_extremum (List.length r) rs r [r] eq_refl Hrs) as [HL HE].
  - intros j Hj. split; simpl.
    + left. reflexivity.
    + constructor; [apply R_refl | constructor].
  - split; [exact HL |]. split.
    + rewrite HL. constructor; [reflexivity | exact Hrs].
    + intros j Hj. rewrite HL in Hj. apply (HE j Hj).
Qed.

End Extremum.

Lemma Qmin_choice (x y : Q) : Qmin x y = x \/ Qmin x y = y.
Proof.
  unfold Qmin, GenericMinMax.gmin. destruct (x ?= y)%Q; auto.
Qed.

Lemma Qmax_choice (x y : Q) : Qmax x y = x \/ Qmax x y = y.
Proof.
  unfold Qmax, GenericMinMax.gmax. destruct (x ?= y)%Q; auto.
Qed.

Lemma reduce_axis0_min (r : vec) (rs : ndarray2) :
  Forall (fun r' => List.length r' = List.length r) rs ->
  exists v,
    reduce_axis0 Qmin (r :: rs) = Ok v /\
    List.length v = List.length r /\
    columnwise is_min_of v (r :: rs).
Proof.
  apply (reduce_axis0_extremum Qmin Qle).
  - exact Qmin_choice.
  - exact Q.le_min_l.
  - exact Q.le_min_r.
  - exact Qle_refl.
  - exact Qle_trans.
Qed.

Lemma reduce_axis0_max (r : vec) (rs : ndarray2) :
  Forall (fun r' => List.length r' = List.length r) rs ->
  exists v,
    reduce_axis0 Qmax (r :: rs) = Ok v /\
    List.length v = List.length r /\
    columnwise is_max_of v (r :: rs).
Proof.
  apply (reduce_axis0_extremum Qmax (fun m x => x <= m)%Q).
  - exact Qmax_choice.
  - exact Q.le_max_l.
  - exact Q.le_max_r.
  - exact Qle_refl.
  - intros x y z Hxy Hyz. exact (Qle_trans _ _ _ Hyz Hxy).
Qed.

Lemma np_stack_Ok_inv (rows0 rows : list vec) :
  np_stack rows0 = Ok rows ->
  rows = rows0 /\
  exists r rs, rows = r :: rs /\
               Forall (fun r' => List.length r' = List.length r) rs.
Proof.
  unfold np_stack. destruct rows0 as [| r rs]; [discriminate |].
  destruct (forallb (fun r' => Nat.eqb (List.length r') (List.length r)) rs)
    eqn:Hall; [| discriminate].
  intros H. injection H as <-. split; [reflexivity |].
  exists r, rs. split; [reflexivity |].
  rewrite forallb_forall in Hall. apply Forall_forall.
  intros r' Hin. apply Nat.eqb_eq. apply Hall. exact Hin.
Qed.

Lemma stacked_params_Ok_inv (d : deca_dir) (rows : ndarray2) :
  stacked_params d = Ok rows ->
  mapM (fun item : string * entry => concat_params (snd item))
       (swap_key (read_all d)) = Ok rows /\
  exists r rs, rows = r :: rs /\
               Forall (fun r' => List.length r' = List.length r) rs.
Proof.
  unfold stacked_params. intros H.
  apply bind_Ok_inv in H. destruct H as [rows0 [Hm Hs]].
  apply np_stack_Ok_inv in Hs. destruct Hs as [-> Hshape].
  split; assumption.
Qed.

(** [normalize] with no statistics given computes them from the array. *)
Lemma normalize_computed (r : vec) (rs : ndarray2) (a b : Q) :
  Forall (fun r' => List.length r' = List.length r) rs ->
  exists mn mx,
    normalize (r :: rs) None None a b
    = Ok (map (map3 (normalize1 a b) mn mx) (r :: rs), mn, mx) /\
    List.length mn = List.length r /\
    List.length mx = List.length r /\
    columnwise is_min_of mn (r :: rs) /\
    columnwise is_max_of mx (r :: rs).
Proof.
  intros Hrs.
  destruct (reduce_axis0_min r rs Hrs) as [mn [Hmn [Lmn Cmn]]].
  destruct (reduce_axis0_max r rs Hrs) as [mx [Hmx [Lmx Cmx]]].
  exists mn, mx.
  split; [| split; [exact Lmn | split; [exact Lmx | split; assumption]]].
  transitivity (normalize (r :: rs) (Some mn) (Some mx) a b).
  - unfold normalize. rewrite Hmn, Hmx. reflexivity.
  - apply normalize_given; [congruence |].
    constructor; [congruence |].
    eapply Forall_impl; [| exact Hrs]. simpl. intros r' Hr'. congruence.
Qed.

(** What [load_deca_params] returns once the parameters stack. *)
Lemma load_deca_params_Ok (d : deca_dir) (bound : Q) (rows : ndarray2) :
  stacked_params d = Ok rows ->
  exists mn mx,
    load_deca_params d bound
    = Ok (fold_left
            (fun acc path =>
               set_inner acc (uv_image_name path) "uv_detail_normals" (Path path))
            (uv_detail_normals_train d)
            (dict_set (swap_key (read_all d)) "normalize"
               [("min_val", Arr mn); ("max_val", Arr mx)])) /\
    columnwise is_min_of mn rows /\
    columnwise is_max_of mx rows.
Proof.
  intros Hrows.
  destruct (stacked_params_Ok_inv d rows Hrows) as [_ [r [rs [-> Hrs]]]].
  destruct (normalize_computed r rs (- bound)%Q bound Hrs)
    as [mn [mx [Hn [_ [_ [Cmn Cmx]]]]]].
  exists mn, mx. split; [| split; assumption].
  unfold load_deca_params. rewrite Hrows. unfold Py.bind at 1.
  rewrite Hn. reflexivity.
Qed.

Lemma load_deca_params_stats (d : deca_dir) (mn mx : vec) :
  let deca_params :=
    fold_left
      (fun acc path =>
         set_inner acc (uv_image_name path) "uv_detail_normals" (Path path))
      (uv_detail_normals_train d)
      (dict_set (swap_key (read_all d)) "normalize"
         [("min_val", Arr mn); ("max_val", Arr mx)]) in
  inner_get deca_params "normalize" "min_val" = Some (Arr mn) /\
  inner_get deca_params "normalize" "max_val" = Some (Arr mx).
Proof.
  simpl. split.
  - rewrite uv_paths_preserve by discriminate.
    rewrite inner_get_dict_set, String.eqb_refl. reflexivity.
  - rewrite uv_paths_preserve by discriminate.
    rewrite inner_get_dict_set, String.eqb_refl. reflexivity.
Qed.


Section Float64Facts.

Import PrimFloat.


End Float64Facts.


(** ** deca_datasets.py: [DECADataset] *)

Section DatasetFacts.

Variable Image : Type.
Variable Rng : Type.
Variable open_rgb : string -> result Image.
Variable random_crop_arr : Image -> Z -> Rng -> ndarray3 byte * Rng.
Variable center_crop_arr : Image -> Z -> ndarray3 byte.
Variable resize_arr : Image -> Z -> ndarray3 byte.
Variable random_random : Rng -> Q * Rng.

Local Abbreviation augmentation' :=
  (augmentation Image Rng random_crop_arr center_crop_arr resize_arr random_random).
Local Abbreviation getitem_inputs' :=
  (getitem_inputs Image Rng open_rgb random_crop_arr center_crop_arr resize_arr
     random_random).
Local Abbreviation getitem' :=
  (__getitem__ Image Rng open_rgb random_crop_arr center_crop_arr resize_arr
     random_random).

Lemma bind_run_Ok_inv {A B : Type} (c : run Rng A) (k : A -> run Rng B)
  (rng rng' : Rng) (b : B) :
  bind_run Rng c k rng = (Ok b, rng') ->
  exists a rng1, c rng = (Ok a, rng1) /\ k a rng1 = (Ok b, rng').
Proof.
  unfold bind_run. destruct (c rng) as [[a | e] rng1]; intros H.
  - exists a, rng1. split; [reflexivity | exact H].
  - discriminate H.
Qed.

Lemma lift_Ok_inv {A : Type} (r : result A) (rng rng' : Rng) (a : A) :
  lift Rng r rng = (Ok a, rng') -> r = Ok a /\ rng' = rng.
Proof.
  unfold lift. intros H. injection H as -> ->. split; reflexivity.
Qed.

Lemma mode_is_false (mode : option string) (s : string) :
  mode <> Some s -> mode_is mode s = false.
Proof.
  destruct mode as [m |]; simpl; intros H; [| reflexivity].
  apply String.eqb_neq. intros E. apply H. rewrite E. reflexivity.
Qed.

(** An unsupported resize mode reaches the first [raise NotImplemented]. *)
Lemma resized_unsupported (self : DECADataset) (pil_image : Image) (rng : Rng) :
  ~ In (resize_mode self) ["random_crop"; "center_crop"; "resize"] ->
  resized Image Rng random_crop_arr center_crop_arr resize_arr self pil_image rng
  = (raise_stmt NotImplementedConstant, rng).
Proof.
  intros H. unfold resized.
  rewrite !eqb_neq_false; [reflexivity | | |];
    intros E; apply H; rewrite E; simpl; tauto.
Qed.

(** An unsupported augment mode reaches the second one, without a draw. *)
Lemma flipped_unsupported (self : DECADataset) (arr : ndarray3 byte) (rng : Rng) :
  ~ In (augment_mode self) [Some "random_flip"; Some "flip"; None] ->
  flipped Rng random_random self arr rng = (raise_stmt NotImplementedConstant, rng).
Proof.
  intros H. unfold flipped.
  rewrite !mode_is_false.
  - destruct (augment_mode self) as [m |]; [reflexivity |].
    exfalso. apply H. simpl. tauto.
  - intros E. apply H. rewrite E. simpl. tauto.
  - intros E. apply H. rewrite E. simpl. tauto.
Qed.

Lemma resized_outcome (self : DECADataset) (pil_image : Image) (rng : Rng) :
  (exists arr rng1,
      resized Image Rng random_crop_arr center_crop_arr resize_arr self pil_image rng
      = (Ok arr, rng1)) \/
  resized Image Rng random_crop_arr center_crop_arr resize_arr self pil_image rng
  = (raise_stmt NotImplementedConstant, rng).
Proof.
  unfold resized.
  destruct (String.eqb (resize_mode self) "random_crop").
  - left. destruct (random_crop_arr pil_image (resolution self) rng) as [arr rng1].
    exists arr, rng1. reflexivity.
  - destruct (String.eqb (resize_mode self) "center_crop").
    + left. eexists. eexists. reflexivity.
    + destruct (String.eqb (resize_mode self) "resize").
      * left. eexists. eexists. reflexivity.
      * right. reflexivity.
Qed.

(** C10.  With a resize mode outside 'random_crop', 'center_crop', 'resize',
    or an augment mode outside 'random_flip', 'flip', None, [augmentation]
    ends in a [raise NotImplemented] statement, and what that statement
    raises is [TypeError], which is not [NotImplementedError]. *)
Theorem augmentation_unsupported_mode_TypeError (self : DECADataset)
  (pil_image : Image) (rng : Rng) :
  ~ In (resize_mode self) ["random_crop"; "center_crop"; "resize"] \/
  ~ In (augment_mode self) [Some "random_flip"; Some "flip"; None] ->
  exists rng',
    augmentation Image Rng random_crop_arr center_crop_arr resize_arr
      random_random self pil_image rng
    = (raise_stmt NotImplementedConstant, rng') /\
    @raise_stmt (ndarray3 byte) NotImplementedConstant = Raise TypeError /\
    TypeError <> NotImplementedError.
Proof.
  intros H. unfold augmentation, bind_run.
  assert (Hend : @raise_stmt (ndarray3 byte) NotImplementedConstant = Raise TypeError
                 /\ TypeError <> NotImplementedError).
  { split; [reflexivity | discriminate]. }
  destruct H as [Hr | Ha].
  - rewrite (resized_unsupported self pil_image rng Hr). simpl.
    exists rng. split; [reflexivity | exact Hend].
  - destruct (resized_outcome self pil_image rng) as [[arr [rng1 E]] | E];
      rewrite E; simpl.
    + rewrite (flipped_unsupported self arr rng1 Ha).
      exists rng1. split; [reflexivity | exact Hend].
    + exists rng. split; [reflexivity | exact Hend].
Qed.

(** The mode 'random_flip' with a supported resize mode: a draw below one
    half flips the array; any other draw fails the first test of the chain,
    matches neither 'flip' nor None, and ends in [raise NotImplemented]. *)
Theorem augmentation_random_flip (self : DECADataset) (pil_image : Image)
  (rng rng1 : Rng) (arr : ndarray3 byte) :
  augment_mode self = Some "random_flip" ->
  resized Image Rng random_crop_arr center_crop_arr resize_arr self pil_image rng
  = (Ok arr, rng1) ->
  ((fst (random_random rng1) < 1 # 2)%Q ->
   augmentation Image Rng random_crop_arr center_crop_arr resize_arr
     random_random self pil_image rng
   = (Ok (flip arr), snd (random_random rng1))) /\
  ((1 # 2 <= fst (random_random rng1))%Q ->
   augmentation Image Rng random_crop_arr center_crop_arr resize_arr
     random_random self pil_image rng
   = (Raise TypeError, snd (random_random rng1))).
Proof.
  intros Hm Hr. unfold augmentation, bind_run. rewrite Hr.
  unfold flipped. rewrite Hm. simpl.
  destruct (random_random rng1) as [u r]. simpl. split; intros Hu.
  - destruct (Qle_bool (1 # 2) u) eqn:E; simpl; [| reflexivity].
    apply Qle_bool_iff in E. exfalso. apply (Qlt_not_le _ _ Hu). exact E.
  - apply Qle_bool_iff in Hu. rewrite Hu. reflexivity.
Qed.

(** Lines 219-224 with an unsupported mode. *)
Lemma input_to_model_unsupported (self : DECADataset) (raw_img uvdn : ndarray3 Q) :
  ~ In (in_image self) ["raw"; "raw+uvdn"] ->
  input_to_model self raw_img uvdn = Raise NotImplementedError.
Proof.
  intros H. unfold input_to_model.
  rewrite !eqb_neq_false; [reflexivity | |];
    intros E; apply H; rewrite E; simpl; tauto.
Qed.

Lemma getitem_Ok_inv (self : DECADataset) (idx : Z) (rng rng' : Rng)
  (cond : vec) (image : ndarray3 Q) :
  getitem' self idx rng = (Ok (cond, image), rng') ->
  exists raw_img uvdn arr,
    getitem_inputs' self idx rng = (Ok (cond, raw_img, uvdn), rng') /\
    input_to_model self raw_img uvdn = Ok arr /\
    image = transpose_2_0_1 arr.
Proof.
  unfold __getitem__. intros H.
  apply bind_run_Ok_inv in H. destruct H as [[[c raw_img] uvdn] [rng1 [Hi H]]].
  apply bind_run_Ok_inv in H. destruct H as [arr [rng2 [Hm H]]].
  apply lift_Ok_inv in Hm. destruct Hm as [Hm ->].
  unfold ret in H. injection H as <- <- <-.
  exists raw_img, uvdn, arr. repeat split; assumption.
Qed.

(** C8.  With an input mode outside 'raw' and 'raw+uvdn', the composition
    branch raises [NotImplementedError] whatever the two arrays are;
    [__getitem__] returns no item, and when everything before the branch
    succeeds the exception it raises is that [NotImplementedError]. *)
Theorem getitem_unsupported_in_image (self : DECADataset) (idx : Z) (rng : Rng) :
  ~ In (in_image self) ["raw"; "raw+uvdn"] ->
  (forall raw_img uvdn,
      input_to_model self raw_img uvdn = Raise NotImplementedError) /\
  (forall out rng',
      __getitem__ Image Rng open_rgb random_crop_arr center_crop_arr resize_arr
        random_random self idx rng <> (Ok out, rng')) /\
  (forall inputs rng',
      getitem_inputs Image Rng open_rgb random_crop_arr center_crop_arr
        resize_arr random_random self idx rng = (Ok inputs, rng') ->
      __getitem__ Image Rng open_rgb random_crop_arr center_crop_arr resize_arr
        random_random self idx rng = (Raise NotImplementedError, rng')).
Proof.
  intros Hm. split; [| split].
  - intros raw_img uvdn. apply input_to_model_unsupported. exact Hm.
  - intros [cond image] rng' H.
    apply getitem_Ok_inv in H. destruct H as [raw_img [uvdn [arr [_ [H _]]]]].
    rewrite (input_to_model_unsupported self raw_img uvdn Hm) in H.
    discriminate H.
  - intros [[cond raw_img] uvdn] rng' H. unfold __getitem__, bind_run at 1.
    rewrite H. unfold bind_run, lift.
    rewrite (input_to_model_unsupported self raw_img uvdn Hm). reflexivity.
Qed.

(** Everything a successful run of lines 191-217 went through. *)
Lemma getitem_inputs_Ok_inv (self : DECADataset) (idx : Z) (rng rng' : Rng)
  (cond : vec) (raw_img uvdn : ndarray3 Q) :
  getitem_inputs' self idx rng = (Ok (cond, raw_img, uvdn), rng') ->
  exists path pil_image raw_u8 rng1 uvdn_path pil_uvdn uvdn_u8,
    list_index (local_images self) idx = Ok path /\
    open_rgb path = Ok pil_image /\
    augmentation' self pil_image rng = (Ok raw_u8, rng1) /\
    raw_img = to_unit_range raw_u8 /\
    conditioning self (last_piece (str_split "/"%char path)) = Ok cond /\
    inner_get (deca_params self) (last_piece (str_split "/"%char path))
      "uv_detail_normals" = Some (Path uvdn_path) /\
    open_rgb uvdn_path = Ok pil_uvdn /\
    augmentation' self pil_uvdn rng1 = (Ok uvdn_u8, rng') /\
    uvdn = to_unit_range uvdn_u8.
Proof.
  unfold getitem_inputs. intros H.
  apply bind_run_Ok_inv in H. destruct H as [path [r [Hpath H]]].
  apply lift_Ok_inv in Hpath. destruct Hpath as [Hpath ->].
  apply bind_run_Ok_inv in H. destruct H as [pil [r [Hpil H]]].
  apply lift_Ok_inv in Hpil. destruct Hpil as [Hpil ->].
  apply bind_run_Ok_inv in H. destruct H as [raw_u8 [rng1 [Hraw H]]].
  apply bind_run_Ok_inv in H. destruct H as [c [r [Hc H]]].
  apply lift_Ok_inv in Hc. destruct Hc as [Hc ->].
  apply bind_run_Ok_inv in H. destruct H as [uv [r [Huv H]]].
  apply lift_Ok_inv in Huv. destruct Huv as [Huv ->].
  apply bind_run_Ok_inv in H. destruct H as [uvp [r [Huvp H]]].
  apply lift_Ok_inv in Huvp. destruct Huvp as [Huvp ->].
  apply bind_run_Ok_inv in H. destruct H as [pil2 [r [Hpil2 H]]].
  apply lift_Ok_inv in Hpil2. destruct Hpil2 as [Hpil2 ->].
  apply bind_run_Ok_inv in H. destruct H as [uv_u8 [rng2 [Haug2 H]]].
  unfold ret in H. injection H as <- <- <- <-.
  exists path, pil, raw_u8, rng1, uvp, pil2, uv_u8.
  split; [exact Hpath |]. split; [exact Hpil |]. split; [exact Hraw |].
  split; [reflexivity |]. split; [exact Hc |]. split.
  - unfold dict_getitem in Huv. rewrite default_get_inner in Huv.
    destruct (inner_get (deca_params self) (last_piece (str_split "/"%char path))
                "uv_detail_normals") as [v |]; [| discriminate Huv].
    injection Huv as ->. destruct uv; [discriminate Huvp |].
    injection Huvp as ->. reflexivity.
  - split; [exact Hpil2 |]. split; [exact Haug2 | reflexivity].
Qed.

Lemma pixel_bounds (p : byte) : (0 <= pixel p <= 255)%Q.
Proof.
  unfold pixel. pose proof (Strings.Byte.to_N_bounded p) as H.
  split.
  - change 0%Q with (inject_Z 0). rewrite <- Zle_Qle. lia.
  - change 255%Q with (inject_Z 255). rewrite <- Zle_Qle. lia.
Qed.

Lemma unit_range (p : byte) : (-1 <= pixel p / (255 # 2) - 1 <= 1)%Q.
Proof.
  pose proof (pixel_bounds p) as [H0 H1].
  unfold Qdiv. change (/ (255 # 2))%Q with (2 # 255)%Q. lra.
Qed.

Lemma input_to_model_Ok_inv (self : DECADataset) (raw_img uvdn arr : ndarray3 Q) :
  input_to_model self raw_img uvdn = Ok arr ->
  (in_image self = "raw" /\ arr = raw_img) \/
  (in_image self = "raw+uvdn" /\ concatenate_axis2 raw_img uvdn = Ok arr).
Proof.
  unfold input_to_model.
  destruct (String.eqb_spec (in_image self) "raw") as [E | _].
  - intros H. injection H as <-. left. split; [exact E | reflexivity].
  - destruct (String.eqb_spec (in_image self) "raw+uvdn") as [E | _].
    + intros H. right. split; [exact E | exact H].
    + discriminate.
Qed.

(** C5.  The image of a returned item is channel-first: its first axis is
    the channel axis of the augmented picture (followed, in mode 'raw+uvdn',
    by the channels of the augmented uv-detail-normals picture), its other
    two axes are the picture's height and width; every entry is the 8-bit
    pixel it comes from mapped as [pixel / 127.5 - 1], and lies in [-1, 1]. *)
Theorem getitem_image_layout_range (self : DECADataset) (idx : Z)
  (rng rng' : Rng) (cond : vec) (image : ndarray3 Q) :
  __getitem__ Image Rng open_rgb random_crop_arr center_crop_arr resize_arr
    random_random self idx rng = (Ok (cond, image), rng') ->
  exists path pil_image rng1 uvdn_path pil_uvdn (raw_img uvdn : ndarray3 byte),
    list_index (local_images self) idx = Ok path /\
    open_rgb path = Ok pil_image /\
    augmentation Image Rng random_crop_arr center_crop_arr resize_arr
      random_random self pil_image rng = (Ok raw_img, rng1) /\
    open_rgb uvdn_path = Ok pil_uvdn /\
    augmentation Image Rng random_crop_arr center_crop_arr resize_arr
      random_random self pil_uvdn rng1 = (Ok uvdn, rng') /\
    dim0 image = (if String.eqb (in_image self) "raw" then dim2 raw_img
                  else (dim2 raw_img + dim2 uvdn)%nat) /\
    dim1 image = dim0 raw_img /\
    dim2 image = dim1 raw_img /\
    forall c h w,
      in_shape image c h w ->
      item image c h w
      = (pixel (if Nat.ltb c (dim2 raw_img) then item raw_img h w c
                else item uvdn h w (c - dim2 raw_img)%nat) / (255 # 2) - 1)%Q /\
      (-1 <= item image c h w <= 1)%Q.
Proof.
  intros H. apply getitem_Ok_inv in H.
  destruct H as [raw_q [uvdn_q [arr [Hin [Hm ->]]]]].
  apply getitem_inputs_Ok_inv in Hin.
  destruct Hin as [path [pil [raw_u8 [rng1 [uvp [pil2 [uv_u8 Hin]]]]]]].
  destruct Hin as [Hpath [Hpil [Hraw [-> [_ [_ [Hpil2 [Huv ->]]]]]]]].
  exists path, pil, rng1, uvp, pil2, raw_u8, uv_u8.
  split; [exact Hpath |]. split; [exact Hpil |]. split; [exact Hraw |].
  split; [exact Hpil2 |]. split; [exact Huv |].
  apply input_to_model_Ok_inv in Hm. destruct Hm as [[Em ->] | [Em Hc]].
  - rewrite Em. simpl. repeat split; try reflexivity.
    + destruct H as [Hc _]. simpl in Hc.
      apply Nat.ltb_lt in Hc. rewrite Hc. reflexivity.
    + apply unit_range.
    + apply unit_range.
  - rewrite Em. simpl. unfold concatenate_axis2 in Hc. simpl in Hc.
    destruct (Nat.eqb (dim0 raw_u8) (dim0 uv_u8) && Nat.eqb (dim1 raw_u8) (dim1 uv_u8));
      [| discriminate Hc].
    injection Hc as <-. simpl. repeat split; try reflexivity.
    + destruct (Nat.ltb c (dim2 raw_u8)); reflexivity.
    + destruct (Nat.ltb c (dim2 raw_u8)); apply unit_range.
    + destruct (Nat.ltb c (dim2 raw_u8)); apply unit_range.
Qed.

(** With a supported resize mode and the mode 'flip' or None, which draw
    nothing, [augmentation] returns an array. *)
Lemma augmentation_returns (self : DECADataset) (pil_image : Image) (rng : Rng) :
  In (resize_mode self) ["random_crop"; "center_crop"; "resize"] ->
  In (augment_mode self) [Some "flip"; None] ->
  exists arr rng1, augmentation' self pil_image rng = (Ok arr, rng1).
Proof.
  intros Hr Ha. unfold augmentation, bind_run.
  assert (Hres : exists arr rng1,
             resized Image Rng random_crop_arr center_crop_arr resize_arr
               self pil_image rng = (Ok arr, rng1)).
  { unfold resized. simpl in Hr.
    destruct Hr as [<- | [<- | [<- | []]]]; simpl.
    - destruct (random_crop_arr pil_image (resolution self) rng) as [arr rng1].
      exists arr, rng1. reflexivity.
    - eexists. eexists. reflexivity.
    - eexists. eexists. reflexivity. }
  destruct Hres as [arr [rng1 Hres]]. rewrite Hres.
  unfold flipped. simpl in Ha.
  destruct Ha as [<- | [<- | []]]; simpl; eexists; eexists; reflexivity.
Qed.

(** In mode 'raw', with a supported resize mode and the mode 'flip' or
    None, [__getitem__] returns an item as soon as the two pictures open and
    the dict has the image's parameters, the statistics and the path of its
    uv-detail-normals picture. *)
Theorem getitem_returns (self : DECADataset) (idx : Z) (rng : Rng)
  (path uvdn_path : string) (pil_image pil_uvdn : Image) (cond : vec) :
  In (resize_mode self) ["random_crop"; "center_crop"; "resize"] ->
  In (augment_mode self) [Some "flip"; None] ->
  in_image self = "raw" ->
  list_index (local_images self) idx = Ok path ->
  open_rgb path = Ok pil_image ->
  conditioning self (last_piece (str_split "/"%char path)) = Ok cond ->
  inner_get (deca_params self) (last_piece (str_split "/"%char path))
    "uv_detail_normals" = Some (Path uvdn_path) ->
  open_rgb uvdn_path = Ok pil_uvdn ->
  exists image rng',
    __getitem__ Image Rng open_rgb random_crop_arr center_crop_arr resize_arr
      random_random self idx rng = (Ok (cond, image), rng').
Proof.
  intros Hr Ha Hm Hpath Hpil Hcond Huv Hpil2.
  destruct (augmentation_returns self pil_image rng Hr Ha) as [raw [rng1 Hraw]].
  destruct (augmentation_returns self pil_uvdn rng1 Hr Ha) as [uv [rng2 Huvdn]].
  exists (transpose_2_0_1 (to_unit_range raw)), rng2.
  unfold __getitem__, getitem_inputs, bind_run, lift, ret.
  rewrite Hpath, Hpil, Hraw, Hcond.
  unfold dict_getitem. rewrite default_get_inner, Huv. simpl.
  rewrite Hpil2, Huvdn.
  unfold input_to_model. rewrite Hm. reflexivity.
Qed.

(** ** deca_datasets.py: the conditioning vector *)

Lemma concat_params_Ok_inv (e : entry) (params : vec) :
  concat_params e = Ok params ->
  exists shape pose exp cam,
    dict_get e "shape" = Some (Arr shape) /\
    dict_get e "pose" = Some (Arr pose) /\
    dict_get e "exp" = Some (Arr exp) /\
    dict_get e "cam" = Some (Arr cam) /\
    params = shape ++ pose ++ exp ++ cam.
Proof.
  unfold concat_params, params_key, dict_getitem. simpl.
  destruct (dict_get e "shape") as [[shape | p] |]; try discriminate;
    destruct (dict_get e "pose") as [[pose | p'] |]; try discriminate;
    destruct (dict_get e "exp") as [[exp | p''] |]; try discriminate;
    destruct (dict_get e "cam") as [[cam | p'''] |]; try discriminate.
  simpl. intros H. injection H as <-.
  exists shape, pose, exp, cam. rewrite app_nil_r. repeat split; reflexivity.
Qed.

Lemma concat_params_ext (e e' : entry) :
  (forall k, In k params_key -> dict_get e k = dict_get e' k) ->
  concat_params e = concat_params e'.
Proof.
  intros H. unfold concat_params, params_key, dict_getitem. simpl.
  rewrite (H "shape"), (H "pose"), (H "exp"), (H "cam");
    [reflexivity | | | |]; unfold params_key; simpl; tauto.
Qed.

Lemma params_key_not_uv (k : string) :
  In k params_key -> k <> "uv_detail_normals".
Proof.
  unfold params_key. simpl. intros [<- | [<- | [<- | [<- | []]]]]; discriminate.
Qed.

Lemma Forall2_In_left {A B : Type} (R : A -> B -> Prop) (xs : list A)
  (ys : list B) (x : A) :
  Forall2 R xs ys -> In x xs -> exists y, In y ys /\ R x y.
Proof.
  induction 1 as [| x0 y0 xs ys Hxy _ IH]; simpl; intros Hin.
  - contradiction.
  - destruct Hin as [<- | Hin].
    + exists y0. split; [left; reflexivity | exact Hxy].
    + destruct (IH Hin) as [y [Hy HR]]. exists y. split; [right; exact Hy | exact HR].
Qed.

(** In the dict [load_deca_params] returns, an entry that has the four
    parameter groups is an image of the annotation files: its concatenated
    vector is a row of the stacked array, and the statistics are those of
    that array. *)
Lemma loaded_entry_params (d : deca_dir) (bound : Q) (dp : dict entry)
  (name : string) (params : vec) :
  load_deca_params d bound = Ok dp ->
  concat_params (default_get dp name) = Ok params ->
  exists rows mn mx,
    stacked_params d = Ok rows /\
    In params rows /\
    inner_get dp "normalize" "min_val" = Some (Arr mn) /\
    inner_get dp "normalize" "max_val" = Some (Arr mx) /\
    columnwise is_min_of mn rows /\
    columnwise is_max_of mx rows.
Proof.
  intros Hload Hparams.
  assert (Hrows : exists rows, stacked_params d = Ok rows).
  { unfold load_deca_params in Hload. apply bind_Ok_inv in Hload.
    destruct Hload as [rows [Hrows _]]. exists rows. exact Hrows. }
  destruct Hrows as [rows Hrows].
  destruct (load_deca_params_Ok d bound rows Hrows) as [mn [mx [Hl [Cmn Cmx]]]].
  destruct (load_deca_params_stats d mn mx) as [Smn Smx].
  rewrite Hl in Hload. injection Hload as <-.
  exists rows, mn, mx.
  split; [exact Hrows |]. split; [| split; [exact Smn | split; [exact Smx | split; assumption]]].
  set (stats := [("min_val", Arr mn); ("max_val", Arr mx)]) in *.
  set (dp1 := dict_set (swap_key (read_all d)) "normalize" stats) in *.
  rewrite (concat_params_ext _ (default_get dp1 name)) in Hparams.
  2:{ intros k Hk. rewrite !default_get_inner.
      apply uv_paths_preserve. apply params_key_not_uv. exact Hk. }
  destruct (String.eqb_spec "normalize" name) as [E | E].
  - subst name. unfold default_get, dp1 in Hparams.
    rewrite dict_get_set_same in Hparams. discriminate Hparams.
  - unfold default_get, dp1 in Hparams.
    rewrite (dict_get_set_other _ "normalize" name stats E) in Hparams.
    revert Hparams.
    match goal with
    | |- context [match ?lookup with Some _ => _ | None => _ end] =>
        destruct lookup as [e |] eqn:He; [| intros Hp; discriminate Hp]
    end.
    intros Hparams. apply dict_get_In in He.
    destruct (stacked_params_Ok_inv d rows Hrows) as [Hm _].
    apply mapM_Ok_inv in Hm.
    destruct (Forall2_In_left _ _ _ _ Hm He) as [row [Hrow Hr]].
    simpl in Hr. rewrite Hparams in Hr. injection Hr as ->. exact Hrow.
Qed.

(** [normalize] of a one-row array with both statistics given returns a
    one-row array. *)
Lemma normalize_one_row (v mn mx : vec) (a b : Q) (y : ndarray2) (mn' mx' : vec) :
  normalize [v] (Some mn) (Some mx) a b = Ok (y, mn', mx') ->
  exists c, y = [c] /\ mn' = mn /\ mx' = mx.
Proof.
  unfold normalize, broadcast_rows. simpl.
  destruct (broadcast Qminus v mn) as [t1 |]; [| discriminate]. simpl.
  destruct (broadcast Qminus mx mn) as [w |]; [| discriminate]. simpl.
  destruct (broadcast Qdiv (map (Qmult (b - a)) t1) w) as [t3 |]; [| discriminate].
  simpl. intros H. injection H as <- <- <-.
  eexists. repeat split; reflexivity.
Qed.

Lemma conditioning_Ok_inv (self : DECADataset) (img_name : string) (cond : vec) :
  conditioning self img_name = Ok cond ->
  exists params mn mx,
    concat_params (default_get (deca_params self) img_name) = Ok params /\
    inner_get (deca_params self) "normalize" "min_val" = Some (Arr mn) /\
    inner_get (deca_params self) "normalize" "max_val" = Some (Arr mx) /\
    normalize [params] (Some mn) (Some mx) (- bound self)%Q (bound self)
    = Ok ([cond], mn, mx).
Proof.
  unfold conditioning. intros H.
  apply bind_Ok_inv in H. destruct H as [params [Hp H]].
  apply bind_Ok_inv in H. destruct H as [vmn [Hmn H]].
  apply bind_Ok_inv in H. destruct H as [vmx [Hmx H]].
  apply bind_Ok_inv in H. destruct H as [omn [Homn H]].
  apply bind_Ok_inv in H. destruct H as [omx [Homx H]].
  apply bind_Ok_inv in H. destruct H as [[[y mn'] mx'] [Hn H]].
  unfold dict_getitem in Hmn, Hmx. rewrite default_get_inner in Hmn, Hmx.
  destruct (inner_get (deca_params self) "normalize" "min_val") as [v1 |];
    [| discriminate Hmn].
  destruct (inner_get (deca_params self) "normalize" "max_val") as [v2 |];
    [| discriminate Hmx].
  injection Hmn as ->. injection Hmx as ->.
  destruct vmn as [mn | p]; [| discriminate Homn].
  destruct vmx as [mx | p]; [| discriminate Homx].
  simpl in Homn, Homx. injection Homn as <-. injection Homx as <-.
  destruct (normalize_one_row _ _ _ _ _ _ _ _ Hn) as [c [-> [-> ->]]].
  unfold list_index in H. simpl in H. injection H as ->.
  exists params, mn, mx. repeat split; try reflexivity; assumption.
Qed.

(** C6 (as amended).  The conditioning vector of a returned item is the
    row that [normalize] returns, with the ['min_val'] and ['max_val'] of
    the ['normalize'] entry and [a = -bound], [b = bound], for the
    concatenation shape, pose, exp, cam of the image's parameters.  When the
    dict of the data set is the one [load_deca_params] returns, those
    statistics are the columnwise minimum and maximum of the stacked
    parameters, the concatenation is one of the stacked rows, and the
    length of the vector is the sum of the lengths of the four groups. *)
Theorem getitem_conditioning_vector (self : DECADataset)
  (idx : Z) (rng rng' : Rng) (cond : vec) (image : ndarray3 Q) :
  __getitem__ Image Rng open_rgb random_crop_arr center_crop_arr resize_arr
    random_random self idx rng = (Ok (cond, image), rng') ->
  exists path shape pose exp cam min_val max_val,
    list_index (local_images self) idx = Ok path /\
    inner_get (deca_params self) (last_piece (str_split "/"%char path)) "shape"
    = Some (Arr shape) /\
    inner_get (deca_params self) (last_piece (str_split "/"%char path)) "pose"
    = Some (Arr pose) /\
    inner_get (deca_params self) (last_piece (str_split "/"%char path)) "exp"
    = Some (Arr exp) /\
    inner_get (deca_params self) (last_piece (str_split "/"%char path)) "cam"
    = Some (Arr cam) /\
    inner_get (deca_params self) "normalize" "min_val" = Some (Arr min_val) /\
    inner_get (deca_params self) "normalize" "max_val" = Some (Arr max_val) /\
    normalize [shape ++ pose ++ exp ++ cam] (Some min_val) (Some max_val)
      (- bound self)%Q (bound self)
    = Ok ([cond], min_val, max_val) /\
    forall d : deca_dir,
      load_deca_params d (bound self) = Ok (deca_params self) ->
      (exists rows,
          stacked_params d = Ok rows /\
          In (shape ++ pose ++ exp ++ cam) rows /\
          columnwise is_min_of min_val rows /\
          columnwise is_max_of max_val rows) /\
      List.length cond
      = (List.length shape + List.length pose + List.length exp
         + List.length cam)%nat.
Proof.
  intros H.
  apply getitem_Ok_inv in H. destruct H as [raw_q [uvdn_q [arr [Hin _]]]].
  apply getitem_inputs_Ok_inv in Hin.
  destruct Hin as [path [pil [raw_u8 [rng1 [uvp [pil2 [uv_u8 Hin]]]]]]].
  destruct Hin as [Hpath [_ [_ [_ [Hcond _]]]]].
  apply conditioning_Ok_inv in Hcond.
  destruct Hcond as [params [mn [mx [Hp [Hmn [Hmx Hn]]]]]].
  pose proof Hp as Hparts. apply concat_params_Ok_inv in Hparts.
  destruct Hparts as [shape [pose [exp [cam [Hs [Hpo [He [Hc ->]]]]]]]].
  rewrite default_get_inner in Hs, Hpo, He, Hc.
  exists path, shape, pose, exp, cam, mn, mx.
  split; [exact Hpath |]. split; [exact Hs |]. split; [exact Hpo |].
  split; [exact He |]. split; [exact Hc |]. split; [exact Hmn |].
  split; [exact Hmx |]. split; [exact Hn |].
  intros d Hload.
  destruct (loaded_entry_params d (bound self) _ _ _ Hload Hp)
    as [rows [mn0 [mx0 [Hrows [Hin [Hmn0 [Hmx0 [Cmn Cmx]]]]]]]].
  rewrite Hmn in Hmn0. injection Hmn0 as <-.
  rewrite Hmx in Hmx0. injection Hmx0 as <-.
  assert (Lp : List.length (shape ++ pose ++ exp ++ cam) = List.length mn).
  { destruct Cmn as [L _]. rewrite Forall_forall in L. apply L. exact Hin. }
  assert (Lmx : List.length mx = List.length mn).
  { destruct Cmn as [L1 _]. destruct Cmx as [L2 _].
    rewrite Forall_forall in L1, L2.
    rewrite <- (L1 _ Hin), <- (L2 _ Hin). reflexivity. }
  assert (Hgiven := normalize_given [shape ++ pose ++ exp ++ cam] mn mx
                      (- bound self)%Q (bound self) Lmx
                      (Forall_cons _ Lp (Forall_nil _))).
  pose proof (eq_trans (eq_sym Hgiven) Hn) as Hsame.
  simpl in Hsame. injection Hsame as Hc'.
  split.
  - exists rows. split; [exact Hrows | split; [exact Hin | split; assumption]].
  - rewrite <- Hc'. rewrite map3_length by assumption.
    rewrite !length_app. lia.
Qed.

End DatasetFacts.

(** ** Runs on the example data set *)

Lemma augmentation_unsupported_mode_TypeError_witness :
  ~ In (resize_mode (Examples.dataset "stretch" None "raw"))
       ["random_crop"; "center_crop"; "resize"] /\
  exists rng',
    Examples.augmentation_example (Examples.dataset "stretch" None "raw")
      (Examples.picture x00 xff) 0%nat
    = (Raise TypeError, rng').
Proof.
  assert (Hn : ~ In (resize_mode (Examples.dataset "stretch" None "raw"))
                    ["random_crop"; "center_crop"; "resize"]).
  { simpl. intros [E | [E | [E | []]]]; discriminate E. }
  split; [exact Hn |].
  destruct (augmentation_unsupported_mode_TypeError
              (ndarray3 byte) nat Examples.crop_at_random Examples.as_is
              Examples.as_is Examples.draw
              (Examples.dataset "stretch" None "raw")
              (Examples.picture x00 xff) 0%nat (or_introl Hn))
    as [rng' [H _]].
  exists rng'. exact H.
Defined.

Lemma augmentation_random_flip_witness :
  Examples.augmentation_example
    (Examples.dataset "resize" (Some "random_flip") "raw")
    (Examples.picture x00 xff) 0%nat
  = (Ok (flip (Examples.picture x00 xff)), 1%nat) /\
  Examples.augmentation_example
    (Examples.dataset "resize" (Some "random_flip") "raw")
    (Examples.picture x00 xff) 1%nat
  = (Raise TypeError, 2%nat).
Proof.
  split.
  - apply (proj1 (augmentation_random_flip
                    (ndarray3 byte) nat Examples.crop_at_random Examples.as_is
                    Examples.as_is Examples.draw
                    (Examples.dataset "resize" (Some "random_flip") "raw")
                    (Examples.picture x00 xff) 0%nat 0%nat
                    (Examples.picture x00 xff) eq_refl eq_refl)).
    reflexivity.
  - apply (proj2 (augmentation_random_flip
                    (ndarray3 byte) nat Examples.crop_at_random Examples.as_is
                    Examples.as_is Examples.draw
                    (Examples.dataset "resize" (Some "random_flip") "raw")
                    (Examples.picture x00 xff) 1%nat 1%nat
                    (Examples.picture x00 xff) eq_refl eq_refl)).
    discriminate.
Defined.

Lemma getitem_unsupported_in_image_witness :
  ~ In (in_image (Examples.dataset "resize" None "uvdn"))
       ["raw"; "raw+uvdn"] /\
  exists rng',
    Examples.getitem_example (Examples.dataset "resize" None "uvdn") 0 0%nat
    = (Raise NotImplementedError, rng').
Proof.
  assert (Hn : ~ In (in_image (Examples.dataset "resize" None "uvdn"))
                    ["raw"; "raw+uvdn"]).
  { simpl. intros [E | [E | []]]; discriminate E. }
  split; [exact Hn |].
  assert (Hin : exists inputs rng',
             getitem_inputs (ndarray3 byte) nat Examples.open_picture
               Examples.crop_at_random Examples.as_is Examples.as_is
               Examples.draw (Examples.dataset "resize" None "uvdn")
               0 0%nat = (Ok inputs, rng')).
  { eexists. eexists. vm_compute. reflexivity. }
  destruct Hin as [inputs [rng' Hin]].
  exists rng'.
  exact (proj2 (proj2 (getitem_unsupported_in_image
                         (ndarray3 byte) nat Examples.open_picture
                         Examples.crop_at_random Examples.as_is Examples.as_is
                         Examples.draw
                         (Examples.dataset "resize" None "uvdn")
                         0 0%nat Hn)) inputs rng' Hin).
Defined.

Lemma getitem_image_layout_range_witness :
  exists cond image rng',
    Examples.getitem_example
      (Examples.dataset "resize" (Some "flip") "raw+uvdn") 0 0%nat
    = (Ok (cond, image), rng') /\
    dim0 image = 6%nat /\ dim1 image = 1%nat /\ dim2 image = 2%nat /\
    forall c h w, in_shape image c h w -> (-1 <= item image c h w <= 1)%Q.
Proof.
  assert (Hrun : exists cond image rng',
             Examples.getitem_example
               (Examples.dataset "resize" (Some "flip") "raw+uvdn") 0 0%nat
             = (Ok (cond, image), rng') /\
             dim0 image = 6%nat /\ dim1 image = 1%nat /\ dim2 image = 2%nat).
  { eexists. eexists. eexists. split; [vm_compute; reflexivity |].
    repeat split; reflexivity. }
  destruct Hrun as [cond [image [rng' [Hrun [H0 [H1 H2]]]]]].
  exists cond, image, rng'.
  split; [exact Hrun |]. split; [exact H0 |]. split; [exact H1 |].
  split; [exact H2 |].
  destruct (getitem_image_layout_range
              (ndarray3 byte) nat Examples.open_picture Examples.crop_at_random
              Examples.as_is Examples.as_is Examples.draw
              (Examples.dataset "resize" (Some "flip") "raw+uvdn")
              0 0%nat rng' cond image Hrun)
    as [path [pil [rng1 [uvp [pil2 [raw [uvdn H]]]]]]].
  destruct H as [_ [_ [_ [_ [_ [_ [_ [_ H]]]]]]]].
  intros c h w Hs. apply (H c h w Hs).
Defined.

Lemma getitem_conditioning_vector_witness :
  exists cond image rng' shape pose exp cam,
    Examples.getitem_example (Examples.dataset "resize" None "raw") 1 0%nat
    = (Ok (cond, image), rng') /\
    load_deca_params Examples.deca
      (bound (Examples.dataset "resize" None "raw"))
    = Ok (deca_params (Examples.dataset "resize" None "raw")) /\
    inner_get Examples.deca_loaded "1.jpg" "shape" = Some (Arr shape) /\
    inner_get Examples.deca_loaded "1.jpg" "pose" = Some (Arr pose) /\
    inner_get Examples.deca_loaded "1.jpg" "exp" = Some (Arr exp) /\
    inner_get Examples.deca_loaded "1.jpg" "cam" = Some (Arr cam) /\
    List.length cond
    = (List.length shape + List.length pose + List.length exp + List.length cam)%nat /\
    List.length cond = 5%nat.
Proof.
  assert (Hload : load_deca_params Examples.deca
                    (bound (Examples.dataset "resize" None "raw"))
                  = Ok (deca_params (Examples.dataset "resize" None "raw"))).
  { vm_compute. reflexivity. }
  assert (Hrun : exists cond image rng',
             Examples.getitem_example
               (Examples.dataset "resize" None "raw") 1 0%nat
             = (Ok (cond, image), rng') /\ List.length cond = 5%nat).
  { eexists. eexists. eexists. split; [vm_compute; reflexivity | reflexivity]. }
  destruct Hrun as [cond [image [rng' [Hrun Hlen]]]].
  destruct (getitem_conditioning_vector
              (ndarray3 byte) nat Examples.open_picture Examples.crop_at_random
              Examples.as_is Examples.as_is Examples.draw
              (Examples.dataset "resize" None "raw")
              1 0%nat rng' cond image Hrun)
    as [path [shape [pose [exp [cam [mn [mx H]]]]]]].
  destruct H as [Hpath [Hs [Hp [He [Hc [_ [_ [_ HL]]]]]]]].
  destruct (HL Examples.deca Hload) as [_ HL'].
  assert (Epath : path = "data/1.jpg").
  { vm_compute in Hpath. injection Hpath as <-. reflexivity. }
  subst path.
  exists cond, image, rng', shape, pose, exp, cam.
  split; [exact Hrun |]. split; [exact Hload |]. split; [exact Hs |].
  split; [exact Hp |]. split; [exact He |]. split; [exact Hc |].
  split; [exact HL' | exact Hlen].
Defined.

(** C6 (as stated, refuted).  For a data set whose dict was not built by
    [load_deca_params], the length need not be the sum: with statistics of
    three coordinates and an image whose four groups have one coordinate in
    all, numpy's broadcasting answers with a conditioning vector of three
    coordinates. *)
Lemma getitem_conditioning_length_not_sum :
  exists cond image rng' shape pose exp cam,
    Examples.getitem_example Examples.dataset_odd_statistics 0 0%nat
    = (Ok (cond, image), rng') /\
    inner_get (deca_params Examples.dataset_odd_statistics) "0.jpg" "shape"
    = Some (Arr shape) /\
    inner_get (deca_params Examples.dataset_odd_statistics) "0.jpg" "pose"
    = Some (Arr pose) /\
    inner_get (deca_params Examples.dataset_odd_statistics) "0.jpg" "exp"
    = Some (Arr exp) /\
    inner_get (deca_params Examples.dataset_odd_statistics) "0.jpg" "cam"
    = Some (Arr cam) /\
    (List.length shape + List.length pose + List.length exp + List.length cam
     = 1)%nat /\
    List.length cond = 3%nat.
Proof.
  eexists. eexists. eexists. eexists. eexists. eexists. eexists.
  split; [vm_compute; reflexivity |].
  split; [reflexivity |]. split; [reflexivity |].
  split; [reflexivity |]. split; [reflexivity |].
  split; reflexivity.
Qed.

Lemma getitem_returns_witness :
  exists cond image rng',
    Examples.getitem_example (Examples.dataset "center_crop" (Some "flip") "raw")
      0 0%nat
    = (Ok (cond, image), rng') /\
    Forall2 Qeq cond [-1; 1; -1; 1; -1]%Q.
Proof.
  assert (Hc : exists cond,
             conditioning (Examples.dataset "center_crop" (Some "flip") "raw")
               (last_piece (str_split "/"%char "data/0.jpg")) = Ok cond /\
             Forall2 Qeq cond [-1; 1; -1; 1; -1]%Q).
  { eexists. split; [vm_compute; reflexivity | repeat constructor]. }
  destruct Hc as [cond [Hc Hq]].
  destruct (getitem_returns
              (ndarray3 byte) nat Examples.open_picture Examples.crop_at_random
              Examples.as_is Examples.as_is Examples.draw
              (Examples.dataset "center_crop" (Some "flip") "raw") 0 0%nat
              "data/0.jpg" "deca/uv_detail_normals/train/uvdn_0.png"
              (Examples.picture x00 xff) (Examples.picture x10 x20) cond)
    as [image [rng' H]].
  - simpl. tauto.
  - simpl. tauto.
  - reflexivity.
  - reflexivity.
  - reflexivity.
  - exact Hc.
  - vm_compute. reflexivity.
  - reflexivity.
  - exists cond, image, rng'. split; [exact H | exact Hq].
Defined.

(** * Further properties of the two files *)

(** ** script_util.py: the pipelines *)

Section PipelineFacts.

Context {Betas Timesteps : Type}.
Variable get_named_beta_schedule : string -> Z -> result Betas.
Variable space_timesteps : Z -> list Z -> result Timesteps.
Variable int : string -> option Z.

(** None of the three pipelines returns when the respacing token of the
    diffusion configuration is not empty, whatever the model configurations
    are: each ends in [create_gaussian_diffusion], which then builds no
    diffusion. *)
Theorem pipelines_need_empty_respacing (cfg : PipelineCfg) :
  timestep_respacing (diffusion cfg) <> "" ->
  (forall r,
      create_img_deca_and_diffusion get_named_beta_schedule space_timesteps int cfg
      <> Ok r) /\
  (forall r,
      create_deca_and_diffusion get_named_beta_schedule space_timesteps cfg <> Ok r) /\
  (forall r,
      create_img_and_diffusion get_named_beta_schedule space_timesteps int cfg
      <> Ok r).
Proof.
  intros Hne.
  assert (Hd : forall d,
             create_gaussian_diffusion get_named_beta_schedule space_timesteps
               (diffusion cfg) <> Ok d).
  { intros d Hd. apply create_gaussian_diffusion_Ok_inv in Hd.
    destruct Hd as [He _]. exact (Hne He). }
  split; [| split].
  - intros r H. unfold create_img_deca_and_diffusion in H.
    apply bind_Ok_inv in H. destruct H as [m [_ H]].
    apply bind_Ok_inv in H. destruct H as [pm [_ H]].
    apply bind_Ok_inv in H. destruct H as [d [H _]]. exact (Hd d H).
  - intros r H. unfold create_deca_and_diffusion in H.
    apply bind_Ok_inv in H. destruct H as [pm [_ H]].
    apply bind_Ok_inv in H. destruct H as [d [H _]]. exact (Hd d H).
  - intros r H. unfold create_img_and_diffusion in H.
    apply bind_Ok_inv in H. destruct H as [m [_ H]].
    apply bind_Ok_inv in H. destruct H as [d [H _]]. exact (Hd d H).
Qed.

(** [create_img_deca_and_diffusion] returns the triple of what the three
    constructors return, and exactly when all three return; otherwise it
    raises the exception of the first one that fails, in the order image
    model, parameter model, diffusion. *)
Theorem create_img_deca_and_diffusion_first_failure (cfg : PipelineCfg) :
  (forall m pm d,
      create_img_deca_and_diffusion get_named_beta_schedule space_timesteps int cfg
      = Ok (m, pm, d) <->
      create_model int (img_model cfg) = Ok m /\
      create_param_model (param_model cfg) = Ok pm /\
      create_gaussian_diffusion get_named_beta_schedule space_timesteps
        (diffusion cfg) = Ok d) /\
  (forall e,
      create_img_deca_and_diffusion get_named_beta_schedule space_timesteps int cfg
      = Raise e <->
      create_model int (img_model cfg) = Raise e \/
      (exists m,
          create_model int (img_model cfg) = Ok m /\
          (create_param_model (param_model cfg) = Raise e \/
           exists pm,
             create_param_model (param_model cfg) = Ok pm /\
             create_gaussian_diffusion get_named_beta_schedule space_timesteps
               (diffusion cfg) = Raise e))).
Proof.
  unfold create_img_deca_and_diffusion.
  destruct (create_model int (img_model cfg)) as [m0 | e0]; simpl.
  - destruct (create_param_model (param_model cfg)) as [pm0 | e1]; simpl.
    + destruct (create_gaussian_diffusion get_named_beta_schedule space_timesteps
                  (diffusion cfg)) as [d0 | e2]; simpl.
      * split.
        -- intros m pm d. split.
           ++ intros H. injection H as <- <- <-. repeat split; reflexivity.
           ++ intros [H1 [H2 H3]]. injection H1 as <-. injection H2 as <-.
              injection H3 as <-. reflexivity.
        -- intros e. split; [discriminate |].
           intros [H | [m [_ [H | [pm [_ H]]]]]]; discriminate H.
      * split.
        -- intros m pm d. split; [discriminate |].
           intros [_ [_ H]]. discriminate H.
        -- intros e. split.
           ++ intros H. injection H as <-. right. exists m0.
              split; [reflexivity |]. right. exists pm0. split; reflexivity.
           ++ intros [H | [m [_ [H | [pm [_ H]]]]]]; try discriminate H.
              injection H as <-. reflexivity.
    + split.
      * intros m pm d. split; [discriminate |].
        intros [_ [H _]]. discriminate H.
      * intros e. split.
        -- intros H. injection H as <-. right. exists m0.
           split; [reflexivity |]. left. reflexivity.
        -- intros [H | [m [_ [H | [pm [H _]]]]]]; try discriminate H.
           injection H as <-. reflexivity.
  - split.
    + intros m pm d. split; [discriminate |]. intros [H _]. discriminate H.
    + intros e. split.
      * intros H. injection H as <-. left. reflexivity.
      * intros [H | [m [H _]]]; [| discriminate H].
        injection H as <-. reflexivity.
Qed.

End PipelineFacts.

Lemma pipelines_need_empty_respacing_witness :
  timestep_respacing (diffusion (Examples.pipeline_cfg "UNet" "ddim25")) <> "" /\
  create_img_deca_and_diffusion Examples.named_beta_schedule Examples.every_step
    Examples.int_decimal (Examples.pipeline_cfg "UNet" "ddim25")
  = Raise UnboundLocalError /\
  forall r,
    create_img_and_diffusion Examples.named_beta_schedule Examples.every_step
      Examples.int_decimal (Examples.pipeline_cfg "UNet" "ddim25") <> Ok r.
Proof.
  assert (Hne : timestep_respacing (diffusion (Examples.pipeline_cfg "UNet" "ddim25"))
                <> "").
  { discriminate. }
  split; [exact Hne |]. split; [reflexivity |].
  exact (proj2 (proj2 (pipelines_need_empty_respacing
                         Examples.named_beta_schedule Examples.every_step
                         Examples.int_decimal
                         (Examples.pipeline_cfg "UNet" "ddim25") Hne))).
Defined.

Lemma create_img_deca_and_diffusion_first_failure_witness :
  create_img_deca_and_diffusion Examples.named_beta_schedule Examples.every_step
    Examples.int_decimal (Examples.pipeline_cfg "ViT" "ddim25")
  = Raise NotImplementedError /\
  exists r,
    create_img_deca_and_diffusion Examples.named_beta_schedule Examples.every_step
      Examples.int_decimal (Examples.pipeline_cfg "UNet" "") = Ok r.
Proof.
  split.
  - apply (proj2 (create_img_deca_and_diffusion_first_failure
                    Examples.named_beta_schedule Examples.every_step
                    Examples.int_decimal (Examples.pipeline_cfg "ViT" "ddim25"))).
    left. reflexivity.
  - eexists.
    apply (proj1 (create_img_deca_and_diffusion_first_failure
                    Examples.named_beta_schedule Examples.every_step
                    Examples.int_decimal (Examples.pipeline_cfg "UNet" ""))).
    repeat split; reflexivity.
Defined.

(** ** script_util.py: [str2bool] and [args_to_dict] *)

Lemma lower_char_same_letter (c d : ascii) :
  same_letter c d -> lower_char c = lower_char d.
Proof.
  unfold same_letter, lower_char. intros [H | [[Hc H] | [Hd H]]].
  - assert (E : c = d).
    { rewrite <- (ascii_nat_embedding c), <- (ascii_nat_embedding d), H.
      reflexivity. }
    rewrite E. reflexivity.
  - rewrite H.
    replace (Nat.leb 65 (nat_of_ascii c) && Nat.leb (nat_of_ascii c) 90) with true.
    + replace (Nat.leb 65 (nat_of_ascii c + 32) && Nat.leb (nat_of_ascii c + 32) 90)
        with false.
      * rewrite <- H. apply ascii_nat_embedding.
      * symmetry. apply andb_false_iff. right. apply Nat.leb_gt. lia.
    + symmetry. apply andb_true_iff. split; apply Nat.leb_le; lia.
  - rewrite H.
    replace (Nat.leb 65 (nat_of_ascii d) && Nat.leb (nat_of_ascii d) 90) with true.
    + replace (Nat.leb 65 (nat_of_ascii d + 32) && Nat.leb (nat_of_ascii d + 32) 90)
        with false.
      * rewrite <- H. symmetry. apply ascii_nat_embedding.
      * symmetry. apply andb_false_iff. right. apply Nat.leb_gt. lia.
    + symmetry. apply andb_true_iff. split; apply Nat.leb_le; lia.
Qed.

Lemma str_lower_same_up_to_case (s t : string) :
  same_up_to_case s t -> str_lower s = str_lower t.
Proof.
  induction 1 as [| c d s t Hcd _ IH]; simpl.
  - reflexivity.
  - rewrite (lower_char_same_letter c d Hcd), IH. reflexivity.
Qed.

(** [str2bool] does not look at the case of the letters: two strings that
    differ in case only get the same answer, be it [True], [False] or the
    [ArgumentTypeError]. *)
Theorem str2bool_ignores_case (s t : string) :
  same_up_to_case s t -> str2bool (FlagStr s) = str2bool (FlagStr t).
Proof.
  intros H. unfold str2bool. rewrite (str_lower_same_up_to_case s t H).
  reflexivity.
Qed.

Lemma str2bool_ignores_case_witness :
  same_up_to_case "TrUe" "true" /\
  str2bool (FlagStr "TrUe") = Returned true /\
  str2bool (FlagStr "NO") = Returned false /\
  str2bool (FlagStr "maybe") = Raised ArgumentTypeError.
Proof.
  assert (H : same_up_to_case "TrUe" "true").
  { repeat constructor; unfold same_letter; simpl; lia. }
  split; [exact H |]. split; [| split; reflexivity].
  rewrite (str2bool_ignores_case "TrUe" "true" H). reflexivity.
Defined.

Lemma getattr_setitem_same {V : Type} (d : list (string * V)) (k : string) (v : V) :
  getattr (setitem d k v) k = Returned v.
Proof.
  induction d as [| [k0 v0] d IH]; simpl.
  - rewrite String.eqb_refl. reflexivity.
  - destruct (String.eqb k0 k) eqn:E; simpl; rewrite E; [reflexivity | exact IH].
Qed.

Lemma getattr_setitem_other {V : Type} (d : list (string * V)) (k k' : string)
  (v : V) :
  k <> k' -> getattr (setitem d k v) k' = getattr d k'.
Proof.
  intros Hk. induction d as [| [k0 v0] d IH]; simpl.
  - rewrite (eqb_neq_false _ _ Hk). reflexivity.
  - destruct (String.eqb k0 k) eqn:E; simpl.
    + apply String.eqb_eq in E. subst k0.
      rewrite (eqb_neq_false _ _ Hk). reflexivity.
    + destruct (String.eqb k0 k'); [reflexivity | exact IH].
Qed.

Lemma getattr_Raised {V : Type} (args : list (string * V)) (k : string)
  (e : util_exn) :
  getattr args k = Raised e -> e = AttributeError.
Proof.
  induction args as [| [k0 v0] args IH]; simpl.
  - intros H. injection H as <-. reflexivity.
  - destruct (String.eqb k0 k); [discriminate | exact IH].
Qed.

Lemma args_to_dict_from_Returned {V : Type} (args : list (string * V))
  (keys : list string) :
  forall d0 d,
    args_to_dict_from d0 args keys = Returned d ->
    (forall k, In k keys -> getattr d k = getattr args k) /\
    (forall k, ~ In k keys -> getattr d k = getattr d0 k).
Proof.
  induction keys as [| k0 keys IH]; simpl; intros d0 d H.
  - injection H as <-. split; [intros k [] | reflexivity].
  - destruct (getattr args k0) as [v |] eqn:Hv; [| discriminate H].
    destruct (IH _ _ H) as [Hin Hout]. split.
    + intros k [<- | Hk].
      * destruct (in_dec string_dec k0 keys) as [Hk | Hk].
        -- apply Hin. exact Hk.
        -- rewrite (Hout k0 Hk), getattr_setitem_same, Hv. reflexivity.
      * apply Hin. exact Hk.
    + intros k Hk. rewrite Hout by tauto.
      apply getattr_setitem_other. intros E. apply Hk. left. exact E.
Qed.

Lemma args_to_dict_from_Raised {V : Type} (args : list (string * V))
  (keys : list string) :
  forall d0 e,
    args_to_dict_from d0 args keys = Raised e <->
    e = AttributeError /\
    exists k, In k keys /\ getattr args k = Raised AttributeError.
Proof.
  induction keys as [| k0 keys IH]; simpl; intros d0 e.
  - split; [discriminate | intros [_ [k [[] _]]]].
  - destruct (getattr args k0) as [v | e0] eqn:Hv.
    + rewrite IH. split.
      * intros [He [k [Hk Hr]]]. split; [exact He |].
        exists k. split; [right; exact Hk | exact Hr].
      * intros [He [k [[<- | Hk] Hr]]].
        -- rewrite Hv in Hr. discriminate Hr.
        -- split; [exact He |]. exists k. split; assumption.
    + pose proof (getattr_Raised _ _ _ Hv) as ->. split.
      * intros H. injection H as <-. split; [reflexivity |].
        exists k0. split; [left; reflexivity | exact Hv].
      * intros [-> _]. reflexivity.
Qed.

(** [args_to_dict] restricts the namespace to the keys: the dict it returns
    answers every listed key with the value of that attribute and has no
    other key; it raises [AttributeError], and nothing else, exactly when
    some listed key is no attribute of the namespace. *)
Theorem args_to_dict_restricts {V : Type} (args : list (string * V))
  (keys : list string) :
  (forall d,
      args_to_dict args keys = Returned d ->
      (forall k, In k keys -> exists v, getattr args k = Returned v /\
                                        getattr d k = Returned v) /\
      (forall k, ~ In k keys -> getattr d k = Raised AttributeError)) /\
  (forall e,
      args_to_dict args keys = Raised e <->
      e = AttributeError /\
      exists k, In k keys /\ getattr args k = Raised AttributeError).
Proof.
  split.
  - intros d H. unfold args_to_dict in H.
    destruct (args_to_dict_from_Returned args keys [] d H) as [Hin Hout].
    split.
    + intros k Hk. destruct (getattr args k) as [v | e] eqn:Hv.
      * exists v. split; [reflexivity |]. rewrite (Hin k Hk). exact Hv.
      * exfalso. pose proof (getattr_Raised _ _ _ Hv) as ->.
        assert (Hr : args_to_dict_from [] args keys = Raised AttributeError).
        { apply args_to_dict_from_Raised. split; [reflexivity |].
          exists k. split; assumption. }
        rewrite Hr in H. discriminate H.
    + intros k Hk. rewrite (Hout k Hk). reflexivity.
  - intros e. apply args_to_dict_from_Raised.
Qed.

Lemma args_to_dict_restricts_witness :
  args_to_dict [("lr", 3); ("steps", 1000); ("seed", 42)] ["steps"; "lr"; "steps"]
  = Returned [("steps", 1000); ("lr", 3)] /\
  args_to_dict [("lr", 3); ("steps", 1000)] ["lr"; "seed"] = Raised AttributeError.
Proof.
  split; [reflexivity |].
  apply (proj2 (args_to_dict_restricts [("lr", 3); ("steps", 1000)] ["lr"; "seed"])).
  split; [reflexivity |]. exists "seed". split; [simpl; tauto | reflexivity].
Defined.

(** ** deca_datasets.py: [_list_image_files_recursively] *)

Example is_image_entry_upper_case : is_image_entry "B.PNG" = true.
Proof. reflexivity. Qed.

Example is_image_entry_needs_a_dot : is_image_entry "jpg" = false.
Proof. reflexivity. Qed.

Example is_image_entry_last_extension : is_image_entry "a.jpg.txt" = false.
Proof. reflexivity. Qed.

Example list_image_files_of_data :
  _list_image_files_recursively Examples.path_join "data" Examples.data
  = Ok ["data/a.jpg"; "data/b.PNG"; "data/sub/2.jpeg"; "data/x.gif"].
Proof. reflexivity. Qed.

Lemma node_induction (P : node -> Prop) :
  P File ->
  (forall entries, Forall (fun ec => P (snd ec)) entries -> P (Dir entries)) ->
  forall n, P n.
Proof.
  intros HF HD. fix IH 1. intros [| entries].
  - exact HF.
  - apply HD. induction entries as [| [entry child] entries IHes].
    + constructor.
    + constructor; [apply IH | exact IHes].
Qed.

Section SortFacts.

Context {X : Type}.

Lemma insert_by_name_perm (e : string * X) (l : list (string * X)) :
  Permutation (insert_by_name e l) (e :: l).
Proof.
  induction l as [| h t IH]; simpl.
  - apply Permutation_refl.
  - destruct (String.leb (fst e) (fst h)).
    + apply Permutation_refl.
    + apply perm_trans with (h :: e :: t).
      * apply perm_skip. exact IH.
      * apply perm_swap.
Qed.

Lemma sorted_by_name_perm (l : list (string * X)) :
  Permutation (sorted_by_name l) l.
Proof.
  induction l as [| h t IH]; simpl.
  - apply perm_nil.
  - apply perm_trans with (h :: sorted_by_name t).
    + apply insert_by_name_perm.
    + apply perm_skip. exact IH.
Qed.

Lemma sorted_by_name_In (x : string * X) (l : list (string * X)) :
  In x (sorted_by_name l) <-> In x l.
Proof.
  split; apply Permutation_in.
  - apply sorted_by_name_perm.
  - apply Permutation_sym. apply sorted_by_name_perm.
Qed.

End SortFacts.

Section ListingFacts.

Variable join : string -> string -> string.

Lemma image_files_below_sound :
  forall n data_dir path,
    In path (image_files_below join data_dir n) ->
    lists_image join data_dir n path.
Proof.
  induction n as [| entries IH] using node_induction; intros data_dir path Hin.
  - contradiction.
  - simpl in Hin. apply in_flat_map in Hin. destruct Hin as [x [Hx Hp]].
    apply (proj1 (sorted_by_name_In _ _)) in Hx. apply in_map_iff in Hx.
    destruct Hx as [[entry child] [<- Hec]].
    unfold entry_results in Hp.
    destruct (is_image_entry entry) eqn:Himg.
    + destruct Hp as [<- | []]. apply (lists_entry join _ _ entry child); assumption.
    + simpl in Hp. destruct child as [| below]; simpl in Hp; [contradiction |].
      apply (lists_below join _ _ entry below); try assumption.
      rewrite Forall_forall in IH. apply (IH (entry, Dir below) Hec).
      exact Hp.
Qed.

Lemma image_files_below_complete :
  forall data_dir n path,
    lists_image join data_dir n path ->
    In path (image_files_below join data_dir n).
Proof.
  intros data_dir n path H.
  induction H as [data_dir entries entry child Hec Himg
                 | data_dir entries entry below path Hec Himg _ IH].
  - simpl. apply in_flat_map.
    exists (entry, (is_dir child, image_files_below join (join data_dir entry) child)).
    split.
    + apply sorted_by_name_In. apply in_map_iff.
      exists (entry, child). split; [reflexivity | exact Hec].
    + unfold entry_results. rewrite Himg. left. reflexivity.
  - simpl. apply in_flat_map.
    exists (entry, (true, image_files_below join (join data_dir entry) (Dir below))).
    split.
    + apply sorted_by_name_In. apply in_map_iff.
      exists (entry, Dir below). split; [reflexivity | exact Hec].
    + unfold entry_results. rewrite Himg. simpl. exact IH.
Qed.

(** On a directory the listing returns, and its paths are these and no
    others: the joined path of every entry whose name has a dot and, after
    the last dot, one of jpg, jpeg, png, gif in any case (be the entry a
    file or a directory), and the paths listed in every directory whose
    name fails that test.  On anything else [listdir] raises. *)
Theorem list_image_files_membership (data_dir : string)
  (entries : list (string * node)) :
  _list_image_files_recursively join data_dir File = Raise OSError /\
  exists paths,
    _list_image_files_recursively join data_dir (Dir entries) = Ok paths /\
    forall path,
      In path paths <-> lists_image join data_dir (Dir entries) path.
Proof.
  split; [reflexivity |].
  eexists. split; [reflexivity |].
  intros path. split.
  - apply image_files_below_sound.
  - apply image_files_below_complete.
Qed.

End ListingFacts.

Lemma string_compare_not_Gt_trans (s1 : string) :
  forall s2 s3,
    String.compare s1 s2 <> Gt -> String.compare s2 s3 <> Gt ->
    String.compare s1 s3 <> Gt.
Proof.
  induction s1 as [| a s1 IH]; intros [| b s2] [| c s3]; simpl;
    try congruence.
  unfold Ascii.compare.
  destruct (N.compare_spec (N_of_ascii a) (N_of_ascii b)) as [Eab | Lab | Gab];
    destruct (N.compare_spec (N_of_ascii b) (N_of_ascii c)) as [Ebc | Lbc | Gbc];
    destruct (N.compare_spec (N_of_ascii a) (N_of_ascii c)) as [Eac | Lac | Gac];
    try congruence; try lia.
  apply IH.
Qed.

Lemma string_leb_trans (s1 s2 s3 : string) :
  String.leb s1 s2 = true -> String.leb s2 s3 = true -> String.leb s1 s3 = true.
Proof.
  unfold String.leb. intros H12 H23.
  pose proof (string_compare_not_Gt_trans s1 s2 s3) as H.
  destruct (String.compare s1 s2); destruct (String.compare s2 s3);
    destruct (String.compare s1 s3); try reflexivity; try discriminate;
    exfalso; apply H; congruence.
Qed.

Section SortedFacts.

Context {X : Type}.

Lemma insert_by_name_sorted (e : string * X) (l : list (string * X)) :
  StronglySorted name_le l -> StronglySorted name_le (insert_by_name e l).
Proof.
  induction 1 as [| h t Hs IH Hall]; simpl.
  - constructor; constructor.
  - destruct (String.leb (fst e) (fst h)) eqn:E.
    + constructor; [constructor; assumption |].
      constructor; [exact E |].
      eapply Forall_impl; [| exact Hall]. intros x Hx.
      unfold name_le in *. eapply string_leb_trans; eassumption.
    + constructor; [exact IH |].
      apply (Permutation_Forall (Permutation_sym (insert_by_name_perm e t))).
      constructor; [| exact Hall].
      unfold name_le. destruct (String.leb_total (fst h) (fst e)) as [H | H];
        [exact H | congruence].
Qed.

Lemma sorted_by_name_sorted (l : list (string * X)) :
  StronglySorted name_le (sorted_by_name l).
Proof.
  induction l as [| h t IH]; simpl.
  - constructor.
  - apply insert_by_name_sorted. exact IH.
Qed.

(** Two sorted lists with the same elements, no two of one name, are the
    same list. *)
Lemma sorted_perm_unique (l1 : list (string * X)) :
  forall l2,
    StronglySorted name_le l1 -> StronglySorted name_le l2 ->
    Permutation l1 l2 -> NoDup (map fst l1) -> l1 = l2.
Proof.
  induction l1 as [| a l1 IH]; intros l2 S1 S2 Hp Hn.
  - apply Permutation_nil in Hp. symmetry. exact Hp.
  - destruct l2 as [| b l2].
    + apply Permutation_sym, Permutation_nil in Hp. discriminate Hp.
    + inversion S1 as [| ? ? S1' A1]; subst.
      inversion S2 as [| ? ? S2' A2]; subst.
      inversion Hn as [| ? ? Hnotin Hn']; subst.
      assert (Eab : a = b).
      { assert (Ha : In a (b :: l2)).
        { apply (Permutation_in _ Hp). left. reflexivity. }
        assert (Hb : In b (a :: l1)).
        { apply (Permutation_in _ (Permutation_sym Hp)). left. reflexivity. }
        destruct Ha as [Ha | Ha]; [symmetry; exact Ha |].
        destruct Hb as [Hb | Hb]; [exact Hb |].
        exfalso. apply Hnotin.
        rewrite Forall_forall in A1, A2.
        assert (E : fst a = fst b).
        { apply String.leb_antisym; [apply (A1 b Hb) | apply (A2 a Ha)]. }
        rewrite E. apply in_map. exact Hb. }
      subst b. f_equal. apply IH; try assumption.
      apply Permutation_cons_inv with a. exact Hp.
Qed.

Lemma sorted_by_name_unique (l l' : list (string * X)) :
  Permutation l l' -> NoDup (map fst l) -> sorted_by_name l = sorted_by_name l'.
Proof.
  intros Hp Hn. apply sorted_perm_unique.
  - apply sorted_by_name_sorted.
  - apply sorted_by_name_sorted.
  - apply perm_trans with l; [apply sorted_by_name_perm |].
    apply perm_trans with l'; [exact Hp |].
    apply Permutation_sym. apply sorted_by_name_perm.
  - apply (Permutation_NoDup (l := map fst l)); [| exact Hn].
    apply Permutation_map. apply Permutation_sym. apply sorted_by_name_perm.
Qed.

End SortedFacts.

Lemma relisted_is_dir (n n' : node) : relisted n n' -> is_dir n = is_dir n'.
Proof. intros H. destruct H; reflexivity. Qed.

Section ListingOrderFacts.

Variable join : string -> string -> string.

Local Abbreviation listed_in data_dir :=
  (fun ec : string * node =>
     let (entry, child) := ec in
     (entry, (is_dir child, image_files_below join (join data_dir entry) child))).

Lemma image_files_below_relisted :
  forall n n' data_dir,
    relisted n n' -> distinct_names n ->
    image_files_below join data_dir n = image_files_below join data_dir n'.
Proof.
  induction n as [| entries IH] using node_induction;
    intros n' data_dir Hr Hd.
  - inversion Hr. reflexivity.
  - inversion Hr as [| es es' es'' Hsame Hperm]; subst.
    inversion Hd as [| es Hnames Hkids]; subst.
    simpl.
    assert (Hmap : map (listed_in data_dir) entries = map (listed_in data_dir) es').
    { clear Hperm Hr Hd Hnames.
      induction Hsame as [| [e c] [e' c'] es0 es0' [He Hc] _ IHs]; simpl.
      - reflexivity.
      - simpl in He, Hc. subst e'.
        inversion IH as [| ? ? IHc IHrest]; subst.
        inversion Hkids as [| ? ? Hdc Hdrest]; subst.
        simpl in IHc, Hdc.
        rewrite (relisted_is_dir c c' Hc), (IHc c' (join data_dir e) Hc Hdc).
        f_equal. apply IHs; assumption. }
    assert (Hfst : map fst (map (listed_in data_dir) es') = map fst entries).
    { rewrite <- Hmap, map_map. apply map_ext. intros [e c]. reflexivity. }
    rewrite Hmap.
    rewrite (sorted_by_name_unique (map (listed_in data_dir) es')
               (map (listed_in data_dir) es'')).
    + reflexivity.
    + apply Permutation_map. exact Hperm.
    + rewrite Hfst. exact Hnames.
Qed.

(** The listing does not depend on the order in which [listdir] yields the
    entries of any directory of the tree, as long as no directory has two
    entries of one name. *)
Theorem list_image_files_ignores_listdir_order (n n' : node) (data_dir : string) :
  relisted n n' -> distinct_names n ->
  _list_image_files_recursively join data_dir n
  = _list_image_files_recursively join data_dir n'.
Proof.
  intros Hr Hd. unfold _list_image_files_recursively.
  rewrite (image_files_below_relisted n n' data_dir Hr Hd).
  destruct Hr; reflexivity.
Qed.

End ListingOrderFacts.

Lemma list_image_files_ignores_listdir_order_witness :
  relisted Examples.tree Examples.tree_relisted /\
  distinct_names Examples.tree /\
  _list_image_files_recursively Examples.path_join "data" Examples.tree
  = Ok ["data/a.jpg"; "data/b.png"; "data/sub/1.jpg"; "data/sub/2.jpg"] /\
  _list_image_files_recursively Examples.path_join "data" Examples.tree
  = _list_image_files_recursively Examples.path_join "data" Examples.tree_relisted.
Proof.
  assert (Hr : relisted Examples.tree Examples.tree_relisted).
  { apply relisted_dir
      with (entries' := [("b.png", File);
                         ("sub", Dir [("1.jpg", File); ("2.jpg", File)]);
                         ("a.jpg", File)]).
    - constructor; [split; [reflexivity | constructor] |].
      constructor; [split; [reflexivity |] |].
      + apply relisted_dir with (entries' := [("2.jpg", File); ("1.jpg", File)]).
        * repeat (constructor; [split; [reflexivity | constructor] |]).
          constructor.
        * apply perm_swap.
      + constructor; [split; [reflexivity | constructor] | constructor].
    - apply perm_trans
        with [("b.png", File); ("a.jpg", File);
              ("sub", Dir [("1.jpg", File); ("2.jpg", File)])].
      + apply perm_skip. apply perm_swap.
      + apply perm_swap. }
  assert (Hd : distinct_names Examples.tree).
  { constructor; [distinct_literals |].
    constructor; [simpl; constructor |].
    constructor; [| constructor; [simpl; constructor | constructor]].
    simpl. constructor; [distinct_literals |].
    repeat (constructor; [simpl; constructor |]). constructor. }
  split; [exact Hr |]. split; [exact Hd |]. split; [reflexivity |].
  exact (list_image_files_ignores_listdir_order Examples.path_join
           Examples.tree Examples.tree_relisted "data" Hr Hd).
Defined.

(** ** deca_datasets.py: [swap_key] and the dict of [load_deca_params] *)

Lemma inner_get_set_inner (d : dict entry) (k1 k2 a b : string) (v : value) :
  inner_get (set_inner d k1 k2 v) a b
  = if String.eqb k1 a && String.eqb k2 b then Some v else inner_get d a b.
Proof.
  unfold set_inner. rewrite inner_get_dict_set.
  destruct (String.eqb_spec k1 a) as [<- | _]; simpl; [| reflexivity].
  destruct (String.eqb_spec k2 b) as [<- | Hb].
  - apply dict_get_set_same.
  - rewrite (dict_get_set_other _ k2 b v Hb). apply default_get_inner.
Qed.

Lemma dict_get_not_key {V : Type} (d : dict V) (k : string) :
  ~ In k (map fst d) -> dict_get d k = None.
Proof.
  induction d as [| [k0 v0] d IH]; simpl; intros H.
  - reflexivity.
  - destruct (String.eqb_spec k0 k) as [E | _].
    + exfalso. apply H. left. exact E.
    + apply IH. intros Hin. apply H. right. exact Hin.
Qed.

Lemma dict_get_of_In {V : Type} (d : dict V) (k : string) (v : V) :
  distinct_keys d -> In (k, v) d -> dict_get d k = Some v.
Proof.
  unfold distinct_keys. induction d as [| [k0 v0] d IH]; simpl; intros Hn Hin.
  - contradiction.
  - inversion Hn as [| ? ? Hnot Hn']; subst.
    destruct Hin as [E | Hin].
    + injection E as -> ->. rewrite String.eqb_refl. reflexivity.
    + destruct (String.eqb_spec k0 k) as [-> | _].
      * exfalso. apply Hnot. apply (in_map fst _ _ Hin).
      * apply IH; assumption.
Qed.

Lemma dict_set_keys {V : Type} (d : dict V) (k k' : string) (v : V) :
  In k' (map fst (dict_set d k v)) <-> k' = k \/ In k' (map fst d).
Proof.
  induction d as [| [k0 v0] d IH]; simpl.
  - split; [intros [<- | []]; left; reflexivity | intros [-> | []]; left; reflexivity].
  - destruct (String.eqb_spec k0 k) as [-> | Hne]; simpl.
    + split; [intros H; right; exact H | intros [-> | H]; [left; reflexivity | exact H]].
    + rewrite IH. tauto.
Qed.

Lemma dict_set_distinct_keys {V : Type} (d : dict V) (k : string) (v : V) :
  distinct_keys d -> distinct_keys (dict_set d k v).
Proof.
  unfold distinct_keys. induction d as [| [k0 v0] d IH]; simpl; intros Hn.
  - constructor; [intros [] | constructor].
  - inversion Hn as [| ? ? Hnot Hn']; subst.
    destruct (String.eqb_spec k0 k) as [-> | Hne]; simpl.
    + constructor; assumption.
    + constructor; [| apply IH; exact Hn'].
      intros Hin. apply dict_set_keys in Hin. destruct Hin as [E | Hin].
      * apply Hne. exact E.
      * apply Hnot. exact Hin.
Qed.

(** Lines 33-34 for the table of one parameter name. *)
Lemma swap_key_table (params_name : string) (table : dict (list Q)) :
  distinct_keys table ->
  forall (acc : dict entry) (a b : string),
    inner_get
      (fold_left
         (fun acc (img : string * list Q) =>
            let (img_name, params_value) := img in
            set_inner acc img_name params_name (Arr params_value))
         table acc) a b
    = if String.eqb params_name b
      then match dict_get table a with
           | Some x => Some (Arr x)
           | None => inner_get acc a b
           end
      else inner_get acc a b.
Proof.
  unfold distinct_keys.
  induction table as [| [i x] table IH]; simpl; intros Hn acc a b.
  - destruct (String.eqb params_name b); reflexivity.
  - inversion Hn as [| ? ? Hnot Hn']; subst.
    rewrite (IH Hn'), inner_get_set_inner.
    destruct (String.eqb params_name b); simpl.
    + destruct (String.eqb_spec i a) as [<- | _]; simpl.
      * rewrite (dict_get_not_key table i Hnot). reflexivity.
      * reflexivity.
    + rewrite andb_false_r. reflexivity.
Qed.

Lemma swap_key_from (params : dict (dict (list Q))) :
  distinct_keys params ->
  Forall (fun item => distinct_keys (snd item)) params ->
  forall (acc : dict entry) (a b : string),
    inner_get
      (fold_left
         (fun params_s (item : string * dict (list Q)) =>
            let (params_name, v) := item in
            fold_left
              (fun acc (img : string * list Q) =>
                 let (img_name, params_value) := img in
                 set_inner acc img_name params_name (Arr params_value))
              v params_s)
         params acc) a b
    = match dict_get params b with
      | Some table =>
          match dict_get table a with
          | Some x => Some (Arr x)
          | None => inner_get acc a b
          end
      | None => inner_get acc a b
      end.
Proof.
  unfold distinct_keys at 1.
  induction params as [| [nm t] params IH]; simpl; intros Hn Ht acc a b.
  - reflexivity.
  - inversion Hn as [| ? ? Hnot Hn']; subst.
    inversion Ht as [| ? ? Ht0 Ht']; subst. simpl in Ht0.
    rewrite (IH Hn' Ht'), (swap_key_table nm t Ht0).
    destruct (String.eqb_spec nm b) as [<- | _].
    + rewrite (dict_get_not_key params nm Hnot). reflexivity.
    + reflexivity.
Qed.

(** [swap_key] transposes the dict of tables: [params_s[img][name]] is the
    array of [params[name][img]], and is absent when that is absent. *)
Theorem swap_key_transposes (params : dict (dict (list Q))) (img name : string) :
  distinct_keys params ->
  Forall (fun item => distinct_keys (snd item)) params ->
  inner_get (swap_key params) img name = option_map Arr (lookup2 params name img).
Proof.
  intros Hn Ht. unfold swap_key, lookup2.
  rewrite (swap_key_from params Hn Ht).
  destruct (dict_get params name) as [t |]; [| reflexivity].
  destruct (dict_get t img); reflexivity.
Qed.

Lemma swap_key_transposes_witness :
  inner_get
    (swap_key [("shape", [("0.jpg", [1; 2]%Q); ("1.jpg", [3; 4]%Q)]);
               ("cam", [("1.jpg", [5]%Q)])]) "1.jpg" "cam"
  = Some (Arr [5]%Q) /\
  inner_get
    (swap_key [("shape", [("0.jpg", [1; 2]%Q); ("1.jpg", [3; 4]%Q)]);
               ("cam", [("1.jpg", [5]%Q)])]) "0.jpg" "cam"
  = None.
Proof.
  assert (Hn : distinct_keys
                 [("shape", [("0.jpg", [1; 2]%Q); ("1.jpg", [3; 4]%Q)]);
                  ("cam", [("1.jpg", [5]%Q)])]).
  { unfold distinct_keys. distinct_literals. }
  assert (Ht : Forall (fun item : string * dict (list Q) => distinct_keys (snd item))
                 [("shape", [("0.jpg", [1; 2]%Q); ("1.jpg", [3; 4]%Q)]);
                  ("cam", [("1.jpg", [5]%Q)])]).
  { repeat (constructor; [unfold distinct_keys; distinct_literals |]).
    constructor. }
  split.
  - rewrite (swap_key_transposes _ "1.jpg" "cam" Hn Ht). reflexivity.
  - rewrite (swap_key_transposes _ "0.jpg" "cam" Hn Ht). reflexivity.
Defined.

(** ** deca_datasets.py: what [load_deca_params] keeps of the files *)

Lemma dict_get_dict_set {V : Type} (d : dict V) (k k' : string) (v : V) :
  dict_get (dict_set d k v) k' = if String.eqb k k' then Some v else dict_get d k'.
Proof.
  destruct (String.eqb_spec k k') as [<- | Hne].
  - apply dict_get_set_same.
  - apply dict_get_set_other. exact Hne.
Qed.

Lemma dict_set_In {V : Type} (d : dict V) (k k' : string) (v v' : V) :
  In (k', v') (dict_set d k v) -> In (k', v') d \/ (k' = k /\ v' = v).
Proof.
  induction d as [| [k0 v0] d IH]; simpl.
  - intros [E | []]. injection E as <- <-. right. split; reflexivity.
  - destruct (String.eqb_spec k0 k) as [-> | _]; simpl.
    + intros [E | H].
      * injection E as <- <-. right. split; reflexivity.
      * left. right. exact H.
    + intros [E | H].
      * left. left. exact E.
      * destruct (IH H) as [H' | H']; [left; right; exact H' | right; exact H'].
Qed.

Lemma last_of_app {A : Type} (l : list A) (x : A) : last_of (l ++ [x]) = Some x.
Proof. unfold last_of. rewrite fold_left_app. reflexivity. Qed.

(** Lines 69-70 for one key. *)
Lemma read_tables_get (k : string) (tables : list (dict (list Q))) :
  forall (acc : dict (dict (list Q))) (k' : string),
    dict_get (fold_left (fun acc table => dict_set acc k table) tables acc) k'
    = if String.eqb k k'
      then match last_of tables with
           | Some t => Some t
           | None => dict_get acc k'
           end
      else dict_get acc k'.
Proof.
  induction tables as [| t tables IH] using rev_ind; intros acc k'.
  - simpl. destruct (String.eqb k k'); reflexivity.
  - rewrite fold_left_app, last_of_app. simpl. rewrite dict_get_dict_set.
    destruct (String.eqb k k') eqn:E; [reflexivity |].
    rewrite IH, E. reflexivity.
Qed.

Lemma read_tables_distinct (k : string) (tables : list (dict (list Q))) :
  forall acc : dict (dict (list Q)),
    distinct_keys acc ->
    distinct_keys (fold_left (fun acc table => dict_set acc k table) tables acc).
Proof.
  induction tables as [| t tables IH]; simpl; intros acc H.
  - exact H.
  - apply IH. apply dict_set_distinct_keys. exact H.
Qed.

Lemma read_tables_In (k : string) (tables : list (dict (list Q))) :
  forall (acc : dict (dict (list Q))) (k' : string) (t : dict (list Q)),
    In (k', t) (fold_left (fun acc table => dict_set acc k table) tables acc) ->
    In (k', t) acc \/ In t tables.
Proof.
  induction tables as [| t0 tables IH]; simpl; intros acc k' t H.
  - left. exact H.
  - destruct (IH _ _ _ H) as [H' | H'].
    + destruct (dict_set_In _ _ _ _ _ H') as [H'' | [_ ->]].
      * left. exact H''.
      * right. left. reflexivity.
    + right. right. exact H'.
Qed.

Lemma read_all_get (d : deca_dir) (k : string) :
  dict_get (read_all d) k
  = if str_in k params_key then last_of (params_train d k) else None.
Proof.
  unfold read_all, str_in, params_key. cbn [fold_left existsb].
  rewrite !read_tables_get. cbn [dict_get].
  rewrite (String.eqb_sym k "shape"), (String.eqb_sym k "pose"),
    (String.eqb_sym k "exp"), (String.eqb_sym k "cam").
  destruct (String.eqb_spec "shape" k) as [E1 | _],
           (String.eqb_spec "pose" k) as [E2 | _],
           (String.eqb_spec "exp" k) as [E3 | _],
           (String.eqb_spec "cam" k) as [E4 | _];
    cbn [orb]; try congruence; subst k;
    match goal with
    | |- context [last_of ?l] => destruct (last_of l); reflexivity
    end.
Qed.

Lemma read_all_distinct (d : deca_dir) : distinct_keys (read_all d).
Proof.
  unfold read_all, params_key. simpl fold_left.
  repeat apply read_tables_distinct. unfold distinct_keys. constructor.
Qed.

Lemma read_all_tables (d : deca_dir) :
  tables_are_dicts d ->
  Forall (fun item => distinct_keys (snd item)) (read_all d).
Proof.
  intros Hd. apply Forall_forall. intros [k t] Hin. simpl.
  assert (H : exists k0, In t (params_train d k0)).
  { unfold read_all, params_key in Hin. simpl fold_left in Hin.
    repeat (apply read_tables_In in Hin;
            destruct Hin as [Hin | Hin]; [| eexists; exact Hin]).
    destruct Hin. }
  destruct H as [k0 Hk0].
  pose proof (Hd k0) as Hall. rewrite Forall_forall in Hall.
  apply Hall. exact Hk0.
Qed.

(** The dict of line 72: per image and group, the row of the last file. *)
Lemma read_all_transposed (d : deca_dir) (img k : string) :
  tables_are_dicts d ->
  inner_get (swap_key (read_all d)) img k
  = if str_in k params_key then option_map Arr (annotation d k img) else None.
Proof.
  intros Hd. unfold swap_key.
  rewrite (swap_key_from (read_all d) (read_all_distinct d) (read_all_tables d Hd)).
  rewrite read_all_get. unfold annotation.
  destruct (str_in k params_key); [| reflexivity].
  destruct (last_of (params_train d k)) as [t |]; [| reflexivity].
  destruct (dict_get t img); reflexivity.
Qed.

Lemma load_deca_params_Ok_inv (d : deca_dir) (bound : Q) (dp : dict entry) :
  load_deca_params d bound = Ok dp ->
  exists mn mx,
    dp = fold_left
           (fun acc path =>
              set_inner acc (uv_image_name path) "uv_detail_normals" (Path path))
           (uv_detail_normals_train d)
           (dict_set (swap_key (read_all d)) "normalize"
              [("min_val", Arr mn); ("max_val", Arr mx)]).
Proof.
  intros Hload.
  assert (Hrows : exists rows, stacked_params d = Ok rows).
  { unfold load_deca_params in Hload. apply bind_Ok_inv in Hload.
    destruct Hload as [rows [Hrows _]]. exists rows. exact Hrows. }
  destruct Hrows as [rows Hrows].
  destruct (load_deca_params_Ok d bound rows Hrows) as [mn [mx [Hl _]]].
  rewrite Hl in Hload. injection Hload as <-.
  exists mn, mx. reflexivity.
Qed.

Lemma str_in_params_key (k : string) :
  In k params_key -> str_in k params_key = true.
Proof.
  unfold params_key. simpl. intros [<- | [<- | [<- | [<- | []]]]]; reflexivity.
Qed.

(** For an image and one of the four groups, the dict [load_deca_params]
    returns holds the row of the last annotation file of that group as it
    is in the file, not normalized, and nothing when that file has no row
    for the image.  The name ['normalize'] is taken by the statistics: an
    image of that name has none of its groups in the dict. *)
Theorem load_deca_params_keeps_rows (d : deca_dir) (bound : Q)
  (dp : dict entry) (img k : string) :
  tables_are_dicts d ->
  load_deca_params d bound = Ok dp ->
  In k params_key ->
  inner_get dp img k
  = if String.eqb img "normalize" then None
    else option_map Arr (annotation d k img).
Proof.
  intros Hd Hload Hk.
  destruct (load_deca_params_Ok_inv d bound dp Hload) as [mn [mx ->]].
  rewrite uv_paths_preserve by (apply params_key_not_uv; exact Hk).
  rewrite inner_get_dict_set, (String.eqb_sym img "normalize").
  destruct (String.eqb "normalize" img).
  - unfold params_key in Hk. simpl in Hk.
    destruct Hk as [<- | [<- | [<- | [<- | []]]]]; reflexivity.
  - rewrite (read_all_transposed d img k Hd), (str_in_params_key k Hk).
    reflexivity.
Qed.

Lemma tables_are_dicts_deca : tables_are_dicts Examples.deca.
Proof.
  intros k. unfold Examples.deca. simpl.
  destruct (String.eqb k "shape");
    [constructor; [unfold distinct_keys; distinct_literals | constructor] |].
  destruct (String.eqb k "pose");
    [constructor; [unfold distinct_keys; distinct_literals | constructor] |].
  destruct (String.eqb k "exp");
    [constructor; [unfold distinct_keys; distinct_literals | constructor] |].
  destruct (String.eqb k "cam");
    [constructor; [unfold distinct_keys; distinct_literals | constructor] |].
  constructor.
Defined.

Lemma deca_loaded_Ok : load_deca_params Examples.deca 1 = Ok Examples.deca_loaded.
Proof. reflexivity. Defined.

Lemma load_deca_params_keeps_rows_witness :
  inner_get Examples.deca_loaded "1.jpg" "exp" = Some (Arr [-5]%Q) /\
  inner_get Examples.deca_loaded "2.jpg" "exp" = None.
Proof.
  split.
  - rewrite (load_deca_params_keeps_rows Examples.deca 1 Examples.deca_loaded
               "1.jpg" "exp" tables_are_dicts_deca deca_loaded_Ok);
      [reflexivity | unfold params_key; simpl; tauto].
  - rewrite (load_deca_params_keeps_rows Examples.deca 1 Examples.deca_loaded
               "2.jpg" "exp" tables_are_dicts_deca deca_loaded_Ok);
      [reflexivity | unfold params_key; simpl; tauto].
Defined.

Lemma find_app_last {A : Type} (f : A -> bool) (l : list A) (x : A) :
  find f (l ++ [x])
  = match find f l with
    | Some y => Some y
    | None => if f x then Some x else None
    end.
Proof.
  induction l as [| y l IH]; simpl.
  - reflexivity.
  - destruct (f y); [reflexivity | exact IH].
Qed.

(** Lines 86-90 on any dict. *)
Lemma uv_paths_set (paths : list string) :
  forall (d : dict entry) (img : string),
    inner_get
      (fold_left
         (fun acc path =>
            set_inner acc (uv_image_name path) "uv_detail_normals" (Path path))
         paths d) img "uv_detail_normals"
    = match last_picture_of img paths with
      | Some path => Some (Path path)
      | None => inner_get d img "uv_detail_normals"
      end.
Proof.
  unfold last_picture_of.
  induction paths as [| p paths IH]; intros d img; simpl.
  - reflexivity.
  - rewrite IH, find_app_last.
    destruct (find (fun path => String.eqb (uv_image_name path) img) (rev paths));
      [reflexivity |].
    rewrite inner_get_set_inner, String.eqb_refl, andb_true_r.
    destruct (String.eqb (uv_image_name p) img); reflexivity.
Qed.

(** Under ['uv_detail_normals'] the dict [load_deca_params] returns holds,
    for an image name, the last path of the glob whose file name yields that
    name (the text after the last underscore, with .png replaced by .jpg),
    and nothing when no path yields it. *)
Theorem load_deca_params_uv_paths (d : deca_dir) (bound : Q)
  (dp : dict entry) (img : string) :
  tables_are_dicts d ->
  load_deca_params d bound = Ok dp ->
  inner_get dp img "uv_detail_normals"
  = option_map Path (last_picture_of img (uv_detail_normals_train d)).
Proof.
  intros Hd Hload.
  destruct (load_deca_params_Ok_inv d bound dp Hload) as [mn [mx ->]].
  rewrite uv_paths_set.
  destruct (last_picture_of img (uv_detail_normals_train d)); [reflexivity |].
  rewrite inner_get_dict_set.
  destruct (String.eqb "normalize" img); [reflexivity |].
  rewrite (read_all_transposed d img "uv_detail_normals" Hd). reflexivity.
Qed.

Lemma load_deca_params_uv_paths_witness :
  inner_get Examples.deca_loaded "1.jpg" "uv_detail_normals"
  = Some (Path "deca/uv_detail_normals/train/uvdn_1.png") /\
  inner_get Examples.deca_loaded "normalize" "uv_detail_normals" = None.
Proof.
  split.
  - rewrite (load_deca_params_uv_paths Examples.deca 1 Examples.deca_loaded
               "1.jpg" tables_are_dicts_deca deca_loaded_Ok).
    reflexivity.
  - rewrite (load_deca_params_uv_paths Examples.deca 1 Examples.deca_loaded
               "normalize" tables_are_dicts_deca deca_loaded_Ok).
    reflexivity.
Defined.

(** ** deca_datasets.py: when [load_deca_params] fails *)

Lemma normalize_computed_stats (arr y : ndarray2) (mn mx : vec) (a b : Q) :
  normalize arr None None a b = Ok (y, mn, mx) ->
  reduce_axis0 Qmin arr = Ok mn /\ reduce_axis0 Qmax arr = Ok mx.
Proof.
  unfold normalize.
  destruct (reduce_axis0 Qmax arr) as [mx0 | e]; [| intros H; discriminate H].
  destruct (reduce_axis0 Qmin arr) as [mn0 | e]; [| intros H; discriminate H].
  simpl.
  destruct (broadcast_rows Qminus arr mn0) as [c |]; [| intros H; discriminate H].
  simpl.
  destruct (broadcast Qminus mx0 mn0) as [w |]; [| intros H; discriminate H].
  simpl.
  match goal with
  | |- context [broadcast_rows Qdiv ?x ?w] =>
      destruct (broadcast_rows Qdiv x w) as [t |]; [| intros H; discriminate H]
  end.
  simpl. intros H. injection H as _ <- <-. split; reflexivity.
Qed.

Lemma load_deca_params_stacked (d : deca_dir) (bound : Q) (r : vec) (rs : ndarray2) :
  stacked_params d = Ok (r :: rs) ->
  load_deca_params d bound
  = Ok (fold_left
          (fun acc path =>
             set_inner acc (uv_image_name path) "uv_detail_normals" (Path path))
          (uv_detail_normals_train d)
          (dict_set (swap_key (read_all d)) "normalize"
             [("min_val", Arr (fold_left (zip_with Qmin) rs r));
              ("max_val", Arr (fold_left (zip_with Qmax) rs r))])).
Proof.
  intros Hrows.
  destruct (stacked_params_Ok_inv d _ Hrows) as [_ [r0 [rs0 [E Hrs]]]].
  injection E as <- <-.
  destruct (normalize_computed r rs (- bound)%Q bound Hrs) as [mn [mx [Hn _]]].
  destruct (normalize_computed_stats _ _ _ _ _ _ Hn) as [Hmn Hmx].
  simpl in Hmn, Hmx. injection Hmn as Hmn. injection Hmx as Hmx.
  unfold load_deca_params. rewrite Hrows. unfold Py.bind at 1.
  rewrite Hn, Hmn, Hmx. reflexivity.
Qed.

Lemma load_deca_params_Raise_iff (d : deca_dir) (bound : Q) (e : exn) :
  load_deca_params d bound = Raise e <-> stacked_params d = Raise e.
Proof.
  destruct (stacked_params d) as [rows | e0] eqn:Hrows.
  - destruct (stacked_params_Ok_inv d rows Hrows) as [_ [r [rs [-> _]]]].
    rewrite (load_deca_params_stacked d bound r rs Hrows).
    split; intros H; discriminate H.
  - unfold load_deca_params. rewrite Hrows. simpl.
    split; intros H; injection H as <-; reflexivity.
Qed.

(** What [load_deca_params] returns does not depend on [bound]: of the
    normalization of line 82 only the minimum and the maximum are kept.
    And that normalization never fails: the function raises exactly when
    the stacking of lines 75-81 does, and raises the same exception. *)
Theorem load_deca_params_ignores_bound (d : deca_dir) (bound bound' : Q) :
  load_deca_params d bound = load_deca_params d bound' /\
  (forall e, load_deca_params d bound = Raise e <-> stacked_params d = Raise e).
Proof.
  split; [| intros e; apply load_deca_params_Raise_iff].
  destruct (stacked_params d) as [rows | e0] eqn:Hrows.
  - destruct (stacked_params_Ok_inv d rows Hrows) as [_ [r [rs [-> _]]]].
    rewrite (load_deca_params_stacked d bound r rs Hrows),
      (load_deca_params_stacked d bound' r rs Hrows).
    reflexivity.
  - unfold load_deca_params. rewrite Hrows. reflexivity.
Qed.

Lemma dict_set_not_empty {V : Type} (d : dict V) (k : string) (v : V) :
  dict_set d k v <> [].
Proof.
  destruct d as [| [k0 v0] d]; simpl.
  - discriminate.
  - destruct (String.eqb k0 k); discriminate.
Qed.

(** A property of the dict that lines 31-34 keep. *)
Lemma swap_key_invariant (P : dict entry -> Prop) :
  (forall acc i n x, P acc -> P (set_inner acc i n (Arr x))) ->
  forall (params : dict (dict (list Q))) (acc : dict entry),
    P acc ->
    P (fold_left
         (fun params_s (item : string * dict (list Q)) =>
            let (params_name, v) := item in
            fold_left
              (fun acc (img : string * list Q) =>
                 let (img_name, params_value) := img in
                 set_inner acc img_name params_name (Arr params_value))
              v params_s)
         params acc).
Proof.
  intros Hstep. induction params as [| [nm t] params IH]; simpl; intros acc Hacc.
  - exact Hacc.
  - apply IH. clear IH. revert acc Hacc.
    induction t as [| [i x] t IHt]; simpl; intros acc Hacc.
    + exact Hacc.
    + apply IHt. apply Hstep. exact Hacc.
Qed.

Lemma swap_key_distinct (params : dict (dict (list Q))) :
  distinct_keys (swap_key params).
Proof.
  unfold swap_key. apply swap_key_invariant.
  - intros acc i n x H. unfold set_inner. apply dict_set_distinct_keys. exact H.
  - unfold distinct_keys. constructor.
Qed.

Lemma swap_key_entries_not_empty (params : dict (dict (list Q))) :
  Forall (fun item : string * entry => snd item <> []) (swap_key params).
Proof.
  unfold swap_key. apply swap_key_invariant.
  - intros acc i n x H. rewrite Forall_forall in *. intros [i' e'] Hin.
    unfold set_inner in Hin. apply dict_set_In in Hin.
    destruct Hin as [Hin | [_ ->]].
    + apply (H _ Hin).
    + simpl. apply dict_set_not_empty.
  - constructor.
Qed.

Lemma str_in_In (k : string) (words : list string) :
  str_in k words = true -> In k words.
Proof.
  unfold str_in. intros H. apply existsb_exists in H.
  destruct H as [x [Hin E]]. apply String.eqb_eq in E. subst x. exact Hin.
Qed.

(** An entry of the dict of line 72 is an annotated image, and lines 77-80
    on it give its row, or [KeyError] when a group is missing. *)
Lemma swapped_entry (d : deca_dir) (img : string) (e : entry) :
  tables_are_dicts d ->
  In (img, e) (swap_key (read_all d)) ->
  annotated d img /\
  concat_params e
  = match row_of d img with
    | Some r => Ok r
    | None => Raise KeyError
    end.
Proof.
  intros Hd Hin.
  pose proof (dict_get_of_In _ _ _ (swap_key_distinct (read_all d)) Hin) as Hget.
  assert (Hk : forall k,
             dict_get e k
             = if str_in k params_key
               then option_map Arr (annotation d k img) else None).
  { intros k. rewrite <- (read_all_transposed d img k Hd).
    unfold inner_get. rewrite Hget. reflexivity. }
  split.
  - pose proof (swap_key_entries_not_empty (read_all d)) as Hne.
    rewrite Forall_forall in Hne. specialize (Hne _ Hin). simpl in Hne.
    destruct e as [| [k0 v0] e]; [exfalso; apply Hne; reflexivity |].
    specialize (Hk k0). cbn [dict_get] in Hk. rewrite String.eqb_refl in Hk.
    destruct (str_in k0 params_key) eqn:Hin0; [| discriminate Hk].
    exists k0. split; [apply str_in_In; exact Hin0 |].
    intros Hnone. rewrite Hnone in Hk. discriminate Hk.
  - pose proof (Hk "shape") as Hshape. pose proof (Hk "pose") as Hpose.
    pose proof (Hk "exp") as Hexp. pose proof (Hk "cam") as Hcam.
    change (str_in "shape" params_key) with true in Hshape.
    change (str_in "pose" params_key) with true in Hpose.
    change (str_in "exp" params_key) with true in Hexp.
    change (str_in "cam" params_key) with true in Hcam.
    unfold concat_params, params_key, dict_getitem. cbn [mapM].
    rewrite Hshape, Hpose, Hexp, Hcam. unfold row_of.
    destruct (annotation d "shape" img) as [shape |]; [| reflexivity].
    destruct (annotation d "pose" img) as [pose |]; [| reflexivity].
    destruct (annotation d "exp" img) as [exp |]; [| reflexivity].
    destruct (annotation d "cam" img) as [cam |]; [| reflexivity].
    simpl. rewrite app_nil_r. reflexivity.
Qed.

Lemma annotated_entry (d : deca_dir) (img : string) :
  tables_are_dicts d ->
  annotated d img ->
  exists e, In (img, e) (swap_key (read_all d)).
Proof.
  intros Hd [k [Hk Ha]].
  pose proof (read_all_transposed d img k Hd) as Ht.
  rewrite (str_in_params_key k Hk) in Ht.
  destruct (annotation d k img) as [x |]; [| exfalso; apply Ha; reflexivity].
  simpl in Ht. unfold inner_get in Ht.
  destruct (dict_get (swap_key (read_all d)) img) as [e |] eqn:He;
    [| discriminate Ht].
  exists e. apply dict_get_In. exact He.
Qed.

Lemma row_of_annotated (d : deca_dir) (img : string) (r : vec) :
  row_of d img = Some r -> annotated d img.
Proof.
  unfold row_of. intros H. exists "shape".
  split; [unfold params_key; simpl; tauto |].
  destruct (annotation d "shape" img); [discriminate | discriminate H].
Qed.

Lemma Forall2_In_right {A B : Type} (R : A -> B -> Prop) (xs : list A)
  (ys : list B) (y : B) :
  Forall2 R xs ys -> In y ys -> exists x, In x xs /\ R x y.
Proof.
  induction 1 as [| x0 y0 xs ys Hxy _ IH]; simpl; intros Hin.
  - contradiction.
  - destruct Hin as [<- | Hin].
    + exists x0. split; [left; reflexivity | exact Hxy].
    + destruct (IH Hin) as [x [Hx HR]]. exists x. split; [right; exact Hx | exact HR].
Qed.

(** Lines 75-80: the rows are those of the annotated images, and the loop
    stops with [KeyError] at an annotated image that lacks a group. *)
Lemma all_params_rows (d : deca_dir) :
  tables_are_dicts d ->
  match mapM (fun item : string * entry => concat_params (snd item))
          (swap_key (read_all d)) with
  | Raise e =>
      e = KeyError /\ exists img, annotated d img /\ row_of d img = None
  | Ok rows =>
      (forall img, annotated d img ->
                   exists r, row_of d img = Some r /\ In r rows) /\
      (forall r, In r rows ->
                 exists img, annotated d img /\ row_of d img = Some r)
  end.
Proof.
  intros Hd.
  destruct (mapM (fun item : string * entry => concat_params (snd item))
              (swap_key (read_all d))) as [rows | e] eqn:Hm.
  - apply mapM_Ok_inv in Hm. split.
    + intros img Ha. destruct (annotated_entry d img Hd Ha) as [e He].
      destruct (Forall2_In_left _ _ _ _ Hm He) as [r [Hr Hc]]. simpl in Hc.
      destruct (swapped_entry d img e Hd He) as [_ Hrow].
      rewrite Hc in Hrow. exists r.
      destruct (row_of d img) as [r' |]; [| discriminate Hrow].
      injection Hrow as ->. split; [reflexivity | exact Hr].
    + intros r Hr.
      destruct (Forall2_In_right _ _ _ _ Hm Hr) as [[img e] [He Hc]]. simpl in Hc.
      destruct (swapped_entry d img e Hd He) as [Ha Hrow].
      rewrite Hc in Hrow. exists img. split; [exact Ha |].
      destruct (row_of d img) as [r' |]; [| discriminate Hrow].
      injection Hrow as ->. reflexivity.
  - apply mapM_Raise_inv in Hm. destruct Hm as [[img e0] [He Hc]]. simpl in Hc.
    destruct (swapped_entry d img e0 Hd He) as [Ha Hrow].
    rewrite Hc in Hrow.
    destruct (row_of d img) as [r' |] eqn:Hr; [discriminate Hrow |].
    injection Hrow as ->. split; [reflexivity |].
    exists img. split; [exact Ha | exact Hr].
Qed.

Lemma forallb_false_exists {A : Type} (f : A -> bool) (l : list A) :
  forallb f l = false -> exists x, In x l /\ f x = false.
Proof.
  induction l as [| x l IH]; simpl; intros H.
  - discriminate H.
  - destruct (f x) eqn:Hx.
    + destruct (IH H) as [y [Hy Hf]]. exists y. split; [right; exact Hy | exact Hf].
    + exists x. split; [left; reflexivity | exact Hx].
Qed.

Lemma np_stack_Raise (rows : list vec) (e : exn) :
  np_stack rows = Raise e -> e = ValueError.
Proof.
  unfold np_stack. destruct rows as [| r rs]; [intros H; injection H as <-; reflexivity |].
  destruct (forallb (fun r' => Nat.eqb (List.length r') (List.length r)) rs);
    intros H; [discriminate H | injection H as <-; reflexivity].
Qed.

(** [np.stack] fails on no array and on arrays of two lengths, and only
    then. *)
Lemma np_stack_ValueError (rows : list vec) :
  np_stack rows = Raise ValueError <->
  rows = [] \/
  exists r r', In r rows /\ In r' rows /\ List.length r <> List.length r'.
Proof.
  unfold np_stack. destruct rows as [| h t].
  - split; [intros _; left; reflexivity | reflexivity].
  - destruct (forallb (fun r' => Nat.eqb (List.length r') (List.length h)) t)
      eqn:Hall.
    + split; [intros H; discriminate H |].
      intros [H | [r [r' [Hr [Hr' Hne]]]]]; [discriminate H |].
      exfalso. rewrite forallb_forall in Hall.
      assert (Hlen : forall x, In x (h :: t) -> List.length x = List.length h).
      { intros x [<- | Hx]; [reflexivity |]. apply Nat.eqb_eq. apply Hall. exact Hx. }
      apply Hne. rewrite (Hlen r Hr), (Hlen r' Hr'). reflexivity.
    + split; [| reflexivity]. intros _. right.
      destruct (forallb_false_exists _ _ Hall) as [x [Hx Hf]].
      apply Nat.eqb_neq in Hf.
      exists x, h. split; [right; exact Hx | split; [left; reflexivity | exact Hf]].
Qed.

(** [load_deca_params] raises [KeyError] exactly when some image that an
    annotation file read last names has no row in the file of another
    group; it raises [ValueError] exactly when every annotated image has its
    four rows and either no image is annotated at all or two images have
    concatenated rows of different lengths; it raises nothing else. *)
Theorem load_deca_params_failures (d : deca_dir) (bound : Q) :
  tables_are_dicts d ->
  (load_deca_params d bound = Raise KeyError <->
   exists img, annotated d img /\ row_of d img = None) /\
  (load_deca_params d bound = Raise ValueError <->
   (forall img, annotated d img -> row_of d img <> None) /\
   ((forall img, ~ annotated d img) \/
    exists img img' r r',
      row_of d img = Some r /\ row_of d img' = Some r' /\
      List.length r <> List.length r')) /\
  (forall e, load_deca_params d bound = Raise e -> e = KeyError \/ e = ValueError).
Proof.
  intros Hd. pose proof (all_params_rows d Hd) as Hrows.
  rewrite !load_deca_params_Raise_iff.
  assert (Hother : forall e,
             load_deca_params d bound = Raise e -> stacked_params d = Raise e).
  { intros e. apply load_deca_params_Raise_iff. }
  unfold stacked_params in *.
  destruct (mapM (fun item : string * entry => concat_params (snd item))
              (swap_key (read_all d))) as [rows | e0].
  - destruct Hrows as [Hall Hfrom]. simpl. split; [| split].
    + split.
      * intros H. apply np_stack_Raise in H. discriminate H.
      * intros [img [Ha Hnone]]. destruct (Hall img Ha) as [r [Hr _]].
        rewrite Hr in Hnone. discriminate Hnone.
    + rewrite np_stack_ValueError. split.
      * intros Hs. split.
        -- intros img Ha. destruct (Hall img Ha) as [r [Hr _]]. rewrite Hr.
           discriminate.
        -- destruct Hs as [-> | [r [r' [Hr [Hr' Hne]]]]].
           ++ left. intros img Ha. destruct (Hall img Ha) as [r [_ []]].
           ++ right. destruct (Hfrom r Hr) as [img [_ Hi]].
              destruct (Hfrom r' Hr') as [img' [_ Hi']].
              exists img, img', r, r'. split; [exact Hi | split; [exact Hi' | exact Hne]].
      * intros [_ [Hnone | [img [img' [r [r' [Hi [Hi' Hne]]]]]]]].
        -- left. destruct rows as [| r rows]; [reflexivity |].
           destruct (Hfrom r (or_introl eq_refl)) as [img [Ha _]].
           exfalso. exact (Hnone img Ha).
        -- right.
           destruct (Hall img (row_of_annotated d img r Hi)) as [r0 [E0 Hr0]].
           destruct (Hall img' (row_of_annotated d img' r' Hi')) as [r1 [E1 Hr1]].
           rewrite Hi in E0. injection E0 as <-.
           rewrite Hi' in E1. injection E1 as <-.
           exists r, r'. split; [exact Hr0 | split; [exact Hr1 | exact Hne]].
    + intros e He. apply Hother in He. simpl in He.
      apply np_stack_Raise in He. right. exact He.
  - destruct Hrows as [-> Hex]. simpl. split; [| split].
    + split; [intros _; exact Hex | reflexivity].
    + split; [intros H; discriminate H |].
      intros [Hall _]. destruct Hex as [img [Ha Hnone]].
      exfalso. exact (Hall img Ha Hnone).
    + intros e He. apply Hother in He. simpl in He. injection He as <-.
      left. reflexivity.
Qed.

Lemma tables_are_dicts_deca_incomplete : tables_are_dicts Examples.deca_incomplete.
Proof.
  intros k. unfold Examples.deca_incomplete. cbn [params_train].
  destruct (String.eqb k "cam");
    [constructor; [unfold distinct_keys; distinct_literals | constructor] |].
  apply tables_are_dicts_deca.
Defined.

Lemma load_deca_params_failures_witness :
  load_deca_params Examples.deca_incomplete 1 = Raise KeyError /\
  load_deca_params Examples.deca_empty 1 = Raise ValueError.
Proof.
  split.
  - apply (proj1 (load_deca_params_failures Examples.deca_incomplete 1
                    tables_are_dicts_deca_incomplete)).
    exists "1.jpg". split; [| reflexivity].
    exists "shape". split; [unfold params_key; simpl; tauto | discriminate].
  - apply (proj1 (proj2 (load_deca_params_failures Examples.deca_empty 1
                           (fun _ => Forall_nil _)))).
    split.
    + intros img [k [_ Ha]]. exfalso. apply Ha. reflexivity.
    + left. intros img [k [_ Ha]]. apply Ha. reflexivity.
Defined.

(** ** deca_datasets.py: [normalize] with one statistic *)

(** The statistics are computed only when both are missing (line 46).
    With exactly one of them given, on an array with an entry and rows of
    the length of the given statistic, the arithmetic of line 50 meets
    [None] and raises [TypeError].  (The array and the statistic are asked
    to have an entry because numpy subtracts nothing, and so raises
    nothing, on an empty array.) *)
Theorem normalize_one_statistic_TypeError (arr : ndarray2) (v : vec) (a b : Q) :
  arr <> [] -> v <> [] ->
  Forall (fun row => List.length row = List.length v) arr ->
  normalize arr None (Some v) a b = Raise TypeError /\
  normalize arr (Some v) None a b = Raise TypeError.
Proof.
  intros _ _ Hrows. split.
  - reflexivity.
  - unfold normalize. simpl.
    rewrite (broadcast_rows_same_length Qminus arr v Hrows). reflexivity.
Qed.

Lemma normalize_one_statistic_TypeError_witness :
  normalize [[0; 5]; [10; 2]]%Q None (Some [10; 5]%Q) (-1) 1 = Raise TypeError /\
  normalize [[0; 5]; [10; 2]]%Q (Some [0; 2]%Q) None (-1) 1 = Raise TypeError.
Proof.
  split.
  - apply (proj1 (normalize_one_statistic_TypeError [[0; 5]; [10; 2]]%Q [10; 5]%Q
                    (-1) 1 ltac:(discriminate) ltac:(discriminate)
                    ltac:(repeat constructor))).
  - apply (proj2 (normalize_one_statistic_TypeError [[0; 5]; [10; 2]]%Q [0; 2]%Q
                    (-1) 1 ltac:(discriminate) ltac:(discriminate)
                    ltac:(repeat constructor))).
Defined.

(** ** deca_datasets.py: indices, draws and flips of [__getitem__] *)

Lemma list_index_outside {A : Type} (xs : list A) (i : Z) :
  (i < - Z.of_nat (List.length xs) \/ Z.of_nat (List.length xs) <= i)%Z ->
  list_index xs i = Raise IndexError.
Proof.
  intros H. unfold list_index.
  destruct (Z.ltb_spec i 0) as [Hi | Hi].
  - destruct (Z.leb_spec 0 (i + Z.of_nat (List.length xs))) as [Hj | Hj];
      [lia | reflexivity].
  - destruct (Z.leb_spec 0 i) as [_ | Hj]; [| lia].
    destruct (Z.ltb_spec i (Z.of_nat (List.length xs))) as [Hj | Hj];
      [lia | reflexivity].
Qed.

Lemma list_index_negative {A : Type} (xs : list A) (i : Z) :
  (0 <= i < Z.of_nat (List.length xs))%Z ->
  list_index xs (i - Z.of_nat (List.length xs)) = list_index xs i.
Proof.
  intros H. unfold list_index.
  destruct (Z.ltb_spec (i - Z.of_nat (List.length xs)) 0) as [_ | Hi]; [| lia].
  destruct (Z.ltb_spec i 0) as [Hi | _]; [lia |].
  replace (i - Z.of_nat (List.length xs) + Z.of_nat (List.length xs))%Z with i
    by lia.
  reflexivity.
Qed.

Lemma list_index_inside {A : Type} (xs : list A) (i : Z) :
  (0 <= i < Z.of_nat (List.length xs))%Z ->
  exists x, list_index xs i = Ok x /\ nth_error xs (Z.to_nat i) = Some x.
Proof.
  intros H. unfold list_index.
  destruct (Z.ltb_spec i 0) as [Hi | _]; [lia |].
  destruct (Z.leb_spec 0 i) as [_ | Hj]; [| lia].
  destruct (Z.ltb_spec i (Z.of_nat (List.length xs))) as [_ | Hj]; [| lia].
  simpl. destruct (nth_error xs (Z.to_nat i)) as [x |] eqn:E.
  - exists x. split; reflexivity.
  - apply nth_error_None in E. lia.
Qed.

Section DatasetEdgeFacts.

Variable Image : Type.
Variable Rng : Type.
Variable open_rgb : string -> result Image.
Variable random_crop_arr : Image -> Z -> Rng -> ndarray3 byte * Rng.
Variable center_crop_arr : Image -> Z -> ndarray3 byte.
Variable resize_arr : Image -> Z -> ndarray3 byte.
Variable random_random : Rng -> Q * Rng.

Local Abbreviation resized_ :=
  (resized Image Rng random_crop_arr center_crop_arr resize_arr).
Local Abbreviation augmentation_ :=
  (augmentation Image Rng random_crop_arr center_crop_arr resize_arr random_random).
Local Abbreviation getitem_inputs_ :=
  (getitem_inputs Image Rng open_rgb random_crop_arr center_crop_arr resize_arr
     random_random).
Local Abbreviation getitem_ :=
  (__getitem__ Image Rng open_rgb random_crop_arr center_crop_arr resize_arr
     random_random).

(** [__getitem__] takes the indices from [-len] to [len - 1]: outside it
    raises [IndexError] before a file is opened or a number drawn; a
    negative index counts from the end, so [idx - len] is the item [idx];
    and inside, the path read is the one at that place of the listing. *)
Theorem getitem_index_range (self : DECADataset) (idx : Z) (rng : Rng) :
  ((idx < - __len__ self \/ __len__ self <= idx)%Z ->
   getitem_ self idx rng = (Raise IndexError, rng)) /\
  ((0 <= idx < __len__ self)%Z ->
   getitem_ self (idx - __len__ self) rng = getitem_ self idx rng /\
   exists path,
     nth_error (local_images self) (Z.to_nat idx) = Some path /\
     list_index (local_images self) idx = Ok path).
Proof.
  unfold __len__. split.
  - intros H. unfold __getitem__, getitem_inputs, bind_run, lift.
    rewrite (list_index_outside _ _ H). reflexivity.
  - intros H. split.
    + unfold __getitem__, getitem_inputs, bind_run, lift.
      rewrite (list_index_negative _ _ H). reflexivity.
    + destruct (list_index_inside _ _ H) as [path [Hp Hn]].
      exists path. split; assumption.
Qed.

Lemma draws_nothing_bind {A B : Type} (c : run Rng A) (k : A -> run Rng B) :
  draws_nothing c -> (forall a, draws_nothing (k a)) ->
  draws_nothing (bind_run Rng c k).
Proof.
  intros [[a | e] Hc] Hk.
  - destruct (Hk a) as [r Hr]. exists r. intros rng.
    unfold bind_run. rewrite Hc. apply Hr.
  - exists (Raise e). intros rng. unfold bind_run. rewrite Hc. reflexivity.
Qed.

Lemma draws_nothing_lift {A : Type} (r : result A) : draws_nothing (lift Rng r).
Proof. exists r. intros rng. reflexivity. Qed.

Lemma draws_nothing_ret {A : Type} (a : A) : draws_nothing (ret Rng a).
Proof. exists (Ok a). intros rng. reflexivity. Qed.

Lemma augmentation_draws_nothing (self : DECADataset) (pil_image : Image) :
  resize_mode self <> "random_crop" ->
  augment_mode self <> Some "random_flip" ->
  draws_nothing (augmentation_ self pil_image).
Proof.
  intros Hr Ha. unfold augmentation. apply draws_nothing_bind.
  - unfold resized. rewrite (eqb_neq_false _ _ Hr).
    destruct (String.eqb (resize_mode self) "center_crop");
      [apply draws_nothing_ret |].
    destruct (String.eqb (resize_mode self) "resize");
      [apply draws_nothing_ret | apply draws_nothing_lift].
  - intros arr. unfold flipped.
    assert (Hm : mode_is (augment_mode self) "random_flip" = false).
    { destruct (augment_mode self) as [m |]; simpl; [| reflexivity].
      apply String.eqb_neq. intros E. apply Ha. rewrite E. reflexivity. }
    rewrite Hm.
    destruct (mode_is (augment_mode self) "flip");
      [eexists; intros rng; reflexivity |].
    destruct (is_None (augment_mode self)); eexists; intros rng; reflexivity.
Qed.

(** Outside the modes 'random_crop' and 'random_flip' [__getitem__] draws
    no random number: it leaves the state of [random] as it found it, and
    what it returns or raises for an index is the same whatever that state
    is. *)
Theorem getitem_deterministic_modes (self : DECADataset) (idx : Z) :
  resize_mode self <> "random_crop" ->
  augment_mode self <> Some "random_flip" ->
  exists outcome, forall rng, getitem_ self idx rng = (outcome, rng).
Proof.
  intros Hr Ha. change (draws_nothing (getitem_ self idx)).
  unfold __getitem__. apply draws_nothing_bind.
  - unfold getitem_inputs.
    apply draws_nothing_bind; [apply draws_nothing_lift | intros path].
    apply draws_nothing_bind; [apply draws_nothing_lift | intros pil_image].
    apply draws_nothing_bind;
      [apply augmentation_draws_nothing; assumption | intros raw_img].
    apply draws_nothing_bind; [apply draws_nothing_lift | intros cond].
    apply draws_nothing_bind; [apply draws_nothing_lift | intros uvdn_value].
    apply draws_nothing_bind; [apply draws_nothing_lift | intros uvdn_path].
    apply draws_nothing_bind; [apply draws_nothing_lift | intros pil_uvdn].
    apply draws_nothing_bind;
      [apply augmentation_draws_nothing; assumption | intros uvdn].
    apply draws_nothing_ret.
  - intros [[cond raw_img] uvdn].
    apply draws_nothing_bind; [apply draws_nothing_lift |].
    intros arr. apply draws_nothing_ret.
Qed.

Lemma augmentation_random_flip_Ok (self : DECADataset) (pil_image : Image)
  (rng rng1 : Rng) (arr : ndarray3 byte) :
  augment_mode self = Some "random_flip" ->
  resize_mode self <> "random_crop" ->
  augmentation_ self pil_image rng = (Ok arr, rng1) ->
  (fst (random_random rng) < 1 # 2)%Q /\ rng1 = snd (random_random rng).
Proof.
  intros Ha Hr. unfold augmentation, bind_run, resized.
  rewrite (eqb_neq_false _ _ Hr).
  assert (Hflip : forall arr0,
             flipped Rng random_random self arr0 rng = (Ok arr, rng1) ->
             (fst (random_random rng) < 1 # 2)%Q /\ rng1 = snd (random_random rng)).
  { intros arr0. unfold flipped. rewrite Ha. cbn [mode_is is_None].
    rewrite String.eqb_refl.
    change (String.eqb "random_flip" "flip") with false.
    destruct (random_random rng) as [u r]. cbn [fst snd].
    destruct (Qle_bool (1 # 2) u) eqn:E; cbn [negb]; intros H.
    - discriminate H.
    - injection H as _ <-. split; [| reflexivity].
      apply Qnot_le_lt. intros Hle. apply Qle_bool_iff in Hle.
      rewrite Hle in E. discriminate E. }
  destruct (String.eqb (resize_mode self) "center_crop"); [apply Hflip |].
  destruct (String.eqb (resize_mode self) "resize"); [apply Hflip |].
  intros H. discriminate H.
Qed.

Lemma augmentation_random_flip_Raise (self : DECADataset) (pil_image : Image)
  (rng : Rng) :
  augment_mode self = Some "random_flip" ->
  In (resize_mode self) ["center_crop"; "resize"] ->
  (1 # 2 <= fst (random_random rng))%Q ->
  augmentation_ self pil_image rng = (Raise TypeError, snd (random_random rng)).
Proof.
  intros Ha Hr Hu. unfold augmentation, bind_run, resized.
  assert (Hflip : forall arr0,
             flipped Rng random_random self arr0 rng
             = (Raise TypeError, snd (random_random rng))).
  { intros arr0. unfold flipped. rewrite Ha. cbn [mode_is is_None].
    rewrite String.eqb_refl.
    change (String.eqb "random_flip" "flip") with false.
    destruct (random_random rng) as [u r]. cbn [fst snd] in *.
    apply Qle_bool_iff in Hu. rewrite Hu. reflexivity. }
  simpl in Hr. destruct Hr as [<- | [<- | []]]; apply Hflip.
Qed.

(** In mode 'random_flip' (the resize mode not being 'random_crop') an
    item costs two draws, one per picture, and is returned only when both
    are below 0.5; with a first draw of 0.5 or more, the listed picture
    once opened, [__getitem__] raises [TypeError] after that one draw. *)
Theorem getitem_random_flip_draws (self : DECADataset) (idx : Z) (rng : Rng) :
  augment_mode self = Some "random_flip" ->
  resize_mode self <> "random_crop" ->
  (forall out rng',
      getitem_ self idx rng = (Ok out, rng') ->
      (fst (random_random rng) < 1 # 2)%Q /\
      (fst (random_random (snd (random_random rng))) < 1 # 2)%Q /\
      rng' = snd (random_random (snd (random_random rng)))) /\
  (forall path pil_image,
      In (resize_mode self) ["center_crop"; "resize"] ->
      list_index (local_images self) idx = Ok path ->
      open_rgb path = Ok pil_image ->
      (1 # 2 <= fst (random_random rng))%Q ->
      getitem_ self idx rng = (Raise TypeError, snd (random_random rng))).
Proof.
  intros Ha Hr. split.
  - intros [cond image] rng' H.
    apply getitem_Ok_inv in H. destruct H as [raw_q [uvdn_q [arr [Hin _]]]].
    apply getitem_inputs_Ok_inv in Hin.
    destruct Hin as [path [pil [raw_u8 [rng1 [uvp [pil2 [uv_u8 Hin]]]]]]].
    destruct Hin as [_ [_ [Hraw [_ [_ [_ [_ [Huv _]]]]]]]].
    destruct (augmentation_random_flip_Ok self pil rng rng1 raw_u8 Ha Hr Hraw)
      as [H1 ->].
    destruct (augmentation_random_flip_Ok self pil2 _ rng' uv_u8 Ha Hr Huv)
      as [H2 ->].
    split; [exact H1 | split; [exact H2 | reflexivity]].
  - intros path pil Hmode Hpath Hpil Hu.
    unfold __getitem__, getitem_inputs, bind_run, lift.
    rewrite Hpath, Hpil.
    rewrite (augmentation_random_flip_Raise self pil rng Ha Hmode Hu).
    reflexivity.
Qed.

Lemma augmentation_flip_of_None (self : DECADataset) (pil_image : Image)
  (rng rng1 : Rng) (arr : ndarray3 byte) :
  augment_mode self = None ->
  augmentation_ self pil_image rng = (Ok arr, rng1) ->
  augmentation_ (with_augment_mode self (Some "flip")) pil_image rng
  = (Ok (flip arr), rng1).
Proof.
  intros Ha. unfold augmentation, bind_run.
  change (resized_ (with_augment_mode self (Some "flip")) pil_image rng)
    with (resized_ self pil_image rng).
  destruct (resized_ self pil_image rng) as [[arr0 | e] r]; [| intros H; discriminate H].
  unfold flipped. rewrite Ha. cbn [with_augment_mode augment_mode mode_is is_None].
  change (String.eqb "flip" "random_flip") with false.
  rewrite String.eqb_refl. intros H. injection H as <- <-. reflexivity.
Qed.

(** The mode 'flip' gives the item of the mode [None] mirrored: the same
    conditioning vector, the same state of [random], and an image of the
    same shape whose every row is read from the other end, in the picture
    channels and in the uv-detail-normals channels alike. *)
Theorem getitem_flip_mirrors (self : DECADataset) (idx : Z) (rng rng' : Rng)
  (cond : vec) (image : ndarray3 Q) :
  augment_mode self = None ->
  getitem_ self idx rng = (Ok (cond, image), rng') ->
  exists image',
    getitem_ (with_augment_mode self (Some "flip")) idx rng
    = (Ok (cond, image'), rng') /\
    dim0 image' = dim0 image /\
    dim1 image' = dim1 image /\
    dim2 image' = dim2 image /\
    forall c h w,
      item image' c h w = item image c h (dim2 image - 1 - w)%nat.
Proof.
  intros Ha H.
  apply getitem_Ok_inv in H. destruct H as [raw_q [uvdn_q [arr [Hin [Hm ->]]]]].
  apply getitem_inputs_Ok_inv in Hin.
  destruct Hin as [path [pil [raw_u8 [rng1 [uvp [pil2 [uv_u8 Hin]]]]]]].
  destruct Hin as [Hpath [Hpil [Hraw [-> [Hcond [Huv [Hpil2 [Haug2 ->]]]]]]]].
  pose proof (augmentation_flip_of_None self pil rng rng1 raw_u8 Ha Hraw) as Hraw'.
  pose proof (augmentation_flip_of_None self pil2 rng1 rng' uv_u8 Ha Haug2)
    as Haug2'.
  set (self' := with_augment_mode self (Some "flip")) in *.
  assert (E1 : local_images self' = local_images self) by reflexivity.
  assert (E2 : deca_params self' = deca_params self) by reflexivity.
  assert (E3 : in_image self' = in_image self) by reflexivity.
  assert (Ec : forall name, conditioning self' name = conditioning self name)
    by reflexivity.
  assert (Hrun : getitem_inputs_ self' idx rng
                 = (Ok (cond, to_unit_range (flip raw_u8),
                        to_unit_range (flip uv_u8)), rng')).
  { unfold getitem_inputs, bind_run, lift, ret.
    rewrite E1, Hpath, Hpil, Hraw', Ec, Hcond, E2.
    unfold dict_getitem. rewrite default_get_inner, Huv. cbn [as_path].
    rewrite Hpil2, Haug2'. reflexivity. }
  apply input_to_model_Ok_inv in Hm. destruct Hm as [[Hmode ->] | [Hmode Hcat]].
  - exists (transpose_2_0_1 (to_unit_range (flip raw_u8))). split.
    + unfold __getitem__, bind_run. rewrite Hrun.
      unfold lift, input_to_model. rewrite E3, Hmode. reflexivity.
    + simpl. repeat split; reflexivity.
  - unfold concatenate_axis2 in Hcat. simpl in Hcat.
    destruct (Nat.eqb (dim0 raw_u8) (dim0 uv_u8)
              && Nat.eqb (dim1 raw_u8) (dim1 uv_u8)) eqn:Hdims;
      [| discriminate Hcat].
    injection Hcat as <-.
    assert (Hd1 : dim1 raw_u8 = dim1 uv_u8).
    { apply andb_true_iff in Hdims. apply Nat.eqb_eq. apply Hdims. }
    eexists. split.
    + unfold __getitem__, bind_run. rewrite Hrun.
      unfold lift, input_to_model. rewrite E3, Hmode.
      change (String.eqb "raw+uvdn" "raw") with false.
      rewrite String.eqb_refl. unfold concatenate_axis2. simpl.
      rewrite Hdims. reflexivity.
    + simpl. split; [reflexivity |]. split; [reflexivity |].
      split; [reflexivity |]. intros c h w. rewrite Hd1. reflexivity.
Qed.

(** The uv-detail-normals picture is read in every input mode, also in
    'raw', whose image does not use it: on an image whose entry has no
    ['uv_detail_normals'] key, [__getitem__] raises [KeyError] after the
    picture was loaded and augmented and the conditioning vector
    computed. *)
Theorem getitem_needs_uv_entry (self : DECADataset) (idx : Z) (rng rng1 : Rng)
  (path : string) (pil_image : Image) (arr : ndarray3 byte) (cond : vec) :
  list_index (local_images self) idx = Ok path ->
  open_rgb path = Ok pil_image ->
  augmentation_ self pil_image rng = (Ok arr, rng1) ->
  conditioning self (last_piece (str_split "/"%char path)) = Ok cond ->
  inner_get (deca_params self) (last_piece (str_split "/"%char path))
    "uv_detail_normals" = None ->
  getitem_ self idx rng = (Raise KeyError, rng1).
Proof.
  intros Hpath Hpil Hraw Hcond Huv.
  unfold __getitem__, getitem_inputs, bind_run, lift, ret.
  rewrite Hpath, Hpil, Hraw, Hcond.
  unfold dict_getitem. rewrite default_get_inner, Huv. reflexivity.
Qed.

End DatasetEdgeFacts.

Lemma getitem_index_range_witness :
  Examples.getitem_example (Examples.dataset "resize" None "raw") 2 0%nat
  = (Raise IndexError, 0%nat) /\
  Examples.getitem_example (Examples.dataset "resize" None "raw") (-3) 5%nat
  = (Raise IndexError, 5%nat) /\
  Examples.getitem_example (Examples.dataset "resize" None "raw") (-1) 0%nat
  = Examples.getitem_example (Examples.dataset "resize" None "raw") 1 0%nat.
Proof.
  split; [| split].
  - apply (proj1 (getitem_index_range
                    (ndarray3 byte) nat Examples.open_picture Examples.crop_at_random
                    Examples.as_is Examples.as_is Examples.draw
                    (Examples.dataset "resize" None "raw") 2 0%nat)).
    right. unfold __len__. simpl. lia.
  - apply (proj1 (getitem_index_range
                    (ndarray3 byte) nat Examples.open_picture Examples.crop_at_random
                    Examples.as_is Examples.as_is Examples.draw
                    (Examples.dataset "resize" None "raw") (-3) 5%nat)).
    left. unfold __len__. simpl. lia.
  - apply (proj2 (getitem_index_range
                    (ndarray3 byte) nat Examples.open_picture Examples.crop_at_random
                    Examples.as_is Examples.as_is Examples.draw
                    (Examples.dataset "resize" None "raw") 1 0%nat)).
    unfold __len__. simpl. lia.
Defined.

Lemma getitem_deterministic_modes_witness :
  exists outcome,
    forall rng,
      Examples.getitem_example (Examples.dataset "center_crop" (Some "flip") "raw+uvdn")
        1 rng
      = (outcome, rng).
Proof.
  apply (getitem_deterministic_modes
           (ndarray3 byte) nat Examples.open_picture Examples.crop_at_random
           Examples.as_is Examples.as_is Examples.draw
           (Examples.dataset "center_crop" (Some "flip") "raw+uvdn") 1).
  - discriminate.
  - discriminate.
Defined.

Lemma getitem_random_flip_draws_witness :
  Examples.getitem_example (Examples.dataset "resize" (Some "random_flip") "raw")
    0 1%nat
  = (Raise TypeError, 2%nat) /\
  forall out rng',
    Examples.getitem_example (Examples.dataset "resize" (Some "random_flip") "raw")
      0 0%nat
    <> (Ok out, rng').
Proof.
  destruct (getitem_random_flip_draws
              (ndarray3 byte) nat Examples.open_picture Examples.crop_at_random
              Examples.as_is Examples.as_is Examples.draw
              (Examples.dataset "resize" (Some "random_flip") "raw") 0 1%nat
              eq_refl ltac:(discriminate)) as [_ Hraise].
  destruct (getitem_random_flip_draws
              (ndarray3 byte) nat Examples.open_picture Examples.crop_at_random
              Examples.as_is Examples.as_is Examples.draw
              (Examples.dataset "resize" (Some "random_flip") "raw") 0 0%nat
              eq_refl ltac:(discriminate)) as [Hok _].
  split.
  - apply (Hraise "data/0.jpg" (Examples.picture x00 xff)).
    + simpl. tauto.
    + reflexivity.
    + reflexivity.
    + discriminate.
  - intros out rng' H. destruct (Hok out rng' H) as [_ [H2 _]].
    revert H2. simpl. intros H2. discriminate H2.
Defined.

Lemma getitem_flip_mirrors_witness :
  exists cond image image' rng',
    Examples.getitem_example (Examples.dataset "resize" None "raw+uvdn") 0 0%nat
    = (Ok (cond, image), rng') /\
    Examples.getitem_example (Examples.dataset "resize" (Some "flip") "raw+uvdn")
      0 0%nat
    = (Ok (cond, image'), rng') /\
    (item image 0 0 0 == -1)%Q /\ (item image' 0 0 1 == -1)%Q.
Proof.
  assert (Hnone : exists cond image rng',
             Examples.getitem_example (Examples.dataset "resize" None "raw+uvdn")
               0 0%nat
             = (Ok (cond, image), rng')).
  { eexists. eexists. eexists. vm_compute. reflexivity. }
  destruct Hnone as [cond [image [rng' Hnone]]].
  destruct (getitem_flip_mirrors
              (ndarray3 byte) nat Examples.open_picture Examples.crop_at_random
              Examples.as_is Examples.as_is Examples.draw
              (Examples.dataset "resize" None "raw+uvdn") 0 0%nat rng' cond image
              eq_refl Hnone) as [image' [Hflip [_ [_ [Hw Hitem]]]]].
  exists cond, image, image', rng'.
  split; [exact Hnone |]. split; [exact Hflip |].
  assert (Himage : (item image 0 0 0 == -1)%Q /\ dim2 image = 2%nat).
  { vm_compute in Hnone. injection Hnone as _ <- _. split; reflexivity. }
  destruct Himage as [H0 Hd]. split; [exact H0 |].
  rewrite (Hitem 0 0 1)%nat, Hd. exact H0.
Defined.

Lemma getitem_needs_uv_entry_witness :
  Examples.getitem_example Examples.dataset_no_pictures 0 0%nat
  = (Raise KeyError, 0%nat).
Proof.
  assert (Hc : exists cond,
             conditioning Examples.dataset_no_pictures
               (last_piece (str_split "/"%char "data/0.jpg")) = Ok cond).
  { eexists. vm_compute. reflexivity. }
  destruct Hc as [cond Hc].
  apply (getitem_needs_uv_entry
           (ndarray3 byte) nat Examples.open_picture Examples.crop_at_random
           Examples.as_is Examples.as_is Examples.draw
           Examples.dataset_no_pictures 0 0%nat 0%nat "data/0.jpg"
           (Examples.picture x00 xff) (Examples.picture x00 xff) cond).
  - reflexivity.
  - reflexivity.
  - reflexivity.
  - exact Hc.
  - vm_compute. reflexivity.
Defined.

(** ** deca_datasets.py: [load_data_deca] *)

Lemma list_index_In {A : Type} (xs : list A) (i : Z) (x : A) :
  list_index xs i = Ok x -> In x xs.
Proof.
  unfold list_index.
  match goal with
  | |- context [if ?c then _ else _] => destruct c; [| intros H; discriminate H]
  end.
  match goal with
  | |- context [nth_error xs ?n] => destruct (nth_error xs n) as [a |] eqn:E
  end; intros H; [| discriminate H].
  injection H as <-. eapply nth_error_In. exact E.
Qed.

Lemma concat_params_KeyError (e : entry) (k : string) :
  In k params_key -> dict_get e k = None -> concat_params e = Raise KeyError.
Proof.
  intros Hk Hnone. unfold concat_params, params_key, dict_getitem. cbn [mapM].
  unfold params_key in Hk. simpl in Hk.
  destruct Hk as [<- | [<- | [<- | [<- | []]]]]; rewrite Hnone;
    repeat match goal with
           | |- context [dict_get e ?k0] => destruct (dict_get e k0)
           end; reflexivity.
Qed.

Lemma loaded_params_lookup (d : deca_dir) (bound : Q) (dp : dict entry)
  (img k : string) :
  tables_are_dicts d ->
  load_deca_params d bound = Ok dp ->
  In k params_key ->
  inner_get dp img k
  = if String.eqb "normalize" img then None
    else option_map Arr (annotation d k img).
Proof.
  intros Hd Hload Hk.
  destruct (load_deca_params_Ok_inv d bound dp Hload) as [mn [mx ->]].
  rewrite uv_paths_preserve by (apply params_key_not_uv; exact Hk).
  rewrite inner_get_dict_set.
  destruct (String.eqb "normalize" img).
  - unfold params_key in Hk. simpl in Hk.
    destruct Hk as [<- | [<- | [<- | [<- | []]]]]; reflexivity.
  - rewrite (read_all_transposed d img k Hd), (str_in_params_key k Hk).
    reflexivity.
Qed.

Section LoaderFacts.

Variable join : string -> string -> string.
Variable DataLoader_refuses : DECADataset -> Z -> bool -> Z -> bool -> option exn.
Variable Image : Type.
Variable Rng : Type.
Variable open_rgb : string -> result Image.
Variable random_crop_arr : Image -> Z -> Rng -> ndarray3 byte * Rng.
Variable center_crop_arr : Image -> Z -> ndarray3 byte.
Variable resize_arr : Image -> Z -> ndarray3 byte.
Variable random_random : Rng -> Q * Rng.

Variable fs : disk.
Variables data_dir deca_dir : string.
Variable batch : Z.
Variable bound_ : Q.
Variable image_size : Z.
Variable deterministic : bool.
Variable resize : string.
Variable augment : option string.
Variable detector : bool.
Variable input : string.

Local Abbreviation loader_ :=
  (load_data_deca join DataLoader_refuses fs data_dir deca_dir batch bound_
     image_size deterministic resize augment detector input).
Local Abbreviation augment_ :=
  (augmentation Image Rng random_crop_arr center_crop_arr resize_arr random_random).
Local Abbreviation item_ :=
  (__getitem__ Image Rng open_rgb random_crop_arr center_crop_arr resize_arr
     random_random).

Lemma load_data_deca_Ok_inv (loader : DataLoader) :
  loader_ = Ok loader ->
  deca_dir <> "" /\
  exists deca_params entries,
    load_deca_params (at_deca_dir fs) bound_ = Ok deca_params /\
    at_data_dir fs = Dir entries /\
    DataLoader_refuses
      {| deca_params := deca_params;
         local_images := image_files_below join data_dir (Dir entries);
         bound := bound_;
         in_image := input;
         resolution := image_size;
         resize_mode := resize;
         augment_mode := augment;
         use_detector := detector |}
      batch (negb deterministic) 24 true = None /\
    loader
    = {| dataset :=
           {| deca_params := deca_params;
              local_images := image_files_below join data_dir (Dir entries);
              bound := bound_;
              in_image := input;
              resolution := image_size;
              resize_mode := resize;
              augment_mode := augment;
              use_detector := detector |};
         batch_size := batch;
         shuffle := negb deterministic;
         num_workers := 24;
         drop_last := true |}.
Proof.
  unfold load_data_deca.
  destruct (not_str deca_dir) eqn:Hempty; [intros H; discriminate H |].
  intros H. split.
  { intros E. apply not_str_true in E. rewrite E in Hempty. discriminate Hempty. }
  apply bind_Ok_inv in H. destruct H as [dp [Hload H]].
  apply bind_Ok_inv in H. destruct H as [paths [Hlist H]].
  unfold _list_image_files_recursively in Hlist.
  destruct (at_data_dir fs) as [| entries] eqn:Hnode; [discriminate Hlist |].
  injection Hlist as <-.
  exists dp, entries. split; [exact Hload |]. split; [reflexivity |].
  unfold new_DataLoader in H.
  destruct deterministic; simpl;
    match type of H with
    | context [DataLoader_refuses ?ds ?bs ?sh ?nw ?dl] =>
        destruct (DataLoader_refuses ds bs sh nw dl); [discriminate H |]
    end;
    injection H as <-; split; reflexivity.
Qed.

(** [load_data_deca] checks [deca_dir], and only it, for being empty
    ([ValueError]); it then raises what [load_deca_params] raises, then the
    error of listing a [data_dir] that is no directory, then what the
    constructor of the loader raises on its arguments; otherwise it returns
    the loader of a data set with the loaded dict, the listed image files
    and the arguments, in batches of [batch_size], shuffled unless
    [deterministic], with 24 workers, dropping the last incomplete
    batch. *)
Theorem load_data_deca_outcomes :
  (deca_dir = "" -> loader_ = Raise ValueError) /\
  (deca_dir <> "" ->
   forall e,
     loader_ = Raise e <->
     load_deca_params (at_deca_dir fs) bound_ = Raise e \/
     ((exists deca_params,
          load_deca_params (at_deca_dir fs) bound_ = Ok deca_params) /\
      at_data_dir fs = File /\ e = OSError) \/
     (exists deca_params entries,
         load_deca_params (at_deca_dir fs) bound_ = Ok deca_params /\
         at_data_dir fs = Dir entries /\
         DataLoader_refuses
           {| deca_params := deca_params;
              local_images := image_files_below join data_dir (Dir entries);
              bound := bound_;
              in_image := input;
              resolution := image_size;
              resize_mode := resize;
              augment_mode := augment;
              use_detector := detector |}
           batch (negb deterministic) 24 true = Some e)) /\
  (forall loader,
      loader_ = Ok loader <->
      deca_dir <> "" /\
      exists deca_params entries,
        load_deca_params (at_deca_dir fs) bound_ = Ok deca_params /\
        at_data_dir fs = Dir entries /\
        DataLoader_refuses
          {| deca_params := deca_params;
             local_images := image_files_below join data_dir (Dir entries);
             bound := bound_;
             in_image := input;
             resolution := image_size;
             resize_mode := resize;
             augment_mode := augment;
             use_detector := detector |}
          batch (negb deterministic) 24 true = None /\
        loader
        = {| dataset :=
               {| deca_params := deca_params;
                  local_images := image_files_below join data_dir (Dir entries);
                  bound := bound_;
                  in_image := input;
                  resolution := image_size;
                  resize_mode := resize;
                  augment_mode := augment;
                  use_detector := detector |};
             batch_size := batch;
             shuffle := negb deterministic;
             num_workers := 24;
             drop_last := true |}).
Proof.
  split; [| split].
  - intros ->. reflexivity.
  - intros Hne e. unfold load_data_deca.
    destruct (not_str deca_dir) eqn:Hempty.
    { apply not_str_true in Hempty. contradiction. }
    destruct (load_deca_params (at_deca_dir fs) bound_) as [dp | e0]; simpl.
    + destruct (at_data_dir fs) as [| entries]; simpl.
      * split.
        -- intros H. injection H as <-. right. left.
           split; [exists dp; reflexivity | split; reflexivity].
        -- intros [H | [[_ [_ ->]] | [dp' [entries [_ [H _]]]]]];
             [discriminate H | reflexivity | discriminate H].
      * assert (Hcall : forall sh,
                   new_DataLoader DataLoader_refuses
                     {| deca_params := dp;
                        local_images := image_files_below join data_dir (Dir entries);
                        bound := bound_;
                        in_image := input;
                        resolution := image_size;
                        resize_mode := resize;
                        augment_mode := augment;
                        use_detector := detector |} batch sh = Raise e <->
                   DataLoader_refuses
                     {| deca_params := dp;
                        local_images := image_files_below join data_dir (Dir entries);
                        bound := bound_;
                        in_image := input;
                        resolution := image_size;
                        resize_mode := resize;
                        augment_mode := augment;
                        use_detector := detector |} batch sh 24 true = Some e).
        { intros sh. unfold new_DataLoader.
          match goal with
          | |- context [DataLoader_refuses ?ds ?bs sh ?nw ?dl] =>
              destruct (DataLoader_refuses ds bs sh nw dl) as [e1 |]
          end.
          - split; intros H; injection H as <-; reflexivity.
          - split; intros H; discriminate H. }
        assert (Hiff : (if deterministic
                        then new_DataLoader DataLoader_refuses
                               {| deca_params := dp;
                                  local_images :=
                                    image_files_below join data_dir (Dir entries);
                                  bound := bound_;
                                  in_image := input;
                                  resolution := image_size;
                                  resize_mode := resize;
                                  augment_mode := augment;
                                  use_detector := detector |} batch false
                        else new_DataLoader DataLoader_refuses
                               {| deca_params := dp;
                                  local_images :=
                                    image_files_below join data_dir (Dir entries);
                                  bound := bound_;
                                  in_image := input;
                                  resolution := image_size;
                                  resize_mode := resize;
                                  augment_mode := augment;
                                  use_detector := detector |} batch true) = Raise e <->
                       DataLoader_refuses
                         {| deca_params := dp;
                            local_images :=
                              image_files_below join data_dir (Dir entries);
                            bound := bound_;
                            in_image := input;
                            resolution := image_size;
                            resize_mode := resize;
                            augment_mode := augment;
                            use_detector := detector |}
                         batch (negb deterministic) 24 true = Some e).
        { destruct deterministic; apply Hcall. }
        rewrite Hiff. split.
        -- intros H. right. right. exists dp, entries.
           split; [reflexivity | split; [reflexivity | exact H]].
        -- intros [H | [[_ [H _]] | [dp' [entries' [Hdp [Hent H]]]]]];
             [discriminate H | discriminate H |].
           injection Hdp as <-. injection Hent as <-. exact H.
    + split.
      * intros H. left. injection H as <-. reflexivity.
      * intros [H | [[[dp H] _] | [dp [entries [H _]]]]];
          [injection H as <-; reflexivity | discriminate H | discriminate H].
  - intros loader. split; [apply load_data_deca_Ok_inv |].
    intros [Hne [dp [entries [Hload [Hnode [Hacc ->]]]]]].
    unfold load_data_deca.
    destruct (not_str deca_dir) eqn:Hempty.
    { apply not_str_true in Hempty. contradiction. }
    rewrite Hload, Hnode. simpl. unfold new_DataLoader.
    destruct deterministic; simpl in Hacc; rewrite Hacc; reflexivity.
Qed.

(** What a loader built by [load_data_deca] serves: every item its data
    set returns belongs to a picture of the listing of [data_dir], and its
    conditioning vector has the length of the stacked parameter rows of
    [deca_dir], the statistics being the columnwise minimum and maximum of
    those rows. *)
Theorem load_data_deca_items (loader : DataLoader) (idx : Z)
  (rng rng' : Rng) (cond : vec) (image : ndarray3 Q) :
  loader_ = Ok loader ->
  item_ (dataset loader) idx rng = (Ok (cond, image), rng') ->
  exists path rows min_val max_val,
    _list_image_files_recursively join data_dir (at_data_dir fs)
    = Ok (local_images (dataset loader)) /\
    In path (local_images (dataset loader)) /\
    list_index (local_images (dataset loader)) idx = Ok path /\
    stacked_params (at_deca_dir fs) = Ok rows /\
    columnwise is_min_of min_val rows /\
    columnwise is_max_of max_val rows /\
    inner_get (deca_params (dataset loader)) "normalize" "min_val"
    = Some (Arr min_val) /\
    inner_get (deca_params (dataset loader)) "normalize" "max_val"
    = Some (Arr max_val) /\
    List.length cond = List.length min_val /\
    Forall (fun row => List.length row = List.length cond) rows.
Proof.
  intros Hloader Hitem.
  destruct (load_data_deca_Ok_inv loader Hloader)
    as [_ [dp [entries [Hload [Hnode [_ ->]]]]]].
  cbn [dataset] in *.
  apply getitem_Ok_inv in Hitem.
  destruct Hitem as [raw_q [uvdn_q [arr [Hin _]]]].
  apply getitem_inputs_Ok_inv in Hin.
  destruct Hin as [path [pil [raw_u8 [rng1 [uvp [pil2 [uv_u8 Hin]]]]]]].
  destruct Hin as [Hpath [_ [_ [_ [Hcond _]]]]].
  apply conditioning_Ok_inv in Hcond.
  destruct Hcond as [params [mn [mx [Hp [Hmn [Hmx Hn]]]]]].
  cbn [deca_params bound local_images] in *.
  destruct (loaded_entry_params _ _ _ _ _ Hload Hp)
    as [rows [mn0 [mx0 [Hrows [Hrow [Hmn0 [Hmx0 [Cmn Cmx]]]]]]]].
  rewrite Hmn in Hmn0. injection Hmn0 as <-.
  rewrite Hmx in Hmx0. injection Hmx0 as <-.
  assert (Lp : List.length params = List.length mn).
  { destruct Cmn as [L _]. rewrite Forall_forall in L. apply L. exact Hrow. }
  assert (Lmx : List.length mx = List.length mn).
  { destruct Cmn as [L1 _]. destruct Cmx as [L2 _].
    rewrite Forall_forall in L1, L2.
    rewrite <- (L1 _ Hrow), <- (L2 _ Hrow). reflexivity. }
  assert (Hgiven := normalize_given [params] mn mx (- bound_)%Q bound_ Lmx
                      (Forall_cons _ Lp (Forall_nil _))).
  pose proof (eq_trans (eq_sym Hgiven) Hn) as Hsame.
  simpl in Hsame. injection Hsame as Hc.
  assert (Lc : List.length cond = List.length mn).
  { rewrite <- Hc. rewrite map3_length by assumption. exact Lp. }
  exists path, rows, mn, mx.
  split; [rewrite Hnode; reflexivity |].
  split; [apply (list_index_In _ _ _ Hpath) |].
  split; [exact Hpath |]. split; [exact Hrows |].
  split; [exact Cmn |]. split; [exact Cmx |].
  split; [exact Hmn |]. split; [exact Hmx |].
  split; [exact Lc |].
  rewrite Lc. destruct Cmn as [L _]. exact L.
Qed.

(** The listing of [data_dir] is not checked against the annotation files
    when the loader is built: on a listed picture for which the last file
    of some parameter group has no row, [__getitem__] of the loader's data
    set raises [KeyError], once the picture is opened and augmented. *)
Theorem load_data_deca_unannotated_picture (loader : DataLoader) (idx : Z)
  (rng rng1 : Rng) (path k : string) (pil_image : Image) (arr : ndarray3 byte) :
  tables_are_dicts (at_deca_dir fs) ->
  loader_ = Ok loader ->
  list_index (local_images (dataset loader)) idx = Ok path ->
  open_rgb path = Ok pil_image ->
  augment_ (dataset loader) pil_image rng = (Ok arr, rng1) ->
  In k params_key ->
  annotation (at_deca_dir fs) k (last_piece (str_split "/"%char path)) = None ->
  item_ (dataset loader) idx rng = (Raise KeyError, rng1).
Proof.
  intros Hd Hloader Hpath Hpil Haug Hk Hnone.
  destruct (load_data_deca_Ok_inv loader Hloader)
    as [_ [dp [entries [Hload [Hnode [_ ->]]]]]].
  cbn [dataset] in *.
  unfold __getitem__, getitem_inputs, bind_run, lift.
  rewrite Hpath, Hpil, Haug.
  unfold conditioning. cbn [deca_params].
  rewrite (concat_params_KeyError _ k Hk); [reflexivity |].
  rewrite default_get_inner, (loaded_params_lookup _ _ _ _ k Hd Hload Hk), Hnone.
  destruct (String.eqb "normalize" (last_piece (str_split "/"%char path)));
    reflexivity.
Qed.

End LoaderFacts.

Lemma load_data_deca_outcomes_witness :
  load_data_deca Examples.path_join Examples.refuses_batch_size Examples.disk_two
    "data" "" 8 1 2 false "resize" None false "raw" = Raise ValueError /\
  load_data_deca Examples.path_join Examples.refuses_batch_size Examples.disk_two
    "data" "deca" 0 1 2 false "resize" None false "raw" = Raise ValueError /\
  exists loader,
    load_data_deca Examples.path_join Examples.refuses_batch_size Examples.disk_two
      "data" "deca" 8 1 2 false "resize" None false "raw" = Ok loader /\
    shuffle loader = true /\
    local_images (dataset loader) = ["data/0.jpg"; "data/1.jpg"].
Proof.
  split; [| split].
  - apply (proj1 (load_data_deca_outcomes Examples.path_join
                    Examples.refuses_batch_size Examples.disk_two
                    "data" "" 8 1 2 false "resize" None false "raw")).
    reflexivity.
  - apply (proj1 (proj2 (load_data_deca_outcomes Examples.path_join
                           Examples.refuses_batch_size Examples.disk_two
                           "data" "deca" 0 1 2 false "resize" None false "raw"))).
    + discriminate.
    + right. right. exists Examples.deca_loaded. eexists.
      split; [reflexivity | split; reflexivity].
  - eexists. split; [| split].
    + apply (proj2 (proj2 (load_data_deca_outcomes Examples.path_join
                             Examples.refuses_batch_size Examples.disk_two
                             "data" "deca" 8 1 2 false "resize" None false "raw"))).
      split; [discriminate |].
      exists Examples.deca_loaded. eexists.
      split; [reflexivity | split; [reflexivity | split; reflexivity]].
    + reflexivity.
    + reflexivity.
Defined.

Lemma load_data_deca_items_witness :
  exists loader cond image rng' path rows (min_val : vec),
    load_data_deca Examples.path_join Examples.refuses_batch_size Examples.disk_two
      "data" "deca" 8 1 2 true "resize" None false "raw" = Ok loader /\
    Examples.getitem_example (dataset loader) 0 0%nat = (Ok (cond, image), rng') /\
    In path (local_images (dataset loader)) /\
    stacked_params Examples.deca = Ok rows /\
    List.length cond = List.length min_val /\
    Forall (fun row => List.length row = List.length cond) rows.
Proof.
  assert (Hl : exists loader,
             load_data_deca Examples.path_join Examples.refuses_batch_size
               Examples.disk_two "data" "deca" 8 1 2 true "resize" None false "raw"
             = Ok loader).
  { eexists. reflexivity. }
  destruct Hl as [loader Hl].
  assert (Hi : exists cond image rng',
             Examples.getitem_example (dataset loader) 0 0%nat
             = (Ok (cond, image), rng')).
  { vm_compute in Hl. injection Hl as <-.
    eexists. eexists. eexists. vm_compute. reflexivity. }
  destruct Hi as [cond [image [rng' Hi]]].
  destruct (load_data_deca_items
              Examples.path_join Examples.refuses_batch_size (ndarray3 byte) nat
              Examples.open_picture Examples.crop_at_random Examples.as_is
              Examples.as_is Examples.draw
              Examples.disk_two "data" "deca" 8 1 2 true "resize" None false "raw"
              loader 0 0%nat rng' cond image Hl Hi)
    as [path [rows [mn [mx [_ [Hin [_ [Hrows [_ [_ [_ [_ [Hlen Hall]]]]]]]]]]]]].
  exists loader, cond, image, rng', path, rows, mn.
  split; [exact Hl |]. split; [exact Hi |]. split; [exact Hin |].
  split; [exact Hrows |]. split; [exact Hlen | exact Hall].
Defined.

Lemma load_data_deca_unannotated_picture_witness :
  exists loader,
    load_data_deca Examples.path_join Examples.refuses_batch_size Examples.disk_extra
      "data" "deca" 8 1 2 true "resize" None false "raw" = Ok loader /\
    local_images (dataset loader) = ["data/0.jpg"; "data/9.jpg"] /\
    __getitem__ (ndarray3 byte) nat Examples.open_any Examples.crop_at_random
      Examples.as_is Examples.as_is Examples.draw (dataset loader) 1 0%nat
    = (Raise KeyError, 0%nat).
Proof.
  assert (Hl : exists loader,
             load_data_deca Examples.path_join Examples.refuses_batch_size
               Examples.disk_extra "data" "deca" 8 1 2 true "resize" None false "raw"
             = Ok loader /\
             local_images (dataset loader) = ["data/0.jpg"; "data/9.jpg"] /\
             resize_mode (dataset loader) = "resize" /\
             augment_mode (dataset loader) = None).
  { eexists. split; [reflexivity |]. split; [reflexivity |]. split; reflexivity. }
  destruct Hl as [loader [Hl [Hpaths [Hr Ha]]]].
  exists loader. split; [exact Hl |]. split; [exact Hpaths |].
  apply (load_data_deca_unannotated_picture
           Examples.path_join Examples.refuses_batch_size (ndarray3 byte) nat
           Examples.open_any Examples.crop_at_random Examples.as_is Examples.as_is
           Examples.draw
           Examples.disk_extra "data" "deca" 8 1 2 true "resize" None false "raw"
           loader 1 0%nat 0%nat "data/9.jpg" "shape" (Examples.picture x00 xff)
           (Examples.picture x00 xff) tables_are_dicts_deca Hl).
  - rewrite Hpaths. reflexivity.
  - reflexivity.
  - unfold augmentation, bind_run, resized, flipped. rewrite Hr, Ha. reflexivity.
  - unfold params_key. simpl. tauto.
  - reflexivity.
Defined.

(** ** deca_datasets.py: the listing of a directory of files *)

Section FlatListingFacts.

Variable join : string -> string -> string.

Lemma flat_entry_results (data_dir : string)
  (l : list (string * (bool * list string))) :
  Forall (fun x => snd x = (false, [])) l ->
  flat_map (entry_results join data_dir) l
  = map (join data_dir) (filter is_image_entry (map fst l)).
Proof.
  induction 1 as [| [entry below] l Hx _ IH]; simpl.
  - reflexivity.
  - simpl in Hx. subst below. rewrite IH.
    destruct (is_image_entry entry); reflexivity.
Qed.

Lemma sorted_names {X : Type} (l : list (string * X)) :
  StronglySorted name_le l ->
  StronglySorted (fun x y => String.leb x y = true) (map fst l).
Proof.
  induction 1 as [| h t _ IH Hall]; simpl; constructor.
  - exact IH.
  - apply Forall_map. exact Hall.
Qed.

(** On a directory that holds files only, the listing is the sorted list
    of the entry names, in the order of the code points, with the names
    that fail the image test left out and the others joined to the
    directory path. *)
Theorem list_image_files_flat_sorted (data_dir : string)
  (entries : list (string * node)) :
  Forall (fun ec : string * node => snd ec = File) entries ->
  exists names,
    Permutation names (map fst entries) /\
    StronglySorted (fun x y => String.leb x y = true) names /\
    _list_image_files_recursively join data_dir (Dir entries)
    = Ok (map (join data_dir) (filter is_image_entry names)).
Proof.
  intros Hfiles.
  set (listed :=
         map (fun ec : string * node =>
                let (entry, child) := ec in
                (entry, (is_dir child,
                         image_files_below join (join data_dir entry) child)))
             entries).
  exists (map fst (sorted_by_name listed)). split; [| split].
  - apply perm_trans with (map fst listed).
    + apply Permutation_map. apply sorted_by_name_perm.
    + unfold listed. rewrite map_map.
      rewrite (map_ext _ fst); [apply Permutation_refl |].
      intros [entry child]. reflexivity.
  - apply sorted_names. apply sorted_by_name_sorted.
  - unfold _list_image_files_recursively. cbn [image_files_below].
    fold listed. rewrite flat_entry_results; [reflexivity |].
    apply Forall_forall. intros x Hx.
    apply (proj1 (sorted_by_name_In _ _)) in Hx.
    unfold listed in Hx. apply in_map_iff in Hx.
    destruct Hx as [[entry child] [<- Hin]].
    rewrite Forall_forall in Hfiles. specialize (Hfiles _ Hin).
    simpl in Hfiles. subst child. reflexivity.
Qed.

End FlatListingFacts.

Lemma list_image_files_flat_sorted_witness :
  exists names,
    Permutation names ["c.png"; "notes.txt"; "a.JPG"; "b.gif"] /\
    StronglySorted (fun x y => String.leb x y = true) names /\
    _list_image_files_recursively Examples.path_join "data" (Dir Examples.flat)
    = Ok (map (Examples.path_join "data") (filter is_image_entry names)) /\
    _list_image_files_recursively Examples.path_join "data" (Dir Examples.flat)
    = Ok ["data/a.JPG"; "data/b.gif"; "data/c.png"].
Proof.
  destruct (list_image_files_flat_sorted Examples.path_join "data" Examples.flat
              ltac:(repeat constructor)) as [names [Hp [Hs Hl]]].
  exists names. split; [exact Hp |]. split; [exact Hs |].
  split; [exact Hl | reflexivity].
Defined.

(** ** script_util.py: what [create_model] reads from the two strings *)

Section ModelStringFacts.

Variable int : string -> option Z.

Lemma mapM_first_failure {A B : Type} (f : A -> result B) (good rest : list A)
  (bad : A) (e : exn) :
  Forall (fun x => exists y, f x = Ok y) good ->
  f bad = Raise e ->
  mapM f (good ++ bad :: rest) = Raise e.
Proof.
  intros Hgood Hbad. induction Hgood as [| x good [y Hx] _ IH]; simpl.
  - rewrite Hbad. reflexivity.
  - rewrite Hx, IH. reflexivity.
Qed.

(** The model [create_model] returns is of the class that [arch] names,
    and it was built with one attention resolution per comma-separated
    piece of [attention_resolutions], the floor quotient of the image size
    by the non-zero integer of that piece; with the integers of the pieces
    of [channel_mult] when that string is not empty, which then goes with
    any image size, and with an image size of 512, 256, 128 or 64 when it
    is empty; and with 1000 classes or none. *)
Theorem create_model_returns (cfg : ImgModelCfg) (m : ImgModel) :
  create_model int cfg = Ok m ->
  ((im_arch cfg = "UNet" /\ m = UNetModel (unet_args_of m) false) \/
   (im_arch cfg = "UNetCond" /\
    m = UNetModelCondition (unet_args_of m) (im_condition_dim cfg) true)) /\
  Forall2
    (fun res ds =>
       exists r, int res = Some r /\ r <> 0%Z /\ ds = (im_image_size cfg / r)%Z)
    (str_split ","%char (im_attention_resolutions cfg))
    (ua_attention_resolutions (unet_args_of m)) /\
  (im_channel_mult cfg = "" -> In (im_image_size cfg) [512; 256; 128; 64]%Z) /\
  (im_channel_mult cfg <> "" ->
   Forall2 (fun piece c => exists z, int piece = Some z /\ c = inject_Z z)
     (str_split ","%char (im_channel_mult cfg))
     (ua_channel_mult (unet_args_of m))) /\
  ua_num_classes (unet_args_of m)
  = (if im_class_cond cfg then Some 1000%Z else None).
Proof.
  unfold create_model. intros H.
  apply bind_Ok_inv in H. destruct H as [cm [Hcm H]].
  apply bind_Ok_inv in H. destruct H as [ads [Hads H]].
  assert (Hargs : unet_args_of m = unet_args cfg cm ads /\
                  ((im_arch cfg = "UNet" /\ m = UNetModel (unet_args_of m) false) \/
                   (im_arch cfg = "UNetCond" /\
                    m = UNetModelCondition (unet_args_of m) (im_condition_dim cfg)
                          true))).
  { destruct (String.eqb_spec (im_arch cfg) "UNet") as [E | _].
    - injection H as <-. split; [reflexivity |]. left. split; [exact E | reflexivity].
    - destruct (String.eqb_spec (im_arch cfg) "UNetCond") as [E | _].
      + injection H as <-. split; [reflexivity |].
        right. split; [exact E | reflexivity].
      + discriminate H. }
  destruct Hargs as [-> Hclass]. cbn [unet_args ua_attention_resolutions
                                        ua_channel_mult ua_num_classes].
  split; [exact Hclass |]. split; [| split; [| split; [| reflexivity]]].
  - unfold attention_ds_of in Hads. apply mapM_Ok_inv in Hads.
    eapply Forall2_impl; [| exact Hads]. simpl. intros res ds Hres.
    unfold int_of in Hres. destruct (int res) as [r |]; [| discriminate Hres].
    simpl in Hres. destruct (Z.eqb_spec r 0) as [_ | Hr]; [discriminate Hres |].
    injection Hres as <-. exists r. repeat split. exact Hr.
  - intros Hempty. unfold channel_mult_of in Hcm. rewrite Hempty in Hcm.
    simpl in Hcm.
    destruct (Z.eqb_spec (im_image_size cfg) 512) as [-> | _]; [simpl; tauto |].
    destruct (Z.eqb_spec (im_image_size cfg) 256) as [-> | _]; [simpl; tauto |].
    destruct (Z.eqb_spec (im_image_size cfg) 128) as [-> | _]; [simpl; tauto |].
    destruct (Z.eqb_spec (im_image_size cfg) 64) as [-> | _]; [simpl; tauto |].
    discriminate Hcm.
  - intros Hne. unfold channel_mult_of in Hcm.
    rewrite (eqb_neq_false _ _ Hne) in Hcm. apply mapM_Ok_inv in Hcm.
    eapply Forall2_impl; [| exact Hcm]. simpl. intros piece c Hp.
    unfold int_of in Hp. destruct (int piece) as [z |]; [| discriminate Hp].
    simpl in Hp. injection Hp as <-. exists z. split; reflexivity.
Qed.

(** The attention resolutions are read before [arch] is looked at: once
    [channel_mult] is read, the first piece of [attention_resolutions]
    that is not a non-zero integer decides, whatever [arch] is:
    [ValueError] when it is no integer (the empty piece of an empty string
    or of a trailing comma, say), [ZeroDivisionError] when it is zero. *)
Theorem create_model_first_bad_resolution (cfg : ImgModelCfg)
  (channel_mult : list Q) (good rest : list string) (bad : string) :
  channel_mult_of int cfg = Ok channel_mult ->
  str_split ","%char (im_attention_resolutions cfg) = good ++ bad :: rest ->
  Forall (fun res => exists r, int res = Some r /\ r <> 0%Z) good ->
  (int bad = None -> create_model int cfg = Raise ValueError) /\
  (int bad = Some 0%Z -> create_model int cfg = Raise ZeroDivisionError).
Proof.
  intros Hcm Hsplit Hgood.
  assert (Hok : Forall
                  (fun res =>
                     exists y,
                       (r <- int_of int res ;;
                        if r =? 0 then Raise ZeroDivisionError
                        else Ok (im_image_size cfg / r))%Z = Ok y) good).
  { eapply Forall_impl; [| exact Hgood]. simpl. intros res [r [Hr Hnz]].
    unfold int_of. rewrite Hr. simpl.
    destruct (Z.eqb_spec r 0) as [E | _]; [contradiction |].
    eexists. reflexivity. }
  split; intros Hbad; unfold create_model; rewrite Hcm; simpl;
    unfold attention_ds_of; rewrite Hsplit.
  - rewrite (mapM_first_failure _ good rest bad ValueError Hok);
      [reflexivity | unfold int_of; rewrite Hbad; reflexivity].
  - rewrite (mapM_first_failure _ good rest bad ZeroDivisionError Hok);
      [reflexivity | unfold int_of; rewrite Hbad; reflexivity].
Qed.

End ModelStringFacts.

Lemma create_model_returns_witness :
  exists m,
    create_model Examples.int_decimal (Examples.img_cfg_with "16,8" "1,2") = Ok m /\
    ua_attention_resolutions (unet_args_of m) = [4; 8]%Z /\
    ua_num_classes (unet_args_of m) = Some 1000%Z.
Proof.
  assert (H : exists m,
             create_model Examples.int_decimal (Examples.img_cfg_with "16,8" "1,2")
             = Ok m /\
             ua_attention_resolutions (unet_args_of m) = [4; 8]%Z).
  { eexists. split; [vm_compute; reflexivity | reflexivity]. }
  destruct H as [m [Hm Ha]].
  exists m. split; [exact Hm |]. split; [exact Ha |].
  exact (proj2 (proj2 (proj2 (proj2
           (create_model_returns Examples.int_decimal
              (Examples.img_cfg_with "16,8" "1,2") m Hm))))).
Defined.

Lemma create_model_first_bad_resolution_witness :
  create_model Examples.int_decimal (Examples.img_cfg_with "" "") = Raise ValueError /\
  create_model Examples.int_decimal (Examples.img_cfg_with "16,0,x" "")
  = Raise ZeroDivisionError.
Proof.
  split.
  - apply (proj1 (create_model_first_bad_resolution Examples.int_decimal
                    (Examples.img_cfg_with "" "") [1; 2; 3; 4]%Q [] [] ""
                    eq_refl eq_refl (Forall_nil _))).
    reflexivity.
  - assert (Hgood : Forall
                      (fun res => exists r, Examples.int_decimal res = Some r /\ r <> 0%Z)
                      ["16"]).
    { constructor; [| constructor]. exists 16%Z. split; [reflexivity | discriminate]. }
    apply (proj2 (create_model_first_bad_resolution Examples.int_decimal
                    (Examples.img_cfg_with "16,0,x" "") [1; 2; 3; 4]%Q ["16"] ["x"] "0"
                    eq_refl eq_refl Hgood)).
    reflexivity.
Defined.

(** ** deca_datasets.py: the image name of a uv-detail-normals path *)

Lemma split_aux_no_sep (c : ascii) (t : string) :
  str_contains c t = false ->
  forall cur, split_aux c t cur = [(cur ++ t)%string].
Proof.
  induction t as [| a t IH]; simpl; intros H cur.
  - assert (E : forall u : string, (u ++ "")%string = u).
    { induction u as [| b u IHu]; simpl; [reflexivity | rewrite IHu; reflexivity]. }
    rewrite E. reflexivity.
  - apply orb_false_iff in H. destruct H as [Ha Ht]. rewrite Ha.
    rewrite (IH Ht). f_equal.
    assert (E : forall u : string,
               ((u ++ String a "") ++ t)%string = (u ++ String a t)%string).
    { induction u as [| b u IHu]; simpl; [reflexivity | rewrite IHu; reflexivity]. }
    apply E.
Qed.

Lemma split_aux_not_empty (c : ascii) (s : string) :
  forall cur, split_aux c s cur <> [].
Proof.
  induction s as [| a s IH]; simpl; intros cur.
  - discriminate.
  - destruct (Ascii.eqb a c); [discriminate | apply IH].
Qed.

Lemma last_cons_not_empty {A : Type} (x d : A) (l : list A) :
  l <> [] -> last (x :: l) d = last l d.
Proof. destruct l; [intros H; exfalso; apply H; reflexivity | reflexivity]. Qed.

(** The last piece of a split depends only on what follows the last
    separator. *)
Lemma last_piece_after_sep (c : ascii) (s t : string) :
  forall cur,
    last (split_aux c (s ++ String c t) cur) EmptyString
    = last (split_aux c t EmptyString) EmptyString.
Proof.
  induction s as [| a s IH]; intros cur.
  - simpl. rewrite Ascii.eqb_refl.
    apply last_cons_not_empty. apply split_aux_not_empty.
  - simpl. destruct (Ascii.eqb a c).
    + rewrite last_cons_not_empty by apply split_aux_not_empty. apply IH.
    + apply IH.
Qed.

Lemma last_piece_app_no_sep (c : ascii) (s t : string) :
  str_contains c t = false ->
  forall cur,
    last (split_aux c (s ++ t) cur) EmptyString
    = (last (split_aux c s cur) EmptyString ++ t)%string.
Proof.
  intros Ht. induction s as [| a s IH]; intros cur.
  - simpl. rewrite (split_aux_no_sep c t Ht). reflexivity.
  - simpl. destruct (Ascii.eqb a c).
    + rewrite !last_cons_not_empty by apply split_aux_not_empty. apply IH.
    + apply IH.
Qed.

(** The image name that lines 88-89 read from a path is what follows the
    last slash or underscore of the path, whichever comes last, with every
    '.png' replaced by '.jpg'.  So the picture of an image whose own name
    has an underscore is stored under the part of the name after it. *)
Theorem uv_image_name_after_last_separator (prefix name : string) :
  str_contains "/"%char name = false ->
  str_contains "_"%char name = false ->
  uv_image_name (prefix ++ "_" ++ name) = str_replace ".png" ".jpg" name /\
  uv_image_name (prefix ++ "/" ++ name) = str_replace ".png" ".jpg" name.
Proof.
  intros Hslash Hunder. unfold uv_image_name, last_piece, str_split.
  split; f_equal.
  - rewrite (last_piece_app_no_sep "/"%char prefix ("_" ++ name)).
    + cbn [append]. rewrite last_piece_after_sep.
      rewrite (split_aux_no_sep "_"%char name Hunder). reflexivity.
    + cbn [append str_contains]. rewrite Hslash. reflexivity.
  - cbn [append]. rewrite (last_piece_after_sep "/"%char prefix name).
    rewrite (split_aux_no_sep "/"%char name Hslash). cbn [last append].
    rewrite (split_aux_no_sep "_"%char name Hunder). reflexivity.
Qed.

Lemma uv_image_name_after_last_separator_witness :
  uv_image_name "deca/uv_detail_normals/train/uvdn_face_01.png" = "01.jpg" /\
  uv_image_name "deca/uv_detail_normals/train/01.png" = "01.jpg".
Proof.
  split.
  - apply (proj1 (uv_image_name_after_last_separator
                    "deca/uv_detail_normals/train/uvdn_face" "01.png"
                    eq_refl eq_refl)).
  - apply (proj2 (uv_image_name_after_last_separator
                    "deca/uv_detail_normals/train" "01.png" eq_refl eq_refl)).
Defined.
